(** * MiniPlaces scene recognition: the two classifiers and their loops

    A shallow embedding of [SceneRecognition.py]: the layer stacks built by
    [SimpleFCNet.__init__] and [SimpleConvNet.__init__], [reset_params], the
    mode-dependent [forward], and the loops [train_model] and [test_model].

    Conventions.
    - A tensor is its shape together with its entries in row-major order,
      given as a function of the flat index.
    - Floating-point scalars are idealised as real numbers; the accuracy, a
      quotient of two integers, is kept as the exact rational.  Where rounding
      decides a result, the class that is read off a softmax, the softmax is
      the one of single precision, [softmax32], each operation rounded to the
      nearest binary32 value.
    - Exceptions are values of [exn]; code that can raise returns [result].
    - torch's default generator is a stream of uniform samples and a cursor.
    - The layers of [torch.nn] are not part of the repository: their shape
      rules and entry-wise definitions follow torch's documentation. *)

From Stdlib Require Import List Arith ZArith Lia Bool Permutation.
From Stdlib Require Import Reals Lra.
From Stdlib Require Import QArith.
Import ListNotations.

Set Implicit Arguments.

(** ** Exceptions and results *)

Inductive exn : Set :=
| ConfigurationError
| RuntimeError
| ValueError
| IndexError
| ZeroDivisionError.

Inductive result (A : Type) : Type :=
| Ok (a : A)
| Err (e : exn).

Arguments Ok {A} a.
Arguments Err {A} e.

Definition bind {A B : Type} (m : result A) (k : A -> result B) : result B :=
  match m with
  | Ok a => k a
  | Err e => Err e
  end.

Declare Scope result_scope.
Delimit Scope result_scope with result.
Notation "x <- m ;; k" := (bind m (fun x => k))
  (at level 61, m at next level, right associativity) : result_scope.
Notation "' p <- m ;; k" := (bind m (fun x => match x with p => k end))
  (at level 61, p pattern, m at next level, right associativity) : result_scope.
Open Scope result_scope.

Definition is_ok {A : Type} (r : result A) : bool :=
  match r with Ok _ => true | Err _ => false end.

Definition rmap {A B : Type} (f : A -> B) (r : result A) : result B :=
  match r with Ok a => Ok (f a) | Err e => Err e end.

(** ** Tensors *)

Record tensor (A : Type) : Type := mkTensor {
  shape : list nat;
  data : nat -> A
}.

Definition numel (s : list nat) : nat := fold_right Nat.mul 1%nat s.

(** Finite sums and maxima of real-valued index functions. *)

Fixpoint big_sum (n : nat) (f : nat -> R) : R :=
  match n with
  | O => 0%R
  | S n' => (big_sum n' f + f n')%R
  end.

(** [big_max n f] is the maximum of [f 0 .. f n]. *)
Fixpoint big_max (n : nat) (f : nat -> R) : R :=
  match n with
  | O => f O
  | S n' => Rmax (big_max n' f) (f n)
  end.

(** ** The random generator *)

Record rng : Type := mkRng {
  stream : nat -> R;
  pos : nat
}.

(** [Tensor.uniform_(lo, hi)]: fills a tensor of shape [s] with fresh samples. *)
Definition uniform_ (s : list nat) (lo hi : R) (g : rng) : tensor R * rng :=
  (mkTensor s (fun i => (lo + stream g (pos g + i) * (hi - lo))%R),
   mkRng (stream g) (pos g + numel s)).

Definition constant_ (t : tensor R) (v : R) : tensor R :=
  mkTensor (shape t) (fun _ => v).

Definition has_zero_dim (s : list nat) : bool := existsb (Nat.eqb 0) s.

(** [nn.init.xavier_uniform_] with the default gain 1: the fans are read off
    the shape, and the bound divides by their sum. *)
Definition xavier_bound (fan_in fan_out : nat) : R :=
  (sqrt 3 * (1 * sqrt (2 / INR (fan_in + fan_out))))%R.

Definition xavier_uniform_ (t : tensor R) (g : rng) : result (tensor R * rng) :=
  match shape t with
  | o :: i :: rest =>
      let fan_in := (i * numel rest)%nat in
      let fan_out := (o * numel rest)%nat in
      if (fan_in + fan_out =? 0)%nat then Err ZeroDivisionError
      else
        let a := xavier_bound fan_in fan_out in
        Ok (uniform_ (shape t) (- a) a g)
  | _ => Err ValueError
  end.

(** [nn.init.kaiming_uniform_(t, a = sqrt 5)], the default of [nn.Linear] and
    [nn.Conv2d], for a tensor of at least two dimensions. *)
Definition kaiming_bound (fan_in : nat) : R :=
  (sqrt 3 * (sqrt (2 / (1 + sqrt 5 * sqrt 5)) / sqrt (INR fan_in)))%R.

Definition kaiming_uniform_ (s : list nat) (fan_in : nat) (g : rng) : tensor R * rng :=
  if has_zero_dim s then (mkTensor s (fun _ => 0%R), g)
  else uniform_ s (- kaiming_bound fan_in) (kaiming_bound fan_in) g.

(** ** Modules of [torch.nn] *)

Inductive module : Type :=
| Flatten
| Linear (in_features out_features : nat) (weight : tensor R) (bias : option (tensor R))
| ReLU
| Conv2d (in_channels out_channels kernel_size stride : nat) (weight bias : tensor R)
| BatchNorm2d (num_features : nat) (weight bias running_mean running_var : tensor R)
              (num_batches_tracked : nat)
| MaxPool2d (kernel_size stride : nat)
| Dropout (p : R).

Definition bias_bound (fan_in : nat) : R :=
  if (fan_in =? 0)%nat then 0%R else (1 / sqrt (INR fan_in))%R.

(** [nn.Linear(in_features, out_features)]: a negative size is refused when the
    weight tensor is allocated. *)
Definition nn_Linear (in_features out_features : Z) (g : rng) : result (module * rng) :=
  if ((in_features <? 0) || (out_features <? 0))%Z then Err RuntimeError
  else
    let i := Z.to_nat in_features in
    let o := Z.to_nat out_features in
    let (w, g1) := kaiming_uniform_ [o; i] i g in
    let (b, g2) := uniform_ [o] (- bias_bound i) (bias_bound i) g1 in
    Ok (Linear i o w (Some b), g2).

(** [nn.Conv2d(cin, cout, kernel_size = k, stride = s)], no padding. *)
Definition nn_Conv2d (cin cout k s : nat) (g : rng) : module * rng :=
  let fan_in := (cin * (k * k))%nat in
  let (w, g1) := kaiming_uniform_ [cout; cin; k; k] fan_in g in
  let (b, g2) := uniform_ [cout] (- bias_bound fan_in) (bias_bound fan_in) g1 in
  (Conv2d cin cout k s w b, g2).

Definition nn_BatchNorm2d (c : nat) : module :=
  BatchNorm2d c (mkTensor [c] (fun _ => 1%R)) (mkTensor [c] (fun _ => 0%R))
                (mkTensor [c] (fun _ => 0%R)) (mkTensor [c] (fun _ => 1%R)) 0.

(** *** Shape rules *)

Definition flatten_shape (s : list nat) : result (list nat) :=
  match s with
  | n :: d :: rest => Ok [n; numel (d :: rest)]
  | _ => Err IndexError
  end.

Definition linear_shape (i o : nat) (s : list nat) : result (list nat) :=
  match rev s with
  | [] => Err RuntimeError
  | d :: pre => if (d =? i)%nat then Ok (rev pre ++ [o]) else Err RuntimeError
  end.

(** Output extent of a window of size [k] moved by [s] over [h] entries. *)
Definition window_out (h k s : nat) : nat := ((h - k) / s + 1)%nat.

Definition conv2d_shape (cin cout k st : nat) (s : list nat) : result (list nat) :=
  match s with
  | [n; c; h; w] =>
      if ((c =? cin) && (k <=? h) && (k <=? w) && (1 <=? st))%nat
      then Ok [n; cout; window_out h k st; window_out w k st]
      else Err RuntimeError
  | [c; h; w] =>
      if ((c =? cin) && (k <=? h) && (k <=? w) && (1 <=? st))%nat
      then Ok [cout; window_out h k st; window_out w k st]
      else Err RuntimeError
  | _ => Err RuntimeError
  end.

Definition max_pool2d_shape (k st : nat) (s : list nat) : result (list nat) :=
  match s with
  | [n; c; h; w] =>
      if ((k <=? h) && (k <=? w) && (1 <=? st))%nat
      then Ok [n; c; window_out h k st; window_out w k st]
      else Err RuntimeError
  | [c; h; w] =>
      if ((k <=? h) && (k <=? w) && (1 <=? st))%nat
      then Ok [c; window_out h k st; window_out w k st]
      else Err RuntimeError
  | _ => Err RuntimeError
  end.

Definition batch_norm2d_shape (train : bool) (c : nat) (s : list nat) : result (list nat) :=
  match s with
  | [n; c'; h; w] =>
      if train && (n * (h * w) =? 1)%nat then Err ValueError
      else if (c' =? c)%nat then Ok s
      else Err RuntimeError
  | _ => Err ValueError
  end.

Definition module_shape (train : bool) (m : module) (s : list nat) : result (list nat) :=
  match m with
  | Flatten => flatten_shape s
  | Linear i o _ _ => linear_shape i o s
  | ReLU => Ok s
  | Conv2d cin cout k st _ _ => conv2d_shape cin cout k st s
  | BatchNorm2d c _ _ _ _ _ => batch_norm2d_shape train c s
  | MaxPool2d k st => max_pool2d_shape k st s
  | Dropout _ => Ok s
  end.

Fixpoint Sequential_shape (train : bool) (ms : list module) (s : list nat) : result (list nat) :=
  match ms with
  | [] => Ok s
  | m :: ms' => s' <- module_shape train m s ;; Sequential_shape train ms' s'
  end.

(** [F.softmax(x, dim = 1)] needs a second dimension. *)
Definition softmax_shape (s : list nat) : result (list nat) :=
  match s with
  | _ :: _ :: _ => Ok s
  | _ => Err IndexError
  end.

(** *** Entries of the layers' outputs *)

Definition get (t : tensor R) (i : nat) : R := data t i.

(** [F.linear]: row [p / o] of the input against row [p mod o] of the weight. *)
Definition linear_data (i o : nat) (w : tensor R) (b : option (tensor R))
    (x : tensor R) : nat -> R :=
  fun p =>
    let r := (p / o)%nat in
    let c := (p mod o)%nat in
    let s := big_sum i (fun k => (get x (r * i + k) * get w (c * i + k))%R) in
    match b with
    | Some b' => (s + get b' c)%R
    | None => s
    end.

Definition relu_data (x : tensor R) : nat -> R :=
  fun p => Rmax 0 (get x p).

(** The last three extents of an image tensor, batched or not. *)
Definition chw (s : list nat) : nat * nat * nat :=
  match s with
  | [_; c; h; w] => (c, h, w)
  | [c; h; w] => (c, h, w)
  | _ => (0, 0, 0)%nat
  end.

Definition conv2d_data (cout k st : nat) (wt b : tensor R) (x : tensor R) : nat -> R :=
  fun p =>
    let '(c, h, w) := chw (shape x) in
    let h' := window_out h k st in
    let w' := window_out w k st in
    let j := (p mod w')%nat in
    let i := ((p / w') mod h')%nat in
    let o := ((p / (w' * h')) mod cout)%nat in
    let n := (p / (w' * h' * cout))%nat in
    (get b o +
     big_sum c (fun ci =>
       big_sum k (fun di =>
         big_sum k (fun dj =>
           get wt (((o * c + ci) * k + di) * k + dj) *
           get x (((n * c + ci) * h + (i * st + di)) * w + (j * st + dj))))))%R.

Definition max_pool2d_data (k st : nat) (x : tensor R) : nat -> R :=
  fun p =>
    let '(c, h, w) := chw (shape x) in
    let h' := window_out h k st in
    let w' := window_out w k st in
    let j := (p mod w')%nat in
    let i := ((p / w') mod h')%nat in
    let nc := (p / (w' * h'))%nat in
    big_max (k - 1) (fun di =>
      big_max (k - 1) (fun dj =>
        get x ((nc * h + (i * st + di)) * w + (j * st + dj)))).

(** Batch statistics of channel [ch] of an [n; c; h; w] tensor. *)
Definition channel_mean (x : tensor R) (n c hw ch : nat) : R :=
  (big_sum n (fun b => big_sum hw (fun q => get x ((b * c + ch) * hw + q))) / INR (n * hw))%R.

Definition channel_var (x : tensor R) (n c hw ch : nat) : R :=
  let mu := channel_mean x n c hw ch in
  (big_sum n (fun b => big_sum hw (fun q =>
     (get x ((b * c + ch) * hw + q) - mu) * (get x ((b * c + ch) * hw + q) - mu)))
   / INR (n * hw))%R.

Definition bn_eps : R := (1 / 100000)%R.
Definition bn_momentum : R := (1 / 10)%R.

Definition batch_norm2d_data (train : bool) (gamma beta rm rv : tensor R)
    (x : tensor R) : nat -> R :=
  fun p =>
    match shape x with
    | [n; c; h; w] =>
        let ch := ((p / (h * w)) mod c)%nat in
        let mu := if train then channel_mean x n c (h * w) ch else get rm ch in
        let var := if train then channel_var x n c (h * w) ch else get rv ch in
        ((get x p - mu) / sqrt (var + bn_eps) * get gamma ch + get beta ch)%R
    | _ => 0%R
    end.

(** In training mode the running statistics move towards the batch statistics
    (the variance through its unbiased estimate). *)
Definition batch_norm2d_update (c : nat) (gamma beta rm rv : tensor R) (nbt : nat)
    (x : tensor R) : module :=
  match shape x with
  | [n; _; h; w] =>
      let m := (n * (h * w))%nat in
      BatchNorm2d c gamma beta
        (mkTensor (shape rm) (fun ch =>
           ((1 - bn_momentum) * get rm ch + bn_momentum * channel_mean x n c (h * w) ch)%R))
        (mkTensor (shape rv) (fun ch =>
           ((1 - bn_momentum) * get rv ch
            + bn_momentum * (channel_var x n c (h * w) ch * INR m / INR (m - 1)))%R))
        (S nbt)
  | _ => BatchNorm2d c gamma beta rm rv nbt
  end.

(** [F.dropout(x, p, training = True)]: an entry survives when its sample is
    below [1 - p], and survivors are rescaled. *)
Definition dropout_data (p : R) (g : rng) (x : tensor R) : nat -> R :=
  fun q =>
    if Rlt_dec (stream g (pos g + q)) (1 - p) then (get x q / (1 - p))%R else 0%R.

(** [F.softmax(x, dim = 1)] on a tensor of shape [b :: c :: rest]. *)
Definition softmax_data (x : tensor R) : nat -> R :=
  fun p =>
    match shape x with
    | _ :: c :: rest =>
        let inner := numel rest in
        let r := (p mod inner)%nat in
        let i := (p / (c * inner))%nat in
        (exp (get x p) / big_sum c (fun k => exp (get x ((i * c + k) * inner + r))))%R
    | _ => 0%R
    end.

Definition softmax (x : tensor R) : result (tensor R) :=
  s <- softmax_shape (shape x) ;;
  Ok (mkTensor s (softmax_data x)).

(** *** Forward pass of one module and of [nn.Sequential] *)

Definition module_forward (train : bool) (m : module) (x : tensor R) (g : rng)
  : result (tensor R * module * rng) :=
  s <- module_shape train m (shape x) ;;
  match m with
  | Flatten => Ok (mkTensor s (data x), m, g)
  | Linear i o w b => Ok (mkTensor s (linear_data i o w b x), m, g)
  | ReLU => Ok (mkTensor s (relu_data x), m, g)
  | Conv2d _ cout k st w b => Ok (mkTensor s (conv2d_data cout k st w b x), m, g)
  | BatchNorm2d c gamma beta rm rv nbt =>
      Ok (mkTensor s (batch_norm2d_data train gamma beta rm rv x),
          if train then batch_norm2d_update c gamma beta rm rv nbt x else m,
          g)
  | MaxPool2d k st => Ok (mkTensor s (max_pool2d_data k st x), m, g)
  | Dropout p =>
      if train
      then Ok (mkTensor s (dropout_data p g x), m, mkRng (stream g) (pos g + numel s))
      else Ok (x, m, g)
  end.

Fixpoint Sequential_forward (train : bool) (ms : list module) (x : tensor R) (g : rng)
  : result (tensor R * list module * rng) :=
  match ms with
  | [] => Ok (x, [], g)
  | m :: ms' =>
      '(y, m', g1) <- module_forward train m x g ;;
      '(z, ms'', g2) <- Sequential_forward train ms' y g1 ;;
      Ok (z, m' :: ms'', g2)
  end.

(** ** The two classifiers *)

(** An [nn.Module] holding one [nn.Sequential]: its mode flag and its layers. *)
Record net : Type := mkNet {
  training : bool;
  layers : list module
}.

(** [reset_params]: every [nn.Linear] among the modules gets Xavier-uniform
    weights and, when it has a bias, a zero bias. *)
Definition reset_module (m : module) (g : rng) : result (module * rng) :=
  match m with
  | Linear i o w b =>
      '(w', g') <- xavier_uniform_ w g ;;
      Ok (Linear i o w' (option_map (fun b' => constant_ b' 0%R) b), g')
  | _ => Ok (m, g)
  end.

Fixpoint reset_params (ms : list module) (g : rng) : result (list module * rng) :=
  match ms with
  | [] => Ok ([], g)
  | m :: ms' =>
      '(m', g1) <- reset_module m g ;;
      '(ms'', g2) <- reset_params ms' g1 ;;
      Ok (m' :: ms'', g2)
  end.

Definition SimpleFCNet_init (input_shape : Z * Z) (num_classes : Z) (g : rng)
  : result (net * rng) :=
  '(fc1, g1) <- nn_Linear 784 128 g ;;
  '(fc2, g2) <- nn_Linear 128 64 g1 ;;
  '(fc3, g3) <- nn_Linear 64 num_classes g2 ;;
  let layers := [Flatten; fc1; ReLU; fc2; ReLU; fc3] in
  '(layers', g4) <- reset_params layers g3 ;;
  Ok (mkNet true layers', g4).

Definition SimpleFCNet_forward (self : net) (x : tensor R) (g : rng)
  : result (tensor R * net * rng) :=
  '(out, ls, g') <- Sequential_forward (training self) (layers self) x g ;;
  if training self then Ok (out, mkNet (training self) ls, g')
  else
    out' <- softmax out ;;
    Ok (out', mkNet (training self) ls, g').

(** The local [fc_dim] of [SimpleConvNet.__init__]. *)
Definition fc_dim (input_shape : Z * Z) : Z :=
  (16 * (fst input_shape / 4 - 3) * (snd input_shape / 4 - 3))%Z.

Definition SimpleConvNet_init (input_shape : Z * Z) (num_classes : Z) (g : rng)
  : result (net * rng) :=
  let fc_dim := fc_dim input_shape in
  let (conv1, g1) := nn_Conv2d 3 16 3 1 g in
  let (conv2, g2) := nn_Conv2d 16 32 3 1 g1 in
  '(fc1, g3) <- nn_Linear 1152 256 g2 ;;
  '(fc2, g4) <- nn_Linear 256 128 g3 ;;
  '(fc3, g5) <- nn_Linear 128 num_classes g4 ;;
  Ok (mkNet true
        [conv1; nn_BatchNorm2d 16; ReLU; MaxPool2d 2 2;
         conv2; nn_BatchNorm2d 32; ReLU; MaxPool2d 2 2;
         Flatten;
         fc1; ReLU; fc2; ReLU; fc3; Dropout (2 / 10)%R],
      g5).

Definition SimpleConvNet_forward (self : net) (x : tensor R) (g : rng)
  : result (tensor R * net * rng) :=
  '(out, ls, g') <- Sequential_forward (training self) (layers self) x g ;;
  if training self then Ok (out, mkNet (training self) ls, g')
  else
    out' <- softmax out ;;
    Ok (out', mkNet (training self) ls, g').

(** [nn.Module.train()] and [nn.Module.eval()]. *)
Definition module_train (self : net) : net := mkNet true (layers self).
Definition module_eval (self : net) : net := mkNet false (layers self).

(** The output shape of a classifier's [forward] for an input of shape [s]. *)
Definition forward_shape (self : net) (s : list nat) : result (list nat) :=
  s' <- Sequential_shape (training self) (layers self) s ;;
  if training self then Ok s' else softmax_shape s'.

(** ** Predictions and their comparison with the labels *)

(** Index of the first maximum among [f 0 .. f n]. *)
Fixpoint argmax (n : nat) (f : nat -> R) : nat :=
  match n with
  | O => O
  | S n' =>
      let m := argmax n' f in
      if Rlt_dec (f m) (f n) then n else m
  end.

(** [x.max(1, keepdim=True)[1]]: per position outside dimension 1, the index
    of the maximum along dimension 1. *)
Definition max_dim1 (x : tensor R) : result (tensor Z) :=
  match shape x with
  | b :: c :: rest =>
      if (c =? 0)%nat then Err IndexError
      else
        let inner := numel rest in
        Ok (mkTensor (b :: 1%nat :: rest)
              (fun q =>
                 let i := (q / inner)%nat in
                 let r := (q mod inner)%nat in
                 Z.of_nat (argmax (c - 1) (fun k => get x ((i * c + k) * inner + r)))))
  | _ => Err IndexError
  end.

(** [t.view_as(like)] *)
Definition view_as (t like : tensor Z) : result (tensor Z) :=
  if (numel (shape t) =? numel (shape like))%nat
  then Ok (mkTensor (shape like) (data t))
  else Err RuntimeError.

Fixpoint count_upto (n : nat) (f : nat -> bool) : Z :=
  match n with
  | O => 0%Z
  | S n' => (count_upto n' f + (if f n' then 1 else 0))%Z
  end.

(** [a.eq(b).sum().item()] for two tensors of one shape. *)
Definition eq_sum_item (a b : tensor Z) : Z :=
  count_upto (numel (shape a)) (fun q => (data a q =? data b q)%Z).

(** ** Data loaders and the diagnostic lines *)

Definition batch : Type := tensor R * tensor Z.

Record DataLoader : Type := mkLoader {
  batches : list batch;
  dataset_len : nat            (* len(loader.dataset) *)
}.

(** [len(loader)]: the number of batches. *)
Definition len (l : DataLoader) : nat := length (batches l).

Inductive report : Type :=
| TrainingReport (epoch : Z) (average_loss : R)
| TestingReport (epoch : Z) (accuracy_percent : Q).

(** ** The loops *)

(** What the loops ask of a model: the two mode switches and the call. *)
Record Classifier (M : Type) : Type := mkClassifier {
  model_train : M -> M;
  model_eval : M -> M;
  model_call : M -> tensor R -> rng -> result (tensor R * M * rng)
}.

Definition SimpleFCNet : Classifier net :=
  mkClassifier module_train module_eval SimpleFCNet_forward.

Definition SimpleConvNet : Classifier net :=
  mkClassifier module_train module_eval SimpleConvNet_forward.

Section Loops.

(** The model, the [.grad] fields of its parameters, the optimizer's own
    state and the loss tensor. *)
Variables M G Opt L : Type.
Variable cls : Classifier M.

(** The optimizer and the loss function are supplied by the caller. *)
Variable optimizer_zero_grad : G -> G.
Variable optimizer_step : Opt -> M -> G -> result (Opt * M).
Variable criterion : tensor R -> tensor Z -> result L.
Variable loss_backward : L -> M -> G -> result G.
Variable loss_item : L -> R.

Record world : Type := mkWorld {
  w_model : M;
  w_grads : G;
  w_optim : Opt;
  w_rng : rng;
  w_grad_enabled : bool;      (* torch.is_grad_enabled() *)
  w_graphs : nat;             (* autograd graphs recorded so far *)
  w_stdout : list report
}.

(** [model(input)]: a graph is recorded only while gradients are enabled. *)
Definition call_model (w : world) (input : tensor R) : result (tensor R * world) :=
  '(out, m', g') <- model_call cls (w_model w) input (w_rng w) ;;
  Ok (out,
      mkWorld m' (w_grads w) (w_optim w) g' (w_grad_enabled w)
        (if w_grad_enabled w then S (w_graphs w) else w_graphs w)
        (w_stdout w)).

Definition print (r : report) (w : world) : world :=
  mkWorld (w_model w) (w_grads w) (w_optim w) (w_rng w) (w_grad_enabled w)
    (w_graphs w) (w_stdout w ++ [r]).

Definition set_model (m : M) (w : world) : world :=
  mkWorld m (w_grads w) (w_optim w) (w_rng w) (w_grad_enabled w)
    (w_graphs w) (w_stdout w).

Definition set_grad_enabled (b : bool) (w : world) : world :=
  mkWorld (w_model w) (w_grads w) (w_optim w) (w_rng w) b
    (w_graphs w) (w_stdout w).

(** The body of the loop of [train_model]; its value is [loss.item()]. *)
Definition train_step (w : world) (b : batch) : result (R * world) :=
  let '(input, target) := b in
  let w1 := mkWorld (w_model w) (optimizer_zero_grad (w_grads w)) (w_optim w)
              (w_rng w) (w_grad_enabled w) (w_graphs w) (w_stdout w) in
  '(outputs, w2) <- call_model w1 input ;;
  loss <- criterion outputs target ;;
  grads <- loss_backward loss (w_model w2) (w_grads w2) ;;
  '(o', m') <- optimizer_step (w_optim w2) (w_model w2) grads ;;
  Ok (loss_item loss,
      mkWorld m' grads o' (w_rng w2) (w_grad_enabled w2) (w_graphs w2) (w_stdout w2)).

Fixpoint train_loop (bs : list batch) (w : world) (train_loss : R)
  : result (R * world) :=
  match bs with
  | [] => Ok (train_loss, w)
  | b :: bs' =>
      '(l, w') <- train_step w b ;;
      train_loop bs' w' (train_loss + l)%R
  end.

Definition train_model (w : world) (train_loader : DataLoader) (epoch : Z)
  : result (R * world) :=
  let w0 := set_model (model_train cls (w_model w)) w in
  '(train_loss, w1) <- train_loop (batches train_loader) w0 0%R ;;
  if (len train_loader =? 0)%nat then Err ZeroDivisionError
  else
    let train_loss := (train_loss / INR (len train_loader))%R in
    Ok (train_loss, print (TrainingReport (epoch + 1) train_loss) w1).

(** The body of the loop of [test_model]; its value is the increment of
    [correct]. *)
Definition test_step (w : world) (b : batch) : result (Z * world) :=
  let '(input, target) := b in
  '(output, w1) <- call_model w input ;;
  pred <- max_dim1 output ;;
  target' <- view_as target pred ;;
  Ok (eq_sum_item pred target', w1).

Fixpoint test_loop (bs : list batch) (w : world) (correct : Z)
  : result (Z * world) :=
  match bs with
  | [] => Ok (correct, w)
  | b :: bs' =>
      '(k, w') <- test_step w b ;;
      test_loop bs' w' (correct + k)%Z
  end.

Definition test_model (w : world) (test_loader : DataLoader) (epoch : Z)
  : result (Q * world) :=
  let w0 := set_model (model_eval cls (w_model w)) w in
  (* with torch.no_grad(): *)
  let saved := w_grad_enabled w0 in
  '(correct, w1) <- test_loop (batches test_loader) (set_grad_enabled false w0) 0%Z ;;
  let w2 := set_grad_enabled saved w1 in
  if (dataset_len test_loader =? 0)%nat then Err ZeroDivisionError
  else
    let test_acc := Qmake correct (Pos.of_nat (dataset_len test_loader)) in
    Ok (test_acc, print (TestingReport (epoch + 1) (100 * test_acc)%Q) w2).

(** The per-batch loss values of one epoch of training, in order. *)
Fixpoint batch_losses (bs : list batch) (w : world) : result (list R * world) :=
  match bs with
  | [] => Ok ([], w)
  | b :: bs' =>
      '(l, w1) <- train_step w b ;;
      '(ls, w2) <- batch_losses bs' w1 ;;
      Ok (l :: ls, w2)
  end.

(** The model's outputs over one epoch of evaluation, each with its labels. *)
Fixpoint eval_outputs (bs : list batch) (w : world)
  : result (list (tensor R * tensor Z) * world) :=
  match bs with
  | [] => Ok ([], w)
  | (input, target) :: bs' =>
      '(out, w1) <- call_model w input ;;
      '(os, w2) <- eval_outputs bs' w1 ;;
      Ok ((out, target) :: os, w2)
  end.

End Loops.

(** ** Notions of the specification *)

(** A module without its parameters. *)
Inductive kind : Set :=
| KFlatten
| KLinear (in_features out_features : nat)
| KReLU
| KConv2d (in_channels out_channels kernel_size stride : nat)
| KBatchNorm2d (num_features : nat)
| KMaxPool2d (kernel_size stride : nat)
| KDropout.

Definition kind_of (m : module) : kind :=
  match m with
  | Flatten => KFlatten
  | Linear i o _ _ => KLinear i o
  | ReLU => KReLU
  | Conv2d cin cout k st _ _ => KConv2d cin cout k st
  | BatchNorm2d c _ _ _ _ _ => KBatchNorm2d c
  | MaxPool2d k st => KMaxPool2d k st
  | Dropout _ => KDropout
  end.

Definition architecture (self : net) : list kind := map kind_of (layers self).

(** The input width of the first dense layer of a stack. *)
Fixpoint first_dense_width (ks : list kind) : option nat :=
  match ks with
  | [] => None
  | KLinear i _ :: _ => Some i
  | _ :: ks' => first_dense_width ks'
  end.

(** An extent after a 3x3 convolution, a halving, a second 3x3 convolution
    and a second halving. *)
Definition spatially_reduced (h : nat) : nat := (((h - 2) / 2 - 2) / 2)%nat.

(** The analytic flattened feature size: 32 output channels times the reduced
    height times the reduced width. *)
Definition flattened_feature_size (h w : nat) : nat :=
  (32 * spatially_reduced h * spatially_reduced w)%nat.

(** The arithmetic mean of a list of scalars. *)
Definition mean (ls : list R) : R :=
  (fold_right Rplus 0 ls / INR (length ls))%R.

(** The predicted class of example [i] of a [b; c] score matrix. *)
Definition predicted_class (out : tensor R) (i : nat) : Z :=
  match shape out with
  | [_; c] => Z.of_nat (argmax (c - 1) (fun k => get out (i * c + k)))
  | _ => 0%Z
  end.

(** The examples of one batch whose predicted class is their label. *)
Definition num_correct (ot : tensor R * tensor Z) : Z :=
  let (out, target) := ot in
  count_upto (hd 0%nat (shape out)) (fun i => (predicted_class out i =? data target i)%Z).

Definition total_correct (ots : list (tensor R * tensor Z)) : Z :=
  fold_right (fun ot acc => (num_correct ot + acc)%Z) 0%Z ots.

Definition total_samples (ots : list (tensor R * tensor Z)) : nat :=
  fold_right (fun ot acc => (hd 0%nat (shape (fst ot)) + acc)%nat) 0%nat ots.

(** A score matrix with one row of labels per example. *)
Definition scores_and_labels (ot : tensor R * tensor Z) : Prop :=
  exists b c, shape (fst ot) = [b; c] /\ (0 < c)%nat /\ numel (shape (snd ot)) = b.

(** The sum of the scores of example [i] (at inner position [r]) over the
    class dimension of a [b :: c :: rest] tensor. *)
Definition class_sum (y : tensor R) (i r : nat) : R :=
  match shape y with
  | _ :: c :: rest => big_sum c (fun k => get y ((i * c + k) * numel rest + r))
  | _ => 0%R
  end.

(** A classifier whose forward pass returns the raw logits in either mode. *)
Definition forward_logits (self : net) (x : tensor R) (g : rng)
  : result (tensor R * net * rng) :=
  '(out, ls, g') <- Sequential_forward (training self) (layers self) x g ;;
  Ok (out, mkNet (training self) ls, g').

Definition LogitsNet : Classifier net :=
  mkClassifier module_train module_eval forward_logits.

(** The shape rule of a module depends on its kind alone. *)
Definition kind_shape (train : bool) (k : kind) (s : list nat) : result (list nat) :=
  match k with
  | KFlatten => flatten_shape s
  | KLinear i o => linear_shape i o s
  | KReLU => Ok s
  | KConv2d cin cout ks st => conv2d_shape cin cout ks st s
  | KBatchNorm2d c => batch_norm2d_shape train c s
  | KMaxPool2d ks st => max_pool2d_shape ks st s
  | KDropout => Ok s
  end.

Fixpoint arch_shape (train : bool) (ks : list kind) (s : list nat) : result (list nat) :=
  match ks with
  | [] => Ok s
  | k :: ks' => s' <- kind_shape train k s ;; arch_shape train ks' s'
  end.

(** The architectures the two constructors build. *)
Definition SimpleFCNet_architecture (num_classes : nat) : list kind :=
  [KFlatten; KLinear 784 128; KReLU; KLinear 128 64; KReLU; KLinear 64 num_classes].

Definition SimpleConvNet_features : list kind :=
  [KConv2d 3 16 3 1; KBatchNorm2d 16; KReLU; KMaxPool2d 2 2;
   KConv2d 16 32 3 1; KBatchNorm2d 32; KReLU; KMaxPool2d 2 2;
   KFlatten].

Definition SimpleConvNet_architecture (num_classes : nat) : list kind :=
  SimpleConvNet_features ++
  [KLinear 1152 256; KReLU; KLinear 256 128; KReLU; KLinear 128 num_classes; KDropout].

(** The shape of the tensor a forward pass returns, or its exception. *)
Definition output_shape (r : result (tensor R * net * rng)) : result (list nat) :=
  rmap (fun t => shape (fst (fst t))) r.

(** A generator used in the examples: every sample is one half. *)
Definition seed0 : rng := mkRng (fun _ => (1 / 2)%R) 0.

(** The generator [g] advanced by [k] samples. *)
Definition skip (g : rng) (k : nat) : rng := mkRng (stream g) (pos g + k).

(** Glorot's bound for a layer of [i] inputs and [o] outputs. *)
Definition glorot_bound (i o : nat) : R := sqrt (6 / INR (i + o)).

(** [w] is an [o] by [i] matrix whose entries are the samples of [g] from
    position [p] on, mapped to the interval from [- glorot_bound] to
    [glorot_bound]. *)
Definition xavier_initialised (i o : nat) (w : tensor R) (g : rng) (p : nat) : Prop :=
  shape w = [o; i] /\
  forall k, (k < o * i)%nat ->
    data w k = (- glorot_bound i o
                + stream g (p + k) * (glorot_bound i o - - glorot_bound i o))%R.

Definition zeros (n : nat) : tensor R := mkTensor [n] (fun _ => 0%R).

(** The samples drawn while [SimpleFCNet.__init__] builds its layer stack. *)
Definition SimpleFCNet_build_draws (n : nat) : nat :=
  ((128 * 784 + 128) + (64 * 128 + 64) + (n * 64 + n))%nat.

(** ** Further notions *)

(** The world with the gradients replaced. *)
Definition set_grads {M G Opt : Type} (grads : G) (w : world M G Opt) : world M G Opt :=
  mkWorld (w_model w) grads (w_optim w) (w_rng w) (w_grad_enabled w)
    (w_graphs w) (w_stdout w).

(** The world with the generator replaced. *)
Definition set_rng {M G Opt : Type} (g : rng) (w : world M G Opt) : world M G Opt :=
  mkWorld (w_model w) (w_grads w) (w_optim w) g (w_grad_enabled w)
    (w_graphs w) (w_stdout w).

(** Two worlds that differ at most in the state of the generator and in what
    was printed. *)
Definition same_learning_state {M G Opt : Type} (a b : world M G Opt) : Prop :=
  w_model a = w_model b /\ w_grads a = w_grads b /\ w_optim a = w_optim b /\
  w_grad_enabled a = w_grad_enabled b /\ w_graphs a = w_graphs b.

(** The trainable parameters of a module, and of a classifier
    ([nn.Module.parameters()]). *)
Definition parameters (m : module) : list (tensor R) :=
  match m with
  | Linear _ _ w b => w :: match b with Some b' => [b'] | None => [] end
  | Conv2d _ _ _ _ w b => [w; b]
  | BatchNorm2d _ gamma beta _ _ _ => [gamma; beta]
  | _ => []
  end.

Definition net_parameters (self : net) : list (tensor R) :=
  flat_map parameters (layers self).

(** The modules whose forward pass is the same in both modes. *)
Definition mode_free (k : kind) : bool :=
  match k with
  | KFlatten | KLinear _ _ | KReLU | KConv2d _ _ _ _ | KMaxPool2d _ _ => true
  | KBatchNorm2d _ | KDropout => false
  end.

(** [x'] is [x] with every entry multiplied by [c]. *)
Definition scaled (c : R) (x x' : tensor R) : Prop :=
  shape x' = shape x /\ forall q : nat, get x' q = (c * get x q)%R.

(** Modules without an additive term: flattening, the rectifier, and a dense
    layer whose bias is absent or zero. *)
Definition bias_free (m : module) : Prop :=
  match m with
  | Flatten | ReLU => True
  | Linear _ _ _ None => True
  | Linear _ _ _ (Some b) => forall k : nat, get b k = 0%R
  | _ => False
  end.

(** An output whose predictions can be compared with its labels: it has a
    class dimension that is not empty, and there is one label per prediction. *)
Definition comparable (ot : tensor R * tensor Z) : Prop :=
  exists b c rest,
    shape (fst ot) = b :: c :: rest /\ c <> 0%nat /\
    numel (shape (snd ot)) = (b * numel rest)%nat.

(** ** Single precision

    Where rounding decides a result (the class that is read off a softmax),
    the scalars are those of binary32, torch's default type: 24 significant
    bits, the last bit at 2^-149 or above, every operation rounded to the
    nearest representable value, ties to the even significand.  The range is
    not bounded above (there is no infinity): no value of a softmax comes
    near the overflow threshold.  The exponential is taken correctly rounded,
    as the other operations are. *)

(** The largest integer not above [x]. *)
Definition Zfloor (x : R) : Z := (up x - 1)%Z.

(** The nearest integer, the even one of two equally near. *)
Definition Znearest_even (x : R) : Z :=
  let f := Zfloor x in
  if Rlt_dec (x - IZR f) (1 / 2) then f
  else if Rlt_dec (1 / 2) (x - IZR f) then (f + 1)%Z
  else if Z.even f then f else (f + 1)%Z.

(** The exponent [e] with [2^(e-1) <= |x| < 2^e], for [x <> 0]. *)
Definition mag2 (x : R) : Z := (Zfloor (ln (Rabs x) / ln 2) + 1)%Z.

(** The exponent of the last bit of the binary32 values around [x]. *)
Definition binary32_exp (x : R) : Z := Z.max (mag2 x - 24) (-149).

(** The binary32 value nearest to [x]. *)
Definition round32 (x : R) : R :=
  let e := binary32_exp x in
  (IZR (Znearest_even (x * powerRZ 2 (- e))) * powerRZ 2 e)%R.

(** A sum accumulated in single precision, in index order. *)
Fixpoint big_fsum (n : nat) (f : nat -> R) : R :=
  match n with
  | O => 0%R
  | S n' => round32 (big_fsum n' f + f n')
  end.

(** Softmax of the [c] scores [f 0 .. f (c - 1)] as torch's kernel computes
    it: the largest score is subtracted from each, the exponentials are
    summed, and each is multiplied by the reciprocal of the sum. *)
Definition softmax32_row (c : nat) (f : nat -> R) : nat -> R :=
  let m := big_max (c - 1) f in
  let e := fun k => round32 (exp (round32 (f k - m))) in
  let r := round32 (1 / big_fsum c e) in
  fun k => round32 (e k * r).

(** [F.softmax(x, dim = 1)] on a tensor of shape [b :: c :: rest], in single
    precision. *)
Definition softmax32_data (x : tensor R) : nat -> R :=
  fun p =>
    match shape x with
    | _ :: c :: rest =>
        let inner := numel rest in
        let r := (p mod inner)%nat in
        let i := (p / (c * inner))%nat in
        let k := ((p / inner) mod c)%nat in
        softmax32_row c (fun k' => get x ((i * c + k') * inner + r)) k
    | _ => 0%R
    end.

Definition softmax32 (x : tensor R) : result (tensor R) :=
  s <- softmax_shape (shape x) ;;
  Ok (mkTensor s (softmax32_data x)).

(** [forward] of either classifier with the softmax of inference mode in
    single precision. *)
Definition forward32 (self : net) (x : tensor R) (g : rng)
  : result (tensor R * net * rng) :=
  '(out, ls, g') <- Sequential_forward (training self) (layers self) x g ;;
  if training self then Ok (out, mkNet (training self) ls, g')
  else
    out' <- softmax32 out ;;
    Ok (out', mkNet (training self) ls, g').

Definition Float32Net : Classifier net :=
  mkClassifier module_train module_eval forward32.

(** A score tensor in which, at every position, the largest score gets a
    larger probability than every class before it. *)
Definition top_unshared (x : tensor R) : Prop :=
  match shape x with
  | b :: c :: rest =>
      forall i r : nat, (i < b)%nat -> (r < numel rest)%nat ->
        let row := fun k => get x ((i * c + k) * numel rest + r) in
        forall k : nat, (k < argmax (c - 1) row)%nat ->
          (softmax32_row c row k < softmax32_row c row (argmax (c - 1) row))%R
  | _ => True
  end.

(** ** Example data *)

Definition zero_input (s : list nat) : tensor R := mkTensor s (fun _ => 0%R).

Definition zero_labels (b : nat) : tensor Z := mkTensor [b] (fun _ => 0%Z).

(** Two batches of four 28 by 28 images. *)
Definition example_loader : DataLoader :=
  mkLoader [(zero_input [4; 28; 28]%nat, zero_labels 4);
            (zero_input [4; 28; 28]%nat, zero_labels 4)] 8.

(** One batch of four 32 by 32 images. *)
Definition mismatched_loader : DataLoader :=
  mkLoader [(zero_input [4; 32; 32]%nat, zero_labels 4)] 4.

(** A batch of four and a batch of two 28 by 28 images. *)
Definition uneven_loader : DataLoader :=
  mkLoader [(zero_input [4; 28; 28]%nat, zero_labels 4);
            (zero_input [2; 28; 28]%nat, zero_labels 2)] 6.

(** A dense classifier for two classes whose weights are all zero: on every
    input its logits are the bias of its last layer. *)
Definition zero_weight (o i : nat) : tensor R := mkTensor [o; i] (fun _ => 0%R).

Definition constant_classifier (bias : nat -> R) : net :=
  mkNet false
    [Flatten;
     Linear 784 128 (zero_weight 128 784) (Some (zeros 128)); ReLU;
     Linear 128 64 (zero_weight 64 128) (Some (zeros 64)); ReLU;
     Linear 64 2 (zero_weight 2 64) (Some (mkTensor [2]%nat bias))].

(** The scores 0 and the binary32 value nearest to 1e-10; the scores 0 and 2. *)
Definition tiny_gap (k : nat) : R :=
  match k with O => 0%R | _ => round32 (1 / 10 ^ 10) end.

Definition wide_gap (k : nat) : R :=
  match k with O => 0%R | _ => 2%R end.

(** One batch of one 28 by 28 image, labelled with class 1. *)
Definition one_label_loader : DataLoader :=
  mkLoader [(zero_input [1; 28; 28]%nat, mkTensor [1]%nat (fun _ => 1%Z))] 1.

(** A loss that reads the first score, and an optimizer without state that
    leaves the parameters where they are. *)
Definition example_criterion (outputs : tensor R) (target : tensor Z) : result R :=
  Ok (get outputs 0).

Definition example_backward (loss : R) (m : net) (grads : unit) : result unit := Ok tt.

Definition example_step (o : unit) (m : net) (grads : unit) : result (unit * net) :=
  Ok (o, m).

Definition example_world (self : net) : world net unit unit :=
  mkWorld self tt tt seed0 true 0 [].

Unset Implicit Arguments.

(** * Properties *)

(** ** Evaluations on concrete inputs *)

Example fc_dim_32 : fc_dim (32, 32)%Z = 400%Z.
Proof. reflexivity. Qed.

Example fc_dim_28 : fc_dim (28, 28)%Z = 256%Z.
Proof. reflexivity. Qed.

Example flattened_feature_size_32 : flattened_feature_size 32 32 = 1152%nat.
Proof. vm_compute. reflexivity. Qed.

Example flattened_feature_size_30_33 : flattened_feature_size 30 33 = 1152%nat.
Proof. vm_compute. reflexivity. Qed.

Example conv_shape_32 :
  arch_shape true (SimpleConvNet_architecture 100) [4; 3; 32; 32]%nat = Ok [4; 100]%nat.
Proof. vm_compute. reflexivity. Qed.

Example conv_shape_28 :
  arch_shape true (SimpleConvNet_architecture 100) [4; 3; 28; 28]%nat = Err RuntimeError.
Proof. vm_compute. reflexivity. Qed.

Example conv_shape_grey :
  arch_shape true (SimpleConvNet_architecture 100) [4; 1; 32; 32]%nat = Err RuntimeError.
Proof. vm_compute. reflexivity. Qed.

Example dense_shape_28 :
  arch_shape false (SimpleFCNet_architecture 10) [4; 28; 28]%nat = Ok [4; 10]%nat.
Proof. vm_compute. reflexivity. Qed.

Example dense_shape_channel :
  arch_shape false (SimpleFCNet_architecture 10) [4; 1; 28; 28]%nat = Ok [4; 10]%nat.
Proof. vm_compute. reflexivity. Qed.

Example dense_shape_vector :
  arch_shape false (SimpleFCNet_architecture 10) [784]%nat = Err IndexError.
Proof. vm_compute. reflexivity. Qed.

Example batch_norm_single_value :
  batch_norm2d_shape true 3 [1; 3; 1; 1]%nat = Err ValueError /\
  batch_norm2d_shape false 3 [1; 3; 1; 1]%nat = Ok [1; 3; 1; 1]%nat.
Proof. split; reflexivity. Qed.

Example count_upto_4 : count_upto 4 (fun i => (i <? 2)%nat) = 2%Z.
Proof. reflexivity. Qed.

Example mean_1_3 : mean [1; 3]%R = 2%R.
Proof. unfold mean. cbn [fold_right length INR]. lra. Qed.

(** The first of two equal maxima is the one returned. *)
Example argmax_tie :
  argmax 2 (fun k => match k with 0%nat => 0 | _ => 5 end)%R = 1%nat.
Proof.
  cbn [argmax].
  destruct (Rlt_dec 0 5) as [_|H]; [|exfalso; lra].
  destruct (Rlt_dec 5 5) as [H|_]; [exfalso; lra|reflexivity].
Qed.

(** In training mode dropout depends on the generator: an entry 1 survives,
    rescaled, under a sample of one half, and is dropped under a sample of
    nine tenths. *)
Example dropout_training_samples :
  let x := mkTensor [1; 1]%nat (fun _ => 1%R) in
  let kept := mkRng (fun _ => (1 / 2)%R) 0 in
  let dropped := mkRng (fun _ => (9 / 10)%R) 0 in
  dropout_data (2 / 10) kept x 0%nat = (1 / (1 - 2 / 10))%R /\
  dropout_data (2 / 10) dropped x 0%nat = 0%R.
Proof.
  cbv zeta. unfold dropout_data, get. cbn [stream pos data]. split.
  - destruct (Rlt_dec (1 / 2) (1 - 2 / 10)) as [_|H]; [reflexivity|exfalso; lra].
  - destruct (Rlt_dec (9 / 10) (1 - 2 / 10)) as [H|_]; [exfalso; lra|reflexivity].
Qed.

(** ** Results, shapes and architectures *)

Lemma bind_ok {A B} (m : result A) (k : A -> result B) b :
  bind m k = Ok b -> exists a, m = Ok a /\ k a = Ok b.
Proof. destruct m as [a|e]; simpl; intros H; [eauto | discriminate]. Qed.

Lemma module_forward_shape train m x g :
  rmap (fun r => shape (fst (fst r))) (module_forward train m x g)
  = module_shape train m (shape x).
Proof.
  unfold module_forward.
  destruct (module_shape train m (shape x)) as [s|e] eqn:E; simpl; [|reflexivity].
  destruct m; simpl; try reflexivity.
  destruct train; simpl; [reflexivity|].
  simpl in E. congruence.
Qed.

Lemma module_forward_kind train m x g y m' g' :
  module_forward train m x g = Ok (y, m', g') -> kind_of m' = kind_of m.
Proof.
  unfold module_forward.
  destruct (module_shape train m (shape x)) as [s|e]; simpl; [|discriminate].
  destruct m; simpl; intros H; try (inversion H; subst; reflexivity).
  - destruct train; inversion H; subst; [|reflexivity].
    unfold batch_norm2d_update.
    destruct (shape x) as [|? [|? [|? [|? [|? ?]]]]]; reflexivity.
  - destruct train; inversion H; subst; reflexivity.
Qed.

Lemma Sequential_forward_shape train ms : forall x g,
  rmap (fun r => shape (fst (fst r))) (Sequential_forward train ms x g)
  = Sequential_shape train ms (shape x).
Proof.
  induction ms as [|m ms IH]; intros x g; simpl; [reflexivity|].
  pose proof (module_forward_shape train m x g) as Hm.
  destruct (module_forward train m x g) as [[[y m'] g1]|e]; simpl in *.
  - rewrite <- Hm. simpl. rewrite <- (IH y g1).
    destruct (Sequential_forward train ms y g1) as [[[z ms'] g2]|e]; reflexivity.
  - rewrite <- Hm. reflexivity.
Qed.
Lemma module_shape_kind train m s :
  module_shape train m s = kind_shape train (kind_of m) s.
Proof. destruct m; reflexivity. Qed.

Lemma Sequential_shape_arch train ms : forall s,
  Sequential_shape train ms s = arch_shape train (map kind_of ms) s.
Proof.
  induction ms as [|m ms IH]; intros s; simpl; [reflexivity|].
  rewrite module_shape_kind.
  destruct (kind_shape train (kind_of m) s); simpl; auto.
Qed.

Lemma arch_shape_app train ks1 : forall ks2 s,
  arch_shape train (ks1 ++ ks2) s
  = bind (arch_shape train ks1 s) (arch_shape train ks2).
Proof.
  induction ks1 as [|k ks1 IH]; intros ks2 s; simpl; [reflexivity|].
  destruct (kind_shape train k s); simpl; auto.
Qed.

Lemma nn_Linear_ok i o g :
  (0 <= i)%Z -> (0 <= o)%Z ->
  exists w b g',
    nn_Linear i o g = Ok (Linear (Z.to_nat i) (Z.to_nat o) w (Some b), g')
    /\ shape w = [Z.to_nat o; Z.to_nat i].
Proof.
  intros Hi Ho. unfold nn_Linear.
  destruct (Z.ltb_spec i 0); [lia|]. destruct (Z.ltb_spec o 0); [lia|]. simpl orb. cbv iota.
  unfold kaiming_uniform_.
  destruct (has_zero_dim [Z.to_nat o; Z.to_nat i]); simpl; eauto.
Qed.

Lemma nn_Linear_neg i o g :
  (o < 0)%Z -> nn_Linear i o g = Err RuntimeError.
Proof.
  intros Ho. unfold nn_Linear.
  destruct (Z.ltb_spec o 0); [|lia]. rewrite orb_true_r. reflexivity.
Qed.

Lemma nn_Linear_no_config i o g : nn_Linear i o g <> Err ConfigurationError.
Proof.
  unfold nn_Linear. destruct ((i <? 0)%Z || (o <? 0)%Z); [discriminate|].
  destruct (kaiming_uniform_ _ _ g) as [w g1]. simpl. discriminate.
Qed.

Lemma SimpleConvNet_init_ok input_shape num_classes g :
  (0 <= num_classes)%Z ->
  exists self g',
    SimpleConvNet_init input_shape num_classes g = Ok (self, g')
    /\ training self = true
    /\ architecture self = SimpleConvNet_architecture (Z.to_nat num_classes).
Proof.
  intros Hnc. unfold SimpleConvNet_init.
  destruct (nn_Conv2d 3 16 3 1 g) as [conv1 g1] eqn:E1.
  destruct (nn_Conv2d 16 32 3 1 g1) as [conv2 g2] eqn:E2.
  destruct (nn_Linear_ok 1152 256 g2) as (w1 & b1 & g3 & -> & _); [lia|lia|]; cbn [bind].
  destruct (nn_Linear_ok 256 128 g3) as (w2 & b2 & g4 & -> & _); [lia|lia|]; cbn [bind].
  destruct (nn_Linear_ok 128 num_classes g4) as (w3 & b3 & g5 & -> & _); [lia|lia|]; cbn [bind].
  eexists; eexists; split; [reflexivity|]. split; [reflexivity|].
  unfold nn_Conv2d in E1, E2.
  destruct (kaiming_uniform_ [16; 3; 3; 3]%nat _ g) as [cw1 ?].
  destruct (kaiming_uniform_ [32; 16; 3; 3]%nat _ g1) as [cw2 ?].
  simpl in E1, E2. inversion E1; inversion E2; subst.
  reflexivity.
Qed.

(** *** Arithmetic of the window extents *)

Lemma window_out_conv3 h : (3 <= h)%nat -> window_out h 3 1 = (h - 2)%nat.
Proof. intros H. unfold window_out. rewrite Nat.div_1_r. lia. Qed.

Lemma window_out_pool2 h : (2 <= h)%nat -> window_out h 2 2 = (h / 2)%nat.
Proof.
  intros H. unfold window_out.
  replace h with ((h - 2) + 1 * 2)%nat at 2 by lia.
  rewrite Nat.div_add by lia. reflexivity.
Qed.

Lemma mul_ne_1 b x : (2 <= x)%nat -> (b * x =? 1)%nat = false.
Proof. intros H. apply Nat.eqb_neq. destruct b; simpl; lia. Qed.

Lemma mul_ge_2 x y : (2 <= x)%nat -> (1 <= y)%nat -> (2 <= x * y)%nat.
Proof. intros Hx Hy. nia. Qed.

Lemma spatially_reduced_pos h : (10 <= h)%nat -> (1 <= spatially_reduced h)%nat.
Proof.
  intros H. unfold spatially_reduced.
  assert (4 <= (h - 2) / 2)%nat by (apply Nat.div_le_lower_bound; lia).
  apply Nat.div_le_lower_bound; lia.
Qed.

Lemma SimpleConvNet_features_shape train b h w :
  (10 <= h)%nat -> (10 <= w)%nat ->
  arch_shape train SimpleConvNet_features [b; 3; h; w]%nat
  = Ok [b; flattened_feature_size h w].
Proof.
  intros Hh Hw.
  assert (Hh2 : (4 <= (h - 2) / 2)%nat) by (apply Nat.div_le_lower_bound; lia).
  assert (Hw2 : (4 <= (w - 2) / 2)%nat) by (apply Nat.div_le_lower_bound; lia).
  unfold SimpleConvNet_features. cbn [arch_shape kind_shape].
  unfold conv2d_shape at 1.
  replace (3 <=? h)%nat with true by (symmetry; apply Nat.leb_le; lia).
  replace (3 <=? w)%nat with true by (symmetry; apply Nat.leb_le; lia).
  cbn [Nat.eqb Nat.leb andb bind].
  rewrite !window_out_conv3 by lia.
  unfold batch_norm2d_shape at 1.
  rewrite mul_ne_1 by (apply mul_ge_2; lia).
  rewrite andb_false_r. cbn [Nat.eqb bind].
  unfold max_pool2d_shape at 1.
  replace (2 <=? h - 2)%nat with true by (symmetry; apply Nat.leb_le; lia).
  replace (2 <=? w - 2)%nat with true by (symmetry; apply Nat.leb_le; lia).
  cbn [Nat.leb andb bind].
  rewrite !window_out_pool2 by lia.
  unfold conv2d_shape at 1.
  replace (3 <=? (h - 2) / 2)%nat with true by (symmetry; apply Nat.leb_le; lia).
  replace (3 <=? (w - 2) / 2)%nat with true by (symmetry; apply Nat.leb_le; lia).
  cbn [Nat.eqb Nat.leb andb bind].
  rewrite !window_out_conv3 by lia.
  unfold batch_norm2d_shape at 1.
  rewrite mul_ne_1 by (apply mul_ge_2; lia).
  rewrite andb_false_r. cbn [Nat.eqb bind].
  unfold max_pool2d_shape at 1.
  replace (2 <=? (h - 2) / 2 - 2)%nat with true by (symmetry; apply Nat.leb_le; lia).
  replace (2 <=? (w - 2) / 2 - 2)%nat with true by (symmetry; apply Nat.leb_le; lia).
  cbn [Nat.leb andb bind].
  rewrite !window_out_pool2 by lia.
  unfold flatten_shape, flattened_feature_size, spatially_reduced, numel.
  cbn [fold_right].
  cbn [bind].
  match goal with |- Ok [b; ?x] = Ok [b; ?y] => replace x with y by ring end.
  reflexivity.
Qed.

Lemma SimpleConvNet_arch_shape train nc b h w :
  (10 <= h)%nat -> (10 <= w)%nat ->
  arch_shape train (SimpleConvNet_architecture nc) [b; 3; h; w]%nat
  = if (flattened_feature_size h w =? 1152)%nat then Ok [b; nc] else Err RuntimeError.
Proof.
  intros Hh Hw. unfold SimpleConvNet_architecture.
  rewrite arch_shape_app, SimpleConvNet_features_shape by assumption.
  cbn [bind arch_shape kind_shape].
  unfold linear_shape at 1. cbn [rev app].
  destruct (flattened_feature_size h w =? 1152)%nat; [|reflexivity].
  cbn [bind]. unfold linear_shape. cbn [rev app].
  rewrite !Nat.eqb_refl. reflexivity.
Qed.

Lemma SimpleFCNet_arch_shape train nc b h w :
  arch_shape train (SimpleFCNet_architecture nc) [b; h; w]%nat
  = if (h * w =? 784)%nat then Ok [b; nc] else Err RuntimeError.
Proof.
  unfold SimpleFCNet_architecture. cbn [arch_shape kind_shape flatten_shape bind].
  unfold linear_shape at 1. cbn [rev app].
  replace (numel [h; w]) with (h * w)%nat by (unfold numel; cbn [fold_right]; ring).
  destruct (h * w =? 784)%nat; [|reflexivity].
  cbn [bind]. unfold linear_shape. cbn [rev app].
  rewrite !Nat.eqb_refl. reflexivity.
Qed.

Lemma forward_shape_arch self s :
  forward_shape self s
  = bind (arch_shape (training self) (architecture self) s)
         (fun s' => if training self then Ok s' else softmax_shape s').
Proof. unfold forward_shape, architecture. rewrite Sequential_shape_arch. reflexivity. Qed.

(** ** Initialisation of the dense layers *)

Lemma has_zero_dim_numel s : has_zero_dim s = true -> numel s = 0%nat.
Proof.
  induction s as [|d s IH]; simpl; [discriminate|].
  destruct d; simpl; [reflexivity|]. intros H. rewrite IH by assumption. lia.
Qed.

Lemma numel_2 a b : numel [a; b] = (a * b)%nat.
Proof. unfold numel. cbn [fold_right]. ring. Qed.

Lemma numel_1 a : numel [a] = a.
Proof. unfold numel. cbn [fold_right]. ring. Qed.

Lemma nn_Linear_inv i o g m g' :
  nn_Linear i o g = Ok (m, g') ->
  (0 <= i)%Z /\ (0 <= o)%Z /\
  stream g' = stream g /\
  pos g' = (pos g + (Z.to_nat o * Z.to_nat i + Z.to_nat o))%nat /\
  exists w b, m = Linear (Z.to_nat i) (Z.to_nat o) w (Some b)
              /\ shape w = [Z.to_nat o; Z.to_nat i] /\ shape b = [Z.to_nat o].
Proof.
  unfold nn_Linear.
  destruct (Z.ltb_spec i 0); [discriminate|]. destruct (Z.ltb_spec o 0); [discriminate|].
  cbn [orb]. unfold kaiming_uniform_.
  destruct (has_zero_dim [Z.to_nat o; Z.to_nat i]) eqn:Hz.
  - apply has_zero_dim_numel in Hz. rewrite numel_2 in Hz.
    unfold uniform_. intros H1. inversion H1; subst; clear H1. cbn [stream pos].
    repeat split; try lia. eauto.
  - unfold uniform_. intros H1. inversion H1; subst; clear H1. cbn [stream pos].
    repeat split; try lia. eauto.
Qed.

Lemma xavier_bound_glorot i o :
  (0 < i + o)%nat -> xavier_bound i o = glorot_bound i o.
Proof.
  intros H. unfold xavier_bound, glorot_bound.
  assert (Hx : (0 < INR (i + o))%R) by (apply lt_0_INR; lia).
  rewrite Rmult_1_l, <- sqrt_mult.
  - f_equal. field. lra.
  - lra.
  - apply Rlt_le. apply Rdiv_lt_0_compat; lra.
Qed.

Lemma reset_module_Linear i o w b g :
  shape w = [o; i] -> shape b = [o] -> (0 < i)%nat ->
  exists w',
    reset_module (Linear i o w (Some b)) g
    = Ok (Linear i o w' (Some (zeros o)), skip g (o * i))
    /\ xavier_initialised i o w' g (pos g).
Proof.
  intros Hw Hb Hi. unfold reset_module, xavier_uniform_. rewrite Hw.
  replace (i * numel [])%nat with i by (unfold numel; cbn [fold_right]; lia).
  replace (o * numel [])%nat with o by (unfold numel; cbn [fold_right]; lia).
  replace (i + o =? 0)%nat with false by (symmetry; apply Nat.eqb_neq; lia).
  eexists. cbn [bind option_map]. unfold uniform_, constant_, zeros.
  rewrite Hb, numel_2. split; [reflexivity|].
  split; [reflexivity|]. intros k Hk. cbn [data].
  rewrite xavier_bound_glorot by lia. reflexivity.
Qed.

Lemma Ok_pair_inj {A B : Type} (a a' : A) (b b' : B) :
  Ok (a, b) = Ok (a', b') -> a = a' /\ b = b'.
Proof. intros H. inversion H. split; reflexivity. Qed.

Lemma rng_eta g : g = mkRng (stream g) (pos g).
Proof. destruct g; reflexivity. Qed.

Lemma rng_ext g1 g2 : stream g1 = stream g2 -> pos g1 = pos g2 -> g1 = g2.
Proof. destruct g1, g2; simpl; intros; subst; reflexivity. Qed.

Lemma xavier_initialised_stream i o w g1 g2 p :
  stream g1 = stream g2 -> xavier_initialised i o w g1 p -> xavier_initialised i o w g2 p.
Proof. unfold xavier_initialised. intros <-. auto. Qed.

Lemma SimpleFCNet_init_inv input_shape num_classes g self g' :
  SimpleFCNet_init input_shape num_classes g = Ok (self, g') ->
  (0 <= num_classes)%Z /\
  training self = true /\
  exists w1 w2 w3,
    layers self =
      [Flatten; Linear 784 128 w1 (Some (zeros 128)); ReLU;
       Linear 128 64 w2 (Some (zeros 64)); ReLU;
       Linear 64 (Z.to_nat num_classes) w3 (Some (zeros (Z.to_nat num_classes)))]
    /\ xavier_initialised 784 128 w1 g
         (pos g + SimpleFCNet_build_draws (Z.to_nat num_classes))
    /\ xavier_initialised 128 64 w2 g
         (pos g + SimpleFCNet_build_draws (Z.to_nat num_classes) + 128 * 784)
    /\ xavier_initialised 64 (Z.to_nat num_classes) w3 g
         (pos g + SimpleFCNet_build_draws (Z.to_nat num_classes) + 128 * 784 + 64 * 128)
    /\ g' = skip g (SimpleFCNet_build_draws (Z.to_nat num_classes)
                    + (128 * 784 + 64 * 128 + Z.to_nat num_classes * 64)).
Proof.
  unfold SimpleFCNet_init. intros H.
  apply bind_ok in H. destruct H as ([fc1 g1] & H1 & H).
  apply bind_ok in H. destruct H as ([fc2 g2] & H2 & H).
  apply bind_ok in H. destruct H as ([fc3 g3] & H3 & H).
  apply nn_Linear_inv in H1. destruct H1 as (_ & _ & Hs1 & Hp1 & a1 & c1 & -> & Ha1 & Hc1).
  apply nn_Linear_inv in H2. destruct H2 as (_ & _ & Hs2 & Hp2 & a2 & c2 & -> & Ha2 & Hc2).
  apply nn_Linear_inv in H3. destruct H3 as (_ & Hn & Hs3 & Hp3 & a3 & c3 & -> & Ha3 & Hc3).
  change (Z.to_nat 784) with 784%nat in *. change (Z.to_nat 128) with 128%nat in *.
  change (Z.to_nat 64) with 64%nat in *.
  set (n := Z.to_nat num_classes) in *.
  cbn [reset_params] in H.
  change (reset_module Flatten g3) with (Ok (Flatten, g3)) in H.
  change (reset_module ReLU) with (fun g : rng => Ok (ReLU, g)) in H.
  cbn [bind] in H.
  destruct (reset_module_Linear 784 128 a1 c1 g3 Ha1 Hc1) as (w1 & E1 & X1); [lia|].
  rewrite E1 in H. cbn [bind] in H.
  destruct (reset_module_Linear 128 64 a2 c2 (skip g3 (128 * 784)) Ha2 Hc2) as (w2 & E2 & X2);
    [lia|].
  rewrite E2 in H. cbn [bind] in H.
  destruct (reset_module_Linear 64 n a3 c3 (skip (skip g3 (128 * 784)) (64 * 128)) Ha3 Hc3)
    as (w3 & E3 & X3); [lia|].
  rewrite E3 in H. cbn [bind] in H.
  apply Ok_pair_inj in H. destruct H as [Hself Hg']. subst self g'.
  assert (Hs : stream g3 = stream g) by (rewrite Hs3, Hs2; exact Hs1).
  assert (Hp : pos g3 = (pos g + SimpleFCNet_build_draws n)%nat).
  { unfold SimpleFCNet_build_draws. rewrite Hp3, Hp2, Hp1. lia. }
  split; [assumption|]. split; [reflexivity|].
  exists w1, w2, w3. cbn [layers].
  split; [reflexivity|].
  split; [rewrite <- Hp; eapply xavier_initialised_stream; eauto|].
  split.
  { apply xavier_initialised_stream with (g1 := skip g3 (128 * 784)); [exact Hs|].
    unfold skip in X2; cbn [pos] in X2. rewrite Hp in X2. exact X2. }
  split.
  { apply xavier_initialised_stream with (g1 := skip (skip g3 (128 * 784)) (64 * 128)); [exact Hs|].
    unfold skip in X3; cbn [pos] in X3. rewrite Hp in X3. exact X3. }
  apply rng_ext; unfold skip; cbn [stream pos]; [exact Hs|]. rewrite Hp. lia.
Qed.

(** ** The constructors *)

Lemma rmap_err {A B} (f : A -> B) (r : result A) e :
  rmap f r = Err e -> r = Err e.
Proof. destruct r; simpl; congruence. Qed.

Lemma softmax_shape_spec x : rmap (@shape R) (softmax x) = softmax_shape (shape x).
Proof. unfold softmax. destruct (softmax_shape (shape x)); reflexivity. Qed.

Lemma SimpleFCNet_forward_shape self x g :
  rmap (fun r => shape (fst (fst r))) (SimpleFCNet_forward self x g)
  = forward_shape self (shape x).
Proof.
  unfold SimpleFCNet_forward, forward_shape.
  rewrite <- Sequential_forward_shape with (g := g).
  destruct (Sequential_forward (training self) (layers self) x g) as [[[out ls] g']|e];
    cbn [bind rmap fst]; [|reflexivity].
  destruct (training self); [reflexivity|].
  rewrite <- softmax_shape_spec. destruct (softmax out); reflexivity.
Qed.

Lemma SimpleConvNet_forward_eq : SimpleConvNet_forward = SimpleFCNet_forward.
Proof. reflexivity. Qed.

Lemma SimpleFCNet_init_ok input_shape num_classes g :
  (0 <= num_classes)%Z ->
  exists self g', SimpleFCNet_init input_shape num_classes g = Ok (self, g').
Proof.
  intros Hn. unfold SimpleFCNet_init.
  destruct (nn_Linear_ok 784 128 g) as (a1 & c1 & g1 & E1 & Ha1); [lia|lia|].
  rewrite E1; cbn [bind].
  destruct (nn_Linear_ok 128 64 g1) as (a2 & c2 & g2 & E2 & Ha2); [lia|lia|].
  rewrite E2; cbn [bind].
  destruct (nn_Linear_ok 64 num_classes g2) as (a3 & c3 & g3 & E3 & Ha3); [lia|lia|].
  rewrite E3; cbn [bind].
  pose proof (nn_Linear_inv _ _ _ _ _ E1) as (_ & _ & _ & _ & a1' & c1' & I1 & _ & Hc1).
  pose proof (nn_Linear_inv _ _ _ _ _ E2) as (_ & _ & _ & _ & a2' & c2' & I2 & _ & Hc2).
  pose proof (nn_Linear_inv _ _ _ _ _ E3) as (_ & _ & _ & _ & a3' & c3' & I3 & _ & Hc3).
  injection I1 as <- <-. injection I2 as <- <-. injection I3 as <- <-.
  cbn [reset_params].
  change (reset_module Flatten g3) with (Ok (Flatten, g3)).
  change (reset_module ReLU) with (fun g : rng => Ok (ReLU, g)).
  cbn [bind].
  destruct (reset_module_Linear _ _ a1 c1 g3 Ha1 Hc1) as (w1 & -> & _); [lia|]. cbn [bind].
  destruct (reset_module_Linear _ _ a2 c2 (skip g3 (Z.to_nat 128 * Z.to_nat 784)) Ha2 Hc2)
    as (w2 & -> & _); [lia|]. cbn [bind].
  destruct (reset_module_Linear _ _ a3 c3
              (skip (skip g3 (Z.to_nat 128 * Z.to_nat 784)) (Z.to_nat 64 * Z.to_nat 128))
              Ha3 Hc3) as (w3 & -> & _); [lia|]. cbn [bind].
  eauto.
Qed.

Lemma SimpleFCNet_init_arch input_shape num_classes g self g' :
  SimpleFCNet_init input_shape num_classes g = Ok (self, g') ->
  architecture self = SimpleFCNet_architecture (Z.to_nat num_classes).
Proof.
  intros H. apply SimpleFCNet_init_inv in H.
  destruct H as (_ & _ & w1 & w2 & w3 & Hl & _).
  unfold architecture. rewrite Hl. reflexivity.
Qed.

Lemma SimpleConvNet_init_inv input_shape num_classes g self g' :
  SimpleConvNet_init input_shape num_classes g = Ok (self, g') ->
  (0 <= num_classes)%Z /\ training self = true /\
  architecture self = SimpleConvNet_architecture (Z.to_nat num_classes).
Proof.
  intros H.
  assert (Hn : (0 <= num_classes)%Z).
  { destruct (Z.lt_ge_cases num_classes 0) as [Hneg|]; [|assumption].
    exfalso. revert H. unfold SimpleConvNet_init.
    destruct (nn_Conv2d 3 16 3 1 g) as [conv1 g1].
    destruct (nn_Conv2d 16 32 3 1 g1) as [conv2 g2].
    destruct (nn_Linear 1152 256 g2) as [[fc1 g3]|]; cbn [bind]; [|discriminate].
    destruct (nn_Linear 256 128 g3) as [[fc2 g4]|]; cbn [bind]; [|discriminate].
    rewrite nn_Linear_neg by assumption. discriminate. }
  destruct (SimpleConvNet_init_ok input_shape num_classes g Hn) as (s & g2 & E & Ht & Ha).
  rewrite E in H. apply Ok_pair_inj in H. destruct H; subst. auto.
Qed.

Lemma SimpleConvNet_init_no_config input_shape num_classes g :
  SimpleConvNet_init input_shape num_classes g <> Err ConfigurationError.
Proof.
  unfold SimpleConvNet_init.
  destruct (nn_Conv2d 3 16 3 1 g) as [conv1 g1].
  destruct (nn_Conv2d 16 32 3 1 g1) as [conv2 g2].
  pose proof (nn_Linear_no_config 1152 256 g2) as N1.
  destruct (nn_Linear 1152 256 g2) as [[fc1 g3]|e]; cbn [bind]; [|congruence].
  pose proof (nn_Linear_no_config 256 128 g3) as N2.
  destruct (nn_Linear 256 128 g3) as [[fc2 g4]|e]; cbn [bind]; [|congruence].
  pose proof (nn_Linear_no_config 128 num_classes g4) as N3.
  destruct (nn_Linear 128 num_classes g4) as [[fc3 g5]|e]; cbn [bind]; [discriminate|congruence].
Qed.

(** ** Construction and the width of the first dense layer *)

Lemma forward_shape_mode_arch mode self s :
  forward_shape (mkNet mode (layers self)) s
  = bind (arch_shape mode (architecture self) s)
         (fun s' => if mode then Ok s' else softmax_shape s').
Proof. rewrite forward_shape_arch. reflexivity. Qed.

Lemma SimpleFCNet_output_shape self x g :
  output_shape (SimpleFCNet_forward self x g) = forward_shape self (shape x).
Proof. apply SimpleFCNet_forward_shape. Qed.

Lemma SimpleConvNet_output_shape mode nc self b h w x g :
  architecture self = SimpleConvNet_architecture nc ->
  shape x = [b; 3; h; w]%nat -> (10 <= h)%nat -> (10 <= w)%nat ->
  output_shape (SimpleConvNet_forward (mkNet mode (layers self)) x g)
  = if (flattened_feature_size h w =? 1152)%nat then Ok [b; nc] else Err RuntimeError.
Proof.
  intros Ha Hx Hh Hw.
  rewrite SimpleConvNet_forward_eq, SimpleFCNet_output_shape, Hx.
  rewrite forward_shape_mode_arch, Ha, SimpleConvNet_arch_shape by assumption.
  destruct (flattened_feature_size h w =? 1152)%nat; [|reflexivity].
  destruct mode; reflexivity.
Qed.

Lemma SimpleFCNet_hw_output_shape mode nc self b h w x g :
  architecture self = SimpleFCNet_architecture nc ->
  shape x = [b; h; w] ->
  output_shape (SimpleFCNet_forward (mkNet mode (layers self)) x g)
  = if (h * w =? 784)%nat then Ok [b; nc] else Err RuntimeError.
Proof.
  intros Ha Hx.
  rewrite SimpleFCNet_output_shape, Hx, forward_shape_mode_arch, Ha, SimpleFCNet_arch_shape.
  destruct (h * w =? 784)%nat; [|reflexivity]. destruct mode; reflexivity.
Qed.

Lemma output_shape_err r e : output_shape r = Err e -> r = Err e.
Proof. apply rmap_err. Qed.

(** C1, as amended.  Construction of the convolutional classifier never fails
    with a [ConfigurationError]: for every input shape and every non-negative
    class count it succeeds, and it does not compare the flattened feature
    size with the input width of the first dense layer.  A mismatch shows only
    when the forward pass runs: on a batch of 3-channel images of the
    configured height and width (both at least 10), in either mode, the
    forward pass returns a tensor of shape [batch_size; num_classes] when the
    flattened feature size equals that width, and raises a shape error
    otherwise. *)
Theorem SimpleConvNet_init_never_rejects :
  forall (input_shape : Z * Z) (num_classes : Z) (g : rng),
    SimpleConvNet_init input_shape num_classes g <> Err ConfigurationError /\
    ((0 <= num_classes)%Z ->
     exists self g' d,
       SimpleConvNet_init input_shape num_classes g = Ok (self, g') /\
       first_dense_width (architecture self) = Some d /\
       forall (mode : bool) (b h w : nat) (x : tensor R) (gx : rng),
         input_shape = (Z.of_nat h, Z.of_nat w) ->
         shape x = [b; 3; h; w]%nat ->
         (10 <= h)%nat -> (10 <= w)%nat ->
         output_shape (SimpleConvNet_forward (mkNet mode (layers self)) x gx)
         = if (flattened_feature_size h w =? d)%nat
           then Ok [b; Z.to_nat num_classes]
           else Err RuntimeError).
Proof.
  intros input_shape num_classes g. split.
  - apply SimpleConvNet_init_no_config.
  - intros Hn.
    destruct (SimpleConvNet_init_ok input_shape num_classes g Hn) as (self & g' & E & _ & Ha).
    exists self, g', 1152%nat. split; [exact E|]. split.
    + rewrite Ha. reflexivity.
    + intros mode b h w x gx _ Hx Hh Hw.
      apply SimpleConvNet_output_shape; assumption.
Qed.

(** C1, witness: the amended statement at the input shape (28, 28) with 100
    classes. *)
Lemma SimpleConvNet_init_never_rejects_witness :
  exists self g' d,
    SimpleConvNet_init (28, 28)%Z 100 seed0 = Ok (self, g') /\
    first_dense_width (architecture self) = Some d /\
    forall (mode : bool) (b h w : nat) (x : tensor R) (gx : rng),
      (28, 28)%Z = (Z.of_nat h, Z.of_nat w) ->
      shape x = [b; 3; h; w]%nat ->
      (10 <= h)%nat -> (10 <= w)%nat ->
      output_shape (SimpleConvNet_forward (mkNet mode (layers self)) x gx)
      = if (flattened_feature_size h w =? d)%nat
        then Ok [b; Z.to_nat 100]
        else Err RuntimeError.
Proof.
  apply (SimpleConvNet_init_never_rejects (28, 28)%Z 100 seed0). lia.
Defined.

(** C1 as stated fails: for the input shape (28, 28) the flattened feature
    size is 800, not 1152, and yet construction succeeds, so failure with a
    [ConfigurationError] is not equivalent to a mismatch. *)
Lemma SimpleConvNet_init_accepts_mismatch :
  is_ok (SimpleConvNet_init (28, 28)%Z 100 seed0) = true /\
  flattened_feature_size 28 28 = 800%nat /\
  ~ (SimpleConvNet_init (28, 28)%Z 100 seed0 = Err ConfigurationError
     <-> flattened_feature_size 28 28 <> 1152%nat).
Proof.
  split; [vm_compute; reflexivity|]. split; [vm_compute; reflexivity|].
  intros [_ H].
  apply (SimpleConvNet_init_no_config (28, 28)%Z 100 seed0).
  apply H. vm_compute. discriminate.
Qed.

(** C2, at the code.  Whatever input shape is configured, the first dense
    layer of the convolutional classifier takes 1152 inputs: the local
    [fc_dim] is computed and never used.  So on a batch of 3-channel images of
    height and width at least 10, in either mode, the forward pass returns a
    tensor of shape [batch_size; num_classes] when the flattened feature size
    (32 times the reduced height times the reduced width) is 1152, and raises
    a shape error for every other size. *)
Theorem SimpleConvNet_dense_width_hard_coded :
  forall (input_shape : Z * Z) (num_classes : Z) (g : rng) (self : net) (g' : rng),
    SimpleConvNet_init input_shape num_classes g = Ok (self, g') ->
    first_dense_width (architecture self) = Some 1152%nat /\
    forall (mode : bool) (b h w : nat) (x : tensor R) (gx : rng),
      shape x = [b; 3; h; w]%nat -> (10 <= h)%nat -> (10 <= w)%nat ->
      output_shape (SimpleConvNet_forward (mkNet mode (layers self)) x gx)
      = if (flattened_feature_size h w =? 1152)%nat
        then Ok [b; Z.to_nat num_classes]
        else Err RuntimeError.
Proof.
  intros input_shape num_classes g self g' H.
  apply SimpleConvNet_init_inv in H. destruct H as (_ & _ & Ha).
  split; [rewrite Ha; reflexivity|].
  intros mode b h w x gx Hx Hh Hw.
  apply SimpleConvNet_output_shape; assumption.
Qed.

(** C2, witness: for the input shape (28, 28) the flattened feature size is
    800 and [fc_dim] is 256, the first dense layer still takes 1152 inputs, and
    the forward pass on a batch of four such images raises a shape error. *)
Lemma SimpleConvNet_dense_width_hard_coded_witness :
  exists self g',
    SimpleConvNet_init (28, 28)%Z 100 seed0 = Ok (self, g') /\
    fc_dim (28, 28)%Z = 256%Z /\
    flattened_feature_size 28 28 = 800%nat /\
    first_dense_width (architecture self) = Some 1152%nat /\
    forall (mode : bool) (x : tensor R) (gx : rng),
      shape x = [4; 3; 28; 28]%nat ->
      SimpleConvNet_forward (mkNet mode (layers self)) x gx = Err RuntimeError.
Proof.
  destruct (SimpleConvNet_init_ok (28, 28)%Z 100 seed0) as (self & g' & E & _); [lia|].
  exists self, g'. split; [exact E|].
  split; [reflexivity|]. split; [vm_compute; reflexivity|].
  destruct (SimpleConvNet_dense_width_hard_coded (28, 28)%Z 100 seed0 self g' E) as [Hd Hf].
  split; [exact Hd|].
  intros mode x gx Hx. apply output_shape_err.
  rewrite (Hf mode 4 28 28 x gx Hx)%nat by lia.
  replace (flattened_feature_size 28 28 =? 1152)%nat with false by (vm_compute; reflexivity).
  reflexivity.
Defined.

(** C5, at the code.  Whatever input shape is configured, the first dense
    layer of the dense classifier takes 784 inputs.  A batch of height by width
    inputs is flattened to vectors of length height times width, and in either
    mode the forward pass returns a tensor of shape [batch_size; num_classes]
    when height times width is 784, and raises a shape error otherwise. *)
Theorem SimpleFCNet_dense_width_hard_coded :
  forall (input_shape : Z * Z) (num_classes : Z) (g : rng) (self : net) (g' : rng),
    SimpleFCNet_init input_shape num_classes g = Ok (self, g') ->
    first_dense_width (architecture self) = Some 784%nat /\
    forall (mode : bool) (b h w : nat) (x : tensor R) (gx : rng),
      shape x = [b; h; w] ->
      flatten_shape (shape x) = Ok [b; (h * w)%nat] /\
      output_shape (SimpleFCNet_forward (mkNet mode (layers self)) x gx)
      = if (h * w =? 784)%nat then Ok [b; Z.to_nat num_classes] else Err RuntimeError.
Proof.
  intros input_shape num_classes g self g' H.
  apply SimpleFCNet_init_arch in H.
  split; [rewrite H; reflexivity|].
  intros mode b h w x gx Hx. split.
  - rewrite Hx. unfold flatten_shape. rewrite numel_2. reflexivity.
  - apply SimpleFCNet_hw_output_shape; assumption.
Qed.

(** C5, witness: a classifier configured for (32, 32) inputs flattens a batch
    of four such inputs to vectors of length 1024 and then raises a shape
    error, in either mode. *)
Lemma SimpleFCNet_dense_width_hard_coded_witness :
  exists self g',
    SimpleFCNet_init (32, 32)%Z 10 seed0 = Ok (self, g') /\
    first_dense_width (architecture self) = Some 784%nat /\
    forall (mode : bool) (x : tensor R) (gx : rng),
      shape x = [4; 32; 32]%nat ->
      flatten_shape (shape x) = Ok [4; 1024]%nat /\
      SimpleFCNet_forward (mkNet mode (layers self)) x gx = Err RuntimeError.
Proof.
  destruct (SimpleFCNet_init_ok (32, 32)%Z 10 seed0) as (self & g' & E); [lia|].
  exists self, g'. split; [exact E|].
  destruct (SimpleFCNet_dense_width_hard_coded (32, 32)%Z 10 seed0 self g' E) as [Hd Hf].
  split; [exact Hd|].
  intros mode x gx Hx. destruct (Hf mode 4 32 32 x gx Hx)%nat as (H1 & H2).
  split; [exact H1|]. apply output_shape_err. exact H2.
Defined.

(** ** Xavier weights and zero biases *)

Lemma glorot_bound_nonneg i o : (0 <= glorot_bound i o)%R.
Proof. unfold glorot_bound. apply sqrt_pos. Qed.

Lemma xavier_initialised_bound i o w g p :
  xavier_initialised i o w g p ->
  (forall k, (0 <= stream g k <= 1)%R) ->
  forall k, (k < o * i)%nat -> (Rabs (data w k) <= glorot_bound i o)%R.
Proof.
  intros [_ Hw] Hu k Hk. rewrite (Hw k Hk).
  pose proof (glorot_bound_nonneg i o) as Ha.
  pose proof (Hu (p + k)%nat) as [H0 H1].
  apply Rabs_le. split; nra.
Qed.

(** C9.  When [SimpleFCNet.__init__] returns, each of the three dense layers
    has a weight matrix drawn by Xavier (Glorot) uniform initialisation and a
    bias that is exactly zero.  The Xavier samples are the ones that follow
    the samples consumed while the layer stack was built, one per weight
    entry and no more: the initialisation ran once, after the stack was
    built.  With samples in the unit interval every weight lies within the
    Glorot bound of its layer. *)
Theorem SimpleFCNet_init_xavier_zero_bias :
  forall (input_shape : Z * Z) (num_classes : Z) (g : rng) (self : net) (g' : rng),
    SimpleFCNet_init input_shape num_classes g = Ok (self, g') ->
    let n := Z.to_nat num_classes in
    let built := skip g (SimpleFCNet_build_draws n) in
    exists w1 w2 w3 : tensor R,
      layers self =
        [Flatten; Linear 784 128 w1 (Some (zeros 128)); ReLU;
         Linear 128 64 w2 (Some (zeros 64)); ReLU;
         Linear 64 n w3 (Some (zeros n))] /\
      xavier_initialised 784 128 w1 g (pos built) /\
      xavier_initialised 128 64 w2 g (pos built + 128 * 784) /\
      xavier_initialised 64 n w3 g (pos built + 128 * 784 + 64 * 128) /\
      g' = skip built (128 * 784 + 64 * 128 + n * 64) /\
      ((forall k, (0 <= stream g k <= 1)%R) ->
       (forall k, (k < 128 * 784)%nat -> (Rabs (data w1 k) <= glorot_bound 784 128)%R) /\
       (forall k, (k < 64 * 128)%nat -> (Rabs (data w2 k) <= glorot_bound 128 64)%R) /\
       (forall k, (k < n * 64)%nat -> (Rabs (data w3 k) <= glorot_bound 64 n)%R)).
Proof.
  intros input_shape num_classes g self g' H n built.
  apply SimpleFCNet_init_inv in H.
  destruct H as (_ & _ & w1 & w2 & w3 & Hl & X1 & X2 & X3 & Hg).
  exists w1, w2, w3. fold n in Hl, X1, X2, X3, Hg.
  split; [exact Hl|]. split; [exact X1|]. split; [exact X2|]. split; [exact X3|].
  split.
  - rewrite Hg. unfold built, skip. cbn [stream pos]. f_equal. apply Nat.add_assoc.
  - intros Hu. repeat split; intros k Hk.
    + exact (xavier_initialised_bound _ _ _ _ _ X1 Hu k Hk).
    + exact (xavier_initialised_bound _ _ _ _ _ X2 Hu k Hk).
    + exact (xavier_initialised_bound _ _ _ _ _ X3 Hu k Hk).
Qed.

Lemma seed0_unit k : (0 <= stream seed0 k <= 1)%R.
Proof. unfold seed0. cbn [stream]. lra. Qed.

(** C9, witness: the dense classifier for (28, 28) inputs and 10 classes. *)
Lemma SimpleFCNet_init_xavier_zero_bias_witness :
  exists (self : net) (g' : rng) (w1 w2 w3 : tensor R),
    SimpleFCNet_init (28, 28)%Z 10 seed0 = Ok (self, g') /\
    layers self =
      [Flatten; Linear 784 128 w1 (Some (zeros 128)); ReLU;
       Linear 128 64 w2 (Some (zeros 64)); ReLU;
       Linear 64 10 w3 (Some (zeros 10))] /\
    (forall k, (k < 128 * 784)%nat -> (Rabs (data w1 k) <= glorot_bound 784 128)%R) /\
    (forall k, (k < 64 * 128)%nat -> (Rabs (data w2 k) <= glorot_bound 128 64)%R) /\
    (forall k, (k < 10 * 64)%nat -> (Rabs (data w3 k) <= glorot_bound 64 10)%R).
Proof.
  destruct (SimpleFCNet_init_ok (28, 28)%Z 10 seed0) as (self & g' & E); [lia|].
  destruct (SimpleFCNet_init_xavier_zero_bias (28, 28)%Z 10 seed0 self g' E)
    as (w1 & w2 & w3 & Hl & _ & _ & _ & _ & Hb).
  exists self, g', w1, w2, w3. split; [exact E|]. split; [exact Hl|].
  exact (Hb seed0_unit).
Defined.

(** ** The training loop *)

Section TrainingLoop.

Variables M G Opt L : Type.
Variable cls : Classifier M.
Variable optimizer_zero_grad : G -> G.
Variable optimizer_step : Opt -> M -> G -> result (Opt * M).
Variable criterion : tensor R -> tensor Z -> result L.
Variable loss_backward : L -> M -> G -> result G.
Variable loss_item : L -> R.

Lemma train_loop_batch_losses (bs : list batch) :
  forall (w : world M G Opt) (acc : R) (ls : list R) (w' : world M G Opt),
    batch_losses cls optimizer_zero_grad optimizer_step criterion loss_backward
      loss_item bs w = Ok (ls, w') ->
    train_loop cls optimizer_zero_grad optimizer_step criterion loss_backward
      loss_item bs w acc = Ok ((acc + fold_right Rplus 0 ls)%R, w')
    /\ length ls = length bs.
Proof.
  induction bs as [|b bs IH]; intros w acc ls w' H; cbn [batch_losses train_loop] in *.
  - apply Ok_pair_inj in H. destruct H; subst. cbn [fold_right length].
    rewrite Rplus_0_r. split; reflexivity.
  - apply bind_ok in H. destruct H as ([l w1] & Hs & H).
    apply bind_ok in H. destruct H as ([ls' w2] & Hr & H).
    apply Ok_pair_inj in H. destruct H; subst.
    rewrite Hs. cbn [bind].
    destruct (IH w1 (acc + l)%R ls' w' Hr) as [-> Hlen].
    cbn [fold_right length]. rewrite Hlen, Rplus_assoc. split; reflexivity.
Qed.

(** C3.  For every classifier, data source, optimizer and loss function: when
    every batch step of the epoch succeeds, giving the per-batch loss values
    [ls], and there is at least one batch, [train_model] returns the
    arithmetic mean of [ls], that is their sum divided by the number of
    batches, and prints it.  With exactly two batches the result is half the
    sum of the two per-batch losses. *)
Theorem train_model_mean_over_batches :
  forall (w : world M G Opt) (train_loader : DataLoader) (epoch : Z)
         (ls : list R) (w' : world M G Opt),
    batch_losses cls optimizer_zero_grad optimizer_step criterion loss_backward
      loss_item (batches train_loader) (set_model (model_train cls (w_model w)) w)
    = Ok (ls, w') ->
    batches train_loader <> [] ->
    train_model cls optimizer_zero_grad optimizer_step criterion loss_backward
      loss_item w train_loader epoch
    = Ok (mean ls, print (TrainingReport (epoch + 1) (mean ls)) w')
    /\ length ls = len train_loader
    /\ (len train_loader = 2%nat ->
        exists l1 l2, ls = [l1; l2] /\ mean ls = ((l1 + l2) / 2)%R).
Proof.
  intros w train_loader epoch ls w' H Hne.
  destruct (train_loop_batch_losses _ _ 0%R _ _ H) as [Hloop Hlen].
  unfold train_model. rewrite Hloop. cbn [bind].
  assert (Hn : (len train_loader =? 0)%nat = false).
  { apply Nat.eqb_neq. unfold len. destruct (batches train_loader); [congruence|discriminate]. }
  rewrite Hn. unfold mean, len in *. rewrite Hlen, Rplus_0_l.
  split; [reflexivity|]. split; [reflexivity|].
  intros H2. rewrite H2 in Hlen.
  destruct ls as [|l1 [|l2 [|l3 ls]]]; try discriminate.
  exists l1, l2. split; [reflexivity|]. cbn [fold_right]. rewrite H2.
  change (INR 2) with (1 + 1)%R. field.
Qed.

End TrainingLoop.

(** ** The evaluation loop *)

Lemma argmax_ext n : forall f g,
  (forall k, (k <= n)%nat -> f k = g k) -> argmax n f = argmax n g.
Proof.
  induction n as [|n IH]; intros f g H; cbn [argmax]; [reflexivity|].
  rewrite (IH f g) by (intros k Hk; apply H; lia).
  assert (Hm : forall m, (argmax m g <= m)%nat).
  { clear. induction m as [|m IHm]; cbn [argmax]; [lia|].
    destruct (Rlt_dec _ _); lia. }
  rewrite (H (argmax n g)) by (specialize (Hm n); lia).
  rewrite (H (S n)) by lia. reflexivity.
Qed.

Lemma argmax_le n f : (argmax n f <= n)%nat.
Proof.
  induction n as [|n IH]; cbn [argmax]; [lia|]. destruct (Rlt_dec _ _); lia.
Qed.

(** [argmax n f] is a maximum, and the first one. *)
Lemma argmax_spec n f :
  (forall k, (k <= n)%nat -> (f k <= f (argmax n f))%R) /\
  (forall k, (k < argmax n f)%nat -> (f k < f (argmax n f))%R).
Proof.
  induction n as [|n [IH1 IH2]]; cbn [argmax].
  - split; intros k Hk; [replace k with 0%nat by lia; lra | lia].
  - pose proof (argmax_le n f) as Hle.
    destruct (Rlt_dec (f (argmax n f)) (f (S n))) as [Hlt|Hge].
    + split; intros k Hk.
      * destruct (Nat.eq_dec k (S n)) as [->|Hne]; [lra|].
        specialize (IH1 k ltac:(lia)). lra.
      * specialize (IH1 k ltac:(lia)). lra.
    + split; intros k Hk.
      * destruct (Nat.eq_dec k (S n)) as [->|Hne]; [lra|].
        apply IH1. lia.
      * apply IH2. exact Hk.
Qed.

Lemma count_upto_ext n : forall f g,
  (forall k, (k < n)%nat -> f k = g k) -> count_upto n f = count_upto n g.
Proof.
  induction n as [|n IH]; intros f g H; cbn [count_upto]; [reflexivity|].
  rewrite (IH f g) by (intros k Hk; apply H; lia).
  rewrite (H n) by lia. reflexivity.
Qed.

Lemma count_upto_bounds n f : (0 <= count_upto n f <= Z.of_nat n)%Z.
Proof.
  induction n as [|n IH]; cbn [count_upto]; [lia|]. destruct (f n); lia.
Qed.

Lemma test_step_num_correct out target :
  scores_and_labels (out, target) ->
  bind (max_dim1 out) (fun pred =>
    bind (view_as target pred) (fun target' => Ok (eq_sum_item pred target')))
  = Ok (num_correct (out, target)).
Proof.
  intros (b & c & Hs & Hc & Hn). cbn [fst snd] in *.
  unfold max_dim1. rewrite Hs.
  replace (c =? 0)%nat with false by (symmetry; apply Nat.eqb_neq; lia).
  cbn [bind]. unfold view_as. cbn [shape].
  rewrite Hn. replace (numel [b; 1%nat]) with b by (rewrite numel_2; lia).
  rewrite Nat.eqb_refl. cbn [bind]. f_equal.
  unfold eq_sum_item, num_correct. cbn [shape data]. rewrite Hs. cbn [hd].
  replace (numel [b; 1%nat]) with b by (rewrite numel_2; lia).
  apply count_upto_ext. intros k Hk.
  unfold predicted_class. rewrite Hs. f_equal. f_equal.
  apply argmax_ext. intros j Hj. f_equal.
  change (numel []) with 1%nat. rewrite Nat.div_1_r, Nat.mod_1_r. lia.
Qed.

Lemma num_correct_bounds out target :
  (0 <= num_correct (out, target) <= Z.of_nat (hd 0%nat (shape out)))%Z.
Proof. unfold num_correct. apply count_upto_bounds. Qed.

Lemma total_correct_bounds ots :
  (0 <= total_correct ots <= Z.of_nat (total_samples ots))%Z.
Proof.
  induction ots as [|[out target] ots IH]; cbn [total_correct total_samples fold_right fst].
  - lia.
  - fold (total_correct ots). fold (total_samples ots).
    pose proof (num_correct_bounds out target). lia.
Qed.

Section EvaluationLoop.

Variables M G Opt : Type.
Variable cls : Classifier M.

Lemma test_loop_eval_outputs (bs : list batch) :
  forall (w : world M G Opt) (correct : Z) outs (w' : world M G Opt),
    eval_outputs cls bs w = Ok (outs, w') ->
    Forall scores_and_labels outs ->
    test_loop cls bs w correct = Ok ((correct + total_correct outs)%Z, w').
Proof.
  induction bs as [|[input target] bs IH]; intros w correct outs w' H HF;
    cbn [eval_outputs test_loop] in *.
  - apply Ok_pair_inj in H. destruct H; subst. cbn [total_correct fold_right].
    rewrite Z.add_0_r. reflexivity.
  - apply bind_ok in H. destruct H as ([out w1] & Hc & H).
    apply bind_ok in H. destruct H as ([os w2] & Hr & H).
    apply Ok_pair_inj in H. destruct H; subst.
    inversion HF as [|? ? Hhd Htl]; subst.
    unfold test_step. rewrite Hc. cbn [bind].
    pose proof (test_step_num_correct out target Hhd) as Hstep.
    destruct (max_dim1 out) as [pred|e]; cbn [bind] in *; [|discriminate].
    destruct (view_as target pred) as [t'|e]; cbn [bind] in *; [|discriminate].
    injection Hstep as Hstep. rewrite Hstep.
    rewrite (IH w1 _ os w' Hr Htl). cbn [total_correct fold_right].
    fold (total_correct os). rewrite Z.add_assoc. reflexivity.
Qed.

Lemma test_model_unfold (w : world M G Opt) (test_loader : DataLoader) (epoch : Z)
    (outs : list (tensor R * tensor Z)) (w' : world M G Opt) :
  eval_outputs cls (batches test_loader)
    (set_grad_enabled false (set_model (model_eval cls (w_model w)) w))
  = Ok (outs, w') ->
  Forall scores_and_labels outs ->
  (0 < dataset_len test_loader)%nat ->
  test_model cls w test_loader epoch
  = Ok (Qmake (total_correct outs) (Pos.of_nat (dataset_len test_loader)),
        print (TestingReport (epoch + 1)
                 (100 * Qmake (total_correct outs) (Pos.of_nat (dataset_len test_loader)))%Q)
          (set_grad_enabled (w_grad_enabled w) w')).
Proof.
  intros H HF Hpos. unfold test_model.
  rewrite (test_loop_eval_outputs _ _ 0%Z _ _ H HF). cbn [bind].
  replace (dataset_len test_loader =? 0)%nat with false
    by (symmetry; apply Nat.eqb_neq; lia).
  rewrite Z.add_0_l. reflexivity.
Qed.

Lemma predicted_class_is_max out b c i :
  shape out = [b; c] -> (0 < c)%nat ->
  exists j, predicted_class out i = Z.of_nat j /\ (j < c)%nat /\
    (forall k, (k < c)%nat -> (get out (i * c + k) <= get out (i * c + j))%R) /\
    (forall k, (k < j)%nat -> (get out (i * c + k) < get out (i * c + j))%R).
Proof.
  intros Hs Hc. unfold predicted_class. rewrite Hs.
  set (f := fun k => get out (i * c + k)).
  exists (argmax (c - 1) f). split; [reflexivity|].
  pose proof (argmax_le (c - 1) f) as Hle.
  destruct (argmax_spec (c - 1) f) as [H1 H2].
  split; [lia|]. split.
  - intros k Hk. apply (H1 k). lia.
  - intros k Hk. apply (H2 k). exact Hk.
Qed.

(** C4.  For every classifier and data source: when the model returns a score
    matrix for every batch, with one label per example, and the data set is
    not empty, [test_model] returns the number of examples whose predicted
    class is their label divided by the size of the whole data set.  When the
    batches hold no more samples than the data set, the result lies between 0
    and 1.  The predicted class of an example is an index of a maximal
    score. *)
Theorem test_model_accuracy :
  forall (w : world M G Opt) (test_loader : DataLoader) (epoch : Z)
         (outs : list (tensor R * tensor Z)) (w' : world M G Opt),
    eval_outputs cls (batches test_loader)
      (set_grad_enabled false (set_model (model_eval cls (w_model w)) w))
    = Ok (outs, w') ->
    Forall scores_and_labels outs ->
    (0 < dataset_len test_loader)%nat ->
    (total_samples outs <= dataset_len test_loader)%nat ->
    exists (test_acc : Q) (w'' : world M G Opt),
      test_model cls w test_loader epoch = Ok (test_acc, w'') /\
      (test_acc == inject_Z (total_correct outs)
                   / inject_Z (Z.of_nat (dataset_len test_loader)))%Q /\
      (0 <= test_acc)%Q /\ (test_acc <= 1)%Q /\
      (forall out target b c i,
         In (out, target) outs -> shape out = [b; c] -> (i < b)%nat ->
         exists j, predicted_class out i = Z.of_nat j /\ (j < c)%nat /\
           forall k, (k < c)%nat -> (get out (i * c + k) <= get out (i * c + j))%R).
Proof.
  intros w test_loader epoch outs w' H HF Hpos Hle.
  rewrite (test_model_unfold w test_loader epoch outs w' H HF Hpos).
  eexists. eexists. split; [reflexivity|].
  pose proof (total_correct_bounds outs) as [Hc0 Hc1].
  assert (Hp : Z.pos (Pos.of_nat (dataset_len test_loader))
               = Z.of_nat (dataset_len test_loader)).
  { destruct (dataset_len test_loader) as [|n]; [lia|].
    rewrite <- Pos.of_nat_succ. lia. }
  split; [|split; [|split]].
  - rewrite <- Hp. rewrite (Qmake_Qdiv (total_correct outs)). reflexivity.
  - unfold Qle. cbn [Qnum Qden]. lia.
  - unfold Qle. cbn [Qnum Qden]. rewrite Hp. lia.
  - intros out target b c i Hin Hs Hi.
    rewrite Forall_forall in HF. destruct (HF _ Hin) as (b' & c' & Hs' & Hc' & _).
    cbn [fst] in Hs'. rewrite Hs in Hs'. injection Hs' as -> ->.
    destruct (predicted_class_is_max out b' c' i Hs Hc') as (j & Hj & Hlt & Hmax & _).
    exists j. auto.
Qed.

End EvaluationLoop.

(** ** Inference mode *)

(** In inference mode a module computes a function of its input alone and
    hands back itself and the generator. *)
Lemma module_forward_inference m x :
  exists r : result (tensor R),
    forall g, module_forward false m x g = rmap (fun y => (y, m, g)) r.
Proof.
  exists (rmap (fun t => fst (fst t)) (module_forward false m x seed0)).
  intros g. unfold module_forward.
  destruct (module_shape false m (shape x)) as [s|e]; cbn [bind rmap]; [|reflexivity].
  destruct m; reflexivity.
Qed.

Lemma Sequential_forward_inference ms :
  exists F : tensor R -> result (tensor R),
    forall x g, Sequential_forward false ms x g = rmap (fun y => (y, ms, g)) (F x).
Proof.
  induction ms as [|m ms [F HF]].
  - exists (fun x => Ok x). reflexivity.
  - exists (fun x => bind (rmap (fun t => fst (fst t)) (module_forward false m x seed0)) F).
    intros x g. cbn [Sequential_forward].
    destruct (module_forward_inference m x) as [r Hr].
    rewrite (Hr g), (Hr seed0).
    destruct r as [y|e]; cbn [rmap bind fst]; [|reflexivity].
    rewrite HF. destruct (F y); reflexivity.
Qed.

Lemma net_eta self : mkNet (training self) (layers self) = self.
Proof. destruct self; reflexivity. Qed.

Lemma SimpleFCNet_forward_inference self x :
  training self = false ->
  exists r : result (tensor R),
    forall g, SimpleFCNet_forward self x g = rmap (fun y => (y, self, g)) r.
Proof.
  intros Ht. destruct (Sequential_forward_inference (layers self)) as [F HF].
  exists (bind (F x) softmax). intros g.
  unfold SimpleFCNet_forward. rewrite Ht, HF.
  destruct (F x) as [out|e]; cbn [rmap bind]; [|reflexivity].
  destruct (softmax out); cbn [rmap bind]; [|reflexivity].
  rewrite <- Ht, net_eta. reflexivity.
Qed.

(** C8.  In inference mode two forward calls of the convolutional classifier
    on one input give one result, whatever the state of the random generator
    at each call: the first call leaves the parameters, the buffers and the
    generator as they were, and a second call returns the same output.
    Dropout in inference mode hands its input through. *)
Theorem SimpleConvNet_inference_deterministic :
  forall (self : net) (x : tensor R) (g1 g2 : rng),
    training self = false ->
    rmap (fun r => fst (fst r)) (SimpleConvNet_forward self x g1)
    = rmap (fun r => fst (fst r)) (SimpleConvNet_forward self x g2)
    /\ (forall y self' g1',
          SimpleConvNet_forward self x g1 = Ok (y, self', g1') ->
          self' = self /\ g1' = g1 /\
          SimpleConvNet_forward self' x g2 = Ok (y, self', g2))
    /\ (forall p t g, module_forward false (Dropout p) t g = Ok (t, Dropout p, g)).
Proof.
  intros self x g1 g2 Ht. rewrite SimpleConvNet_forward_eq.
  destruct (SimpleFCNet_forward_inference self x Ht) as [r Hr].
  split; [|split].
  - rewrite (Hr g1), (Hr g2). destruct r; reflexivity.
  - intros y self' g1' H. rewrite (Hr g1) in H.
    destruct r as [y0|e]; cbn [rmap] in H; [|discriminate].
    injection H as <- <- <-. rewrite (Hr g2). auto.
  - reflexivity.
Qed.

(** ** What the evaluation loop leaves alone *)

Section EvaluationFrame.

Variables G Opt : Type.

Lemma world_eta (w : world net G Opt) :
  mkWorld (w_model w) (w_grads w) (w_optim w) (w_rng w) (w_grad_enabled w)
    (w_graphs w) (w_stdout w) = w.
Proof. destruct w; reflexivity. Qed.

Lemma call_model_inference (w : world net G Opt) input out w' :
  training (w_model w) = false ->
  w_grad_enabled w = false ->
  call_model SimpleFCNet w input = Ok (out, w') -> w' = w.
Proof.
  intros Ht Hg. unfold call_model. cbn [model_call SimpleFCNet].
  destruct (SimpleFCNet_forward_inference (w_model w) input Ht) as [r Hr].
  rewrite Hr. destruct r as [y|e]; cbn [rmap bind]; [|discriminate].
  rewrite Hg. intros H. apply Ok_pair_inj in H. destruct H as [_ <-].
  rewrite <- Hg. apply world_eta.
Qed.

Lemma test_loop_frame (bs : list batch) :
  forall (w : world net G Opt) (c c' : Z) (w' : world net G Opt),
    training (w_model w) = false ->
    w_grad_enabled w = false ->
    test_loop SimpleFCNet bs w c = Ok (c', w') -> w' = w.
Proof.
  induction bs as [|[input target] bs IH]; intros w c c' w' Ht Hg H; cbn [test_loop] in H.
  - apply Ok_pair_inj in H. destruct H; subst; reflexivity.
  - apply bind_ok in H. destruct H as ([k w1] & Hs & H).
    unfold test_step in Hs.
    apply bind_ok in Hs. destruct Hs as ([out w1'] & Hc & Hs).
    apply call_model_inference in Hc; [|assumption|assumption]. subst w1'.
    destruct (max_dim1 out) as [pred|e]; cbn [bind] in Hs; [|discriminate].
    destruct (view_as target pred) as [t'|e]; cbn [bind] in Hs; [|discriminate].
    apply Ok_pair_inj in Hs. destruct Hs as [_ <-].
    exact (IH w _ c' w' Ht Hg H).
Qed.

(** C7.  For either classifier, every data source and every epoch index: when
    [test_model] returns, every parameter and buffer of the model is what it
    was before the call, the model is in inference mode, the gradients and the
    optimizer state are untouched, no autograd graph was recorded (the calls
    were made with gradients disabled, also when they were enabled before),
    and the gradient mode is restored.  Only the diagnostic line is added. *)
Theorem test_model_leaves_parameters :
  forall (cls : Classifier net) (w : world net G Opt) (test_loader : DataLoader)
         (epoch : Z) (test_acc : Q) (w' : world net G Opt),
    cls = SimpleFCNet \/ cls = SimpleConvNet ->
    test_model cls w test_loader epoch = Ok (test_acc, w') ->
    layers (w_model w') = layers (w_model w) /\
    training (w_model w') = false /\
    w_grads w' = w_grads w /\
    w_optim w' = w_optim w /\
    w_graphs w' = w_graphs w /\
    w_grad_enabled w' = w_grad_enabled w /\
    w_rng w' = w_rng w /\
    w_stdout w' = w_stdout w ++ [TestingReport (epoch + 1) (100 * test_acc)%Q].
Proof.
  intros cls w test_loader epoch test_acc w' Hcls H.
  assert (Hc : cls = SimpleFCNet) by (destruct Hcls as [->| ->]; reflexivity).
  subst cls. clear Hcls. unfold test_model in H.
  apply bind_ok in H. destruct H as ([correct w1] & Hloop & H).
  apply test_loop_frame in Hloop; [|reflexivity|reflexivity]. subst w1.
  destruct (dataset_len test_loader =? 0)%nat; [discriminate|].
  apply Ok_pair_inj in H. destruct H as [<- <-].
  cbn. repeat split; reflexivity.
Qed.

End EvaluationFrame.

(** ** Softmax and the predicted class *)

Lemma argmax_order n : forall f g,
  (forall j k, (j <= n)%nat -> (k <= n)%nat -> (f j < f k)%R <-> (g j < g k)%R) ->
  argmax n f = argmax n g.
Proof.
  induction n as [|n IH]; intros f g H; cbn [argmax]; [reflexivity|].
  rewrite (IH f g) by (intros j k Hj Hk; apply H; lia).
  pose proof (argmax_le n g) as Hle.
  destruct (Rlt_dec (f (argmax n g)) (f (S n))) as [Hf|Hf];
    destruct (Rlt_dec (g (argmax n g)) (g (S n))) as [Hg|Hg]; try reflexivity.
  - exfalso. apply Hg. apply (H (argmax n g) (S n)); [lia|lia|exact Hf].
  - exfalso. apply Hf. apply (H (argmax n g) (S n)); [lia|lia|exact Hg].
Qed.

Lemma big_sum_pos n f :
  (0 < n)%nat -> (forall k, (0 < f k)%R) -> (0 < big_sum n f)%R.
Proof.
  intros Hn Hf. destruct n as [|n]; [lia|]. clear Hn.
  induction n as [|n IH]; cbn [big_sum] in *.
  - specialize (Hf 0%nat). lra.
  - specialize (Hf (S n)). lra.
Qed.

Lemma big_sum_ext n : forall f g,
  (forall k, (k < n)%nat -> f k = g k) -> big_sum n f = big_sum n g.
Proof.
  induction n as [|n IH]; intros f g H; cbn [big_sum]; [reflexivity|].
  rewrite (IH f g) by (intros k Hk; apply H; lia).
  rewrite (H n) by lia. reflexivity.
Qed.

(** Softmax of a score vector keeps the order of its components. *)
Lemma softmax_vector_order (c : nat) (f : nat -> R) (j k : nat) :
  (0 < c)%nat ->
  (f j < f k)%R <->
  (exp (f j) / big_sum c (fun i => exp (f i))
   < exp (f k) / big_sum c (fun i => exp (f i)))%R.
Proof.
  intros Hc.
  assert (HD : (0 < big_sum c (fun i => exp (f i)))%R)
    by (apply big_sum_pos; [exact Hc|intros; apply exp_pos]).
  split; intros H.
  - apply Rmult_lt_compat_r; [apply Rinv_0_lt_compat; exact HD|].
    apply exp_increasing. exact H.
  - apply exp_lt_inv. unfold Rdiv in H.
    apply Rmult_lt_reg_r in H; [exact H|apply Rinv_0_lt_compat; exact HD].
Qed.

(** The entries of [softmax x] along the class dimension at position
    [(i, r)]: the exponentials of the scores over their common sum. *)
Lemma softmax_data_at x b c rest i k r :
  shape x = b :: c :: rest ->
  (k < c)%nat -> (r < numel rest)%nat ->
  softmax_data x ((i * c + k) * numel rest + r)
  = (exp (get x ((i * c + k) * numel rest + r))
     / big_sum c (fun k' => exp (get x ((i * c + k') * numel rest + r))))%R.
Proof.
  intros Hs Hk Hr. unfold softmax_data. rewrite Hs.
  set (inner := numel rest) in *.
  assert (Hmod : (((i * c + k) * inner + r) mod inner = r)%nat).
  { rewrite Nat.add_comm, Nat.Div0.mod_add. apply Nat.mod_small. exact Hr. }
  assert (Hdiv : (((i * c + k) * inner + r) / (c * inner) = i)%nat).
  { symmetry. apply Nat.div_unique with (r := (k * inner + r)%nat); nia. }
  rewrite Hmod, Hdiv. reflexivity.
Qed.

Lemma softmax_inv x s :
  softmax x = Ok s ->
  exists b c rest, shape x = b :: c :: rest /\ s = mkTensor (shape x) (softmax_data x).
Proof.
  unfold softmax, softmax_shape.
  destruct (shape x) as [|b [|c rest]] eqn:Hs; cbn [bind]; try discriminate.
  intros H. injection H as <-. eauto.
Qed.

Lemma softmax_err x e : softmax x = Err e -> e = IndexError /\ max_dim1 x = Err IndexError.
Proof.
  unfold softmax, softmax_shape, max_dim1.
  destruct (shape x) as [|b [|c rest]]; cbn [bind]; intros H;
    try discriminate; injection H as <-; auto.
Qed.

(** The vector form: softmax does not move the index of the maximum. *)
Lemma argmax_softmax_vector (n : nat) (f : nat -> R) :
  argmax n (fun k => (exp (f k) / big_sum (S n) (fun i => exp (f i)))%R) = argmax n f.
Proof.
  apply argmax_order. intros j k _ _. symmetry.
  apply softmax_vector_order. lia.
Qed.

Lemma test_step_softmax x s target :
  softmax x = Ok s ->
  bind (max_dim1 s) (fun pred =>
    bind (view_as target pred) (fun target' => Ok (eq_sum_item pred target')))
  = bind (max_dim1 x) (fun pred =>
    bind (view_as target pred) (fun target' => Ok (eq_sum_item pred target'))).
Proof.
  intros H. destruct (softmax_inv x s H) as (b & c & rest & Hs & ->).
  unfold max_dim1. cbn [shape]. rewrite Hs.
  destruct (Nat.eqb_spec c 0) as [Hc|Hc]; [reflexivity|].
  cbn [bind]. unfold view_as. cbn [shape].
  destruct (numel (shape target) =? numel (b :: 1%nat :: rest))%nat; [|reflexivity].
  cbn [bind]. f_equal. unfold eq_sum_item. cbn [shape data].
  apply count_upto_ext. intros q Hq. f_equal. f_equal.
  assert (Hinner : (0 < numel rest)%nat).
  { change (numel (b :: 1%nat :: rest)) with (b * (1 * numel rest))%nat in Hq.
    destruct (numel rest); lia. }
  set (inner := numel rest) in *.
  assert (Hr : (q mod inner < inner)%nat) by (apply Nat.mod_upper_bound; lia).
  replace c with (S (c - 1)) at 2 4 by lia.
  rewrite <- (argmax_softmax_vector (c - 1)
             (fun k => get x ((q / inner * c + k) * inner + q mod inner))).
  apply argmax_ext. intros k Hk. unfold get at 1. cbn [data].
  replace (S (c - 1)) with c by lia.
  apply (softmax_data_at x b c rest (q / inner) k (q mod inner) Hs); [lia|exact Hr].
Qed.

Section LogitsOrProbabilities.

Variables G Opt : Type.

Lemma test_step_logits (w : world net G Opt) (b : batch) :
  training (w_model w) = false ->
  test_step SimpleFCNet w b = test_step LogitsNet w b.
Proof.
  intros Ht. destruct b as [input target]. unfold test_step, call_model.
  cbn [model_call SimpleFCNet LogitsNet]. unfold SimpleFCNet_forward, forward_logits.
  rewrite Ht.
  destruct (Sequential_forward false (layers (w_model w)) input (w_rng w))
    as [[[out ls] g']|e]; cbn [bind]; [|reflexivity].
  destruct (softmax out) as [s|e] eqn:Hs; cbn [bind].
  - apply (test_step_softmax out s target) in Hs.
    destruct (max_dim1 s) as [p1|e1]; destruct (max_dim1 out) as [p2|e2];
      cbn [bind] in *; try congruence.
    + destruct (view_as target p1) as [t1|e1]; destruct (view_as target p2) as [t2|e2];
        cbn [bind] in *; congruence.
    + destruct (view_as target p1); cbn [bind] in *; congruence.
    + destruct (view_as target p2); cbn [bind] in *; congruence.
  - apply softmax_err in Hs. destruct Hs as [-> ->]. reflexivity.
Qed.

Lemma test_step_logits_mode (w : world net G Opt) (b : batch) k w1 :
  test_step LogitsNet w b = Ok (k, w1) -> training (w_model w1) = training (w_model w).
Proof.
  destruct b as [input target]. unfold test_step, call_model.
  cbn [model_call LogitsNet]. unfold forward_logits.
  destruct (Sequential_forward _ _ _ _) as [[[out ls] g']|e]; cbn [bind]; [|discriminate].
  destruct (max_dim1 out); cbn [bind]; [|discriminate].
  destruct (view_as target _); cbn [bind]; [|discriminate].
  intros H. apply Ok_pair_inj in H. destruct H as [_ <-]. reflexivity.
Qed.

Lemma test_loop_logits (bs : list batch) :
  forall (w : world net G Opt) (c : Z),
    training (w_model w) = false ->
    test_loop SimpleFCNet bs w c = test_loop LogitsNet bs w c.
Proof.
  induction bs as [|b bs IH]; intros w c Ht; cbn [test_loop]; [reflexivity|].
  rewrite test_step_logits by exact Ht.
  destruct (test_step LogitsNet w b) as [[k w1]|e] eqn:Hs; cbn [bind]; [|reflexivity].
  apply IH. rewrite (test_step_logits_mode _ _ _ _ Hs). exact Ht.
Qed.

(** In exact arithmetic softmax is strictly increasing in each score, so the
    index of the maximum of the softmax of a score vector is the index of its
    maximum, and [test_model] on the real-valued softmax returns what it
    returns on the raw logits.  The softmax of the code is computed in single
    precision, where neither holds in general: see the part on softmax in
    single precision. *)
Lemma softmax_exact_keeps_predictions :
  (forall (n : nat) (f : nat -> R),
     argmax n (fun k => (exp (f k) / big_sum (S n) (fun i => exp (f i)))%R)
     = argmax n f) /\
  (forall (w : world net G Opt) (test_loader : DataLoader) (epoch : Z),
     test_model SimpleFCNet w test_loader epoch = test_model LogitsNet w test_loader epoch /\
     test_model SimpleConvNet w test_loader epoch = test_model LogitsNet w test_loader epoch).
Proof.
  split; [exact argmax_softmax_vector|].
  intros w test_loader epoch.
  assert (H : test_model SimpleFCNet w test_loader epoch
              = test_model LogitsNet w test_loader epoch).
  { unfold test_model. cbn [model_eval SimpleFCNet LogitsNet].
    rewrite test_loop_logits by reflexivity. reflexivity. }
  split; exact H.
Qed.

End LogitsOrProbabilities.

(** ** Logits in training, probabilities in inference *)

Lemma big_sum_div n (f : nat -> R) (d : R) :
  big_sum n (fun k => (f k / d)%R) = (big_sum n f / d)%R.
Proof.
  induction n as [|n IH]; cbn [big_sum].
  - unfold Rdiv. rewrite Rmult_0_l. reflexivity.
  - rewrite IH. unfold Rdiv. rewrite Rmult_plus_distr_r. reflexivity.
Qed.

Lemma softmax_class_sum x y b c rest i r :
  softmax x = Ok y -> shape x = b :: c :: rest ->
  (0 < c)%nat -> (r < numel rest)%nat ->
  class_sum y i r = 1%R.
Proof.
  intros H Hs Hc Hr. destruct (softmax_inv x y H) as (_ & _ & _ & _ & ->).
  unfold class_sum. cbn [shape]. rewrite Hs.
  rewrite (big_sum_ext c _
    (fun k => (exp (get x ((i * c + k) * numel rest + r))
               / big_sum c (fun k' => exp (get x ((i * c + k') * numel rest + r))))%R)).
  - rewrite big_sum_div. apply Rdiv_diag. apply Rgt_not_eq.
    apply big_sum_pos; [exact Hc|intros; apply exp_pos].
  - intros k Hk. unfold get at 1. cbn [data].
    apply (softmax_data_at x b c rest i k r Hs Hk Hr).
Qed.

Lemma linear_shape_2d i o n d s' :
  linear_shape i o [n; d] = Ok s' -> s' = [n; o].
Proof.
  unfold linear_shape. cbn [rev app]. destruct (d =? i)%nat; [|discriminate].
  intros H. injection H as <-. reflexivity.
Qed.

Lemma arch_shape_flatten_last train ks : forall s s',
  arch_shape train (ks ++ [KFlatten]) s = Ok s' -> exists n d, s' = [n; d].
Proof.
  induction ks as [|k ks IH]; intros s s' H; cbn [app arch_shape] in H.
  - cbn [kind_shape] in H. unfold flatten_shape in H.
    destruct s as [|n [|d rest]]; cbn [bind] in H; try discriminate.
    injection H as <-. eauto.
  - apply bind_ok in H. destruct H as (s1 & _ & H). eauto.
Qed.

Lemma dense_head_shape train i1 o1 i2 o2 i3 o3 tail n d s' :
  (tail = [] \/ tail = [KDropout]) ->
  arch_shape train
    ([KLinear i1 o1; KReLU; KLinear i2 o2; KReLU; KLinear i3 o3] ++ tail) [n; d]
  = Ok s' -> s' = [n; o3].
Proof.
  intros Ht H. cbn [app arch_shape kind_shape] in H.
  apply bind_ok in H. destruct H as (s1 & H1 & H). apply linear_shape_2d in H1. subst s1.
  cbn [bind] in H.
  apply bind_ok in H. destruct H as (s2 & H2 & H). apply linear_shape_2d in H2. subst s2.
  cbn [bind] in H.
  apply bind_ok in H. destruct H as (s3 & H3 & H). apply linear_shape_2d in H3. subst s3.
  destruct Ht as [-> | ->]; cbn [arch_shape kind_shape bind] in H; congruence.
Qed.

Lemma classifier_arch_shape train nc ks s s' :
  ks = SimpleFCNet_architecture nc \/ ks = SimpleConvNet_architecture nc ->
  arch_shape train ks s = Ok s' -> exists b, s' = [b; nc].
Proof.
  intros [-> | ->] H.
  - change (SimpleFCNet_architecture nc)
      with ([] ++ [KFlatten]
            ++ ([KLinear 784 128; KReLU; KLinear 128 64; KReLU; KLinear 64 nc] ++ [])) in H.
    rewrite app_assoc, arch_shape_app in H.
    apply bind_ok in H. destruct H as (s1 & H1 & H).
    apply arch_shape_flatten_last in H1. destruct H1 as (n & d & ->).
    apply dense_head_shape in H; [eauto|auto].
  - unfold SimpleConvNet_architecture in H. rewrite arch_shape_app in H.
    apply bind_ok in H. destruct H as (s1 & H1 & H).
    change SimpleConvNet_features
      with ([KConv2d 3 16 3 1; KBatchNorm2d 16; KReLU; KMaxPool2d 2 2;
             KConv2d 16 32 3 1; KBatchNorm2d 32; KReLU; KMaxPool2d 2 2] ++ [KFlatten]) in H1.
    apply arch_shape_flatten_last in H1. destruct H1 as (n & d & ->).
    change [KLinear 1152 256; KReLU; KLinear 256 128; KReLU; KLinear 128 nc; KDropout]
      with ([KLinear 1152 256; KReLU; KLinear 256 128; KReLU; KLinear 128 nc] ++ [KDropout]) in H.
    apply dense_head_shape in H; [eauto|auto].
Qed.

Lemma forward_logits_shape self x g y self' g' :
  forward_logits self x g = Ok (y, self', g') ->
  arch_shape (training self) (architecture self) (shape x) = Ok (shape y).
Proof.
  unfold forward_logits. intros H.
  unfold architecture. rewrite <- Sequential_shape_arch.
  rewrite <- (Sequential_forward_shape (training self) (layers self) x g).
  destruct (Sequential_forward _ _ _ _) as [[[out ls] g1]|e]; cbn [bind] in H; [|discriminate].
  injection H as <- _ _. reflexivity.
Qed.

(** C6.  For either classifier with [nc] classes and every input: in training
    mode the forward pass returns the raw logits of the layer stack, with no
    softmax applied; in inference mode, when it returns, its output is the
    softmax of those logits, a matrix of [nc] scores per example, and for a
    positive [nc] the scores of each example sum to 1. *)
Theorem forward_logits_or_probabilities :
  forall (nc : nat) (self : net) (x : tensor R) (g : rng),
    architecture self = SimpleFCNet_architecture nc \/
    architecture self = SimpleConvNet_architecture nc ->
    (training self = true ->
     SimpleFCNet_forward self x g = forward_logits self x g /\
     SimpleConvNet_forward self x g = forward_logits self x g) /\
    (training self = false ->
     forall (y : tensor R) (self' : net) (g' : rng),
       SimpleFCNet_forward self x g = Ok (y, self', g') \/
       SimpleConvNet_forward self x g = Ok (y, self', g') ->
       exists (logits : tensor R) (b : nat),
         forward_logits self x g = Ok (logits, self', g') /\
         softmax logits = Ok y /\
         shape y = [b; nc] /\
         ((0 < nc)%nat ->
          forall i, (i < b)%nat -> big_sum nc (fun k => get y (i * nc + k)) = 1%R)).
Proof.
  intros nc self x g Harch. split.
  - intros Ht. unfold SimpleConvNet_forward, SimpleFCNet_forward, forward_logits.
    rewrite Ht. split; reflexivity.
  - intros Ht y self' g' H.
    assert (H' : SimpleFCNet_forward self x g = Ok (y, self', g'))
      by (destruct H as [H|H]; exact H).
    clear H. unfold SimpleFCNet_forward in H'. rewrite Ht in H'.
    destruct (Sequential_forward false (layers self) x g) as [[[out ls] g1]|e] eqn:Hseq;
      cbn [bind] in H'; [|discriminate].
    destruct (softmax out) as [s|e] eqn:Hsm; cbn [bind] in H'; [|discriminate].
    injection H' as -> <- <-.
    assert (Hl : forward_logits self x g = Ok (out, mkNet false ls, g1)).
    { unfold forward_logits. rewrite Ht, Hseq. reflexivity. }
    pose proof (forward_logits_shape _ _ _ _ _ _ Hl) as Hshape.
    destruct (classifier_arch_shape _ nc _ _ _ Harch Hshape) as [b Hb].
    exists out, b. split; [exact Hl|]. split; [exact Hsm|].
    destruct (softmax_inv out y Hsm) as (_ & _ & _ & _ & Hy).
    assert (Hsy : shape y = [b; nc]) by (rewrite Hy; exact Hb).
    split; [exact Hsy|].
    intros Hnc i Hi.
    assert (Hr : (0 < numel [])%nat) by (cbn; lia).
    pose proof (softmax_class_sum out y b nc [] i 0 Hsm Hb Hnc Hr) as Hsum.
    unfold class_sum in Hsum. rewrite Hsy in Hsum.
    rewrite <- Hsum.
    apply big_sum_ext. intros k Hk. f_equal. cbn [numel fold_right]. lia.
Qed.

(** ** The example epoch *)

Lemma rmap_ok {A B} (f : A -> B) (r : result A) b :
  rmap f r = Ok b -> exists a, r = Ok a /\ f a = b.
Proof. destruct r as [a|e]; cbn [rmap]; intros H; [injection H as <-; eauto|discriminate]. Qed.

Lemma forward_ok_of_shape self x g s :
  forward_shape self (shape x) = Ok s ->
  exists y self' g', SimpleFCNet_forward self x g = Ok (y, self', g') /\ shape y = s.
Proof.
  intros H. rewrite <- (SimpleFCNet_forward_shape self x g) in H.
  apply rmap_ok in H. destruct H as ([[y self'] g'] & H & Hs). eauto.
Qed.

Lemma Sequential_forward_arch train ms : forall x g y ms' g',
  Sequential_forward train ms x g = Ok (y, ms', g') -> map kind_of ms' = map kind_of ms.
Proof.
  induction ms as [|m ms IH]; intros x g y ms' g' H; cbn [Sequential_forward] in H.
  - injection H as _ <- _. reflexivity.
  - apply bind_ok in H. destruct H as ([[y1 m1] g1] & Hm & H).
    apply bind_ok in H. destruct H as ([[z ms1] g2] & Hs & H).
    injection H as _ <- _. cbn [map].
    rewrite (module_forward_kind _ _ _ _ _ _ _ Hm), (IH _ _ _ _ _ Hs). reflexivity.
Qed.

Lemma SimpleFCNet_forward_arch self x g y self' g' :
  SimpleFCNet_forward self x g = Ok (y, self', g') ->
  architecture self' = architecture self /\ training self' = training self.
Proof.
  unfold SimpleFCNet_forward. intros H.
  destruct (Sequential_forward _ _ _ _) as [[[out ls] g1]|e] eqn:Hs; cbn [bind] in H;
    [|discriminate].
  apply Sequential_forward_arch in Hs.
  destruct (training self) eqn:Ht.
  - injection H as _ <- _. auto.
  - destruct (softmax out); cbn [bind] in H; [|discriminate].
    injection H as _ <- _. auto.
Qed.

(** The example epochs run to their end. *)

Lemma example_forward_shape self mode b :
  architecture self = SimpleFCNet_architecture 10 ->
  forward_shape (mkNet mode (layers self)) [b; 28; 28]%nat = Ok [b; 10]%nat.
Proof.
  intros Ha. rewrite forward_shape_mode_arch, Ha, SimpleFCNet_arch_shape.
  change (28 * 28 =? 784)%nat with true. cbn [bind]. destruct mode; reflexivity.
Qed.

Lemma example_train_step (w : world net unit unit) b target :
  architecture (w_model w) = SimpleFCNet_architecture 10 ->
  exists l w1,
    train_step SimpleFCNet (fun g => g) example_step example_criterion example_backward
      (fun l => l) w (zero_input [b; 28; 28]%nat, target) = Ok (l, w1)
    /\ architecture (w_model w1) = SimpleFCNet_architecture 10.
Proof.
  intros Ha. unfold train_step, call_model. cbn [model_call SimpleFCNet w_model w_rng].
  destruct (forward_ok_of_shape (w_model w) (zero_input [b; 28; 28]%nat) (w_rng w) [b; 10]%nat)
    as (y & self' & g' & Hf & Hy).
  { rewrite <- (net_eta (w_model w)). apply example_forward_shape. exact Ha. }
  rewrite Hf. cbn [bind example_criterion example_backward example_step w_model].
  eexists. eexists. split; [reflexivity|]. cbn [w_model].
  apply SimpleFCNet_forward_arch in Hf. destruct Hf as [-> _]. exact Ha.
Qed.

Lemma example_batch_losses (w : world net unit unit) :
  architecture (w_model w) = SimpleFCNet_architecture 10 ->
  exists ls w',
    batch_losses SimpleFCNet (fun g => g) example_step example_criterion example_backward
      (fun l => l) (batches example_loader) w = Ok (ls, w').
Proof.
  intros Ha. cbn [batches example_loader batch_losses].
  destruct (example_train_step w 4%nat (zero_labels 4) Ha) as (l1 & w1 & -> & Ha1).
  cbn [bind].
  destruct (example_train_step w1 4%nat (zero_labels 4) Ha1) as (l2 & w2 & -> & Ha2).
  cbn [bind]. eauto.
Qed.

(** C3, witness: a dense classifier for (28, 28) inputs and 10 classes, fed two
    batches of four samples each. *)
Lemma train_model_mean_over_batches_witness :
  exists (self : net) (g' : rng) (ls : list R) (w' : world net unit unit),
    SimpleFCNet_init (28, 28)%Z 10 seed0 = Ok (self, g') /\
    train_model SimpleFCNet (fun g => g) example_step example_criterion example_backward
      (fun l => l) (example_world self) example_loader 0
    = Ok (mean ls, print (TrainingReport (0 + 1) (mean ls)) w') /\
    length ls = len example_loader /\
    (len example_loader = 2%nat ->
     exists l1 l2, ls = [l1; l2] /\ mean ls = ((l1 + l2) / 2)%R).
Proof.
  destruct (SimpleFCNet_init_ok (28, 28)%Z 10 seed0) as (self & g' & E); [lia|].
  pose proof (SimpleFCNet_init_arch _ _ _ _ _ E) as Ha.
  destruct (example_batch_losses
              (set_model (model_train SimpleFCNet (w_model (example_world self)))
                 (example_world self)) Ha) as (ls & w' & Hl).
  exists self, g', ls, w'. split; [exact E|].
  apply (train_model_mean_over_batches net unit unit R SimpleFCNet (fun g => g)
           example_step example_criterion example_backward (fun l => l)
           (example_world self) example_loader 0%Z ls w' Hl).
  discriminate.
Defined.

Lemma example_inference (self : net) (g : rng) (b : nat) :
  architecture self = SimpleFCNet_architecture 10 ->
  training self = false ->
  exists y, SimpleFCNet_forward self (zero_input [b; 28; 28]%nat) g = Ok (y, self, g)
            /\ shape y = [b; 10]%nat.
Proof.
  intros Ha Ht.
  destruct (forward_ok_of_shape self (zero_input [b; 28; 28]%nat) g [b; 10]%nat)
    as (y & self' & g' & Hf & Hy).
  { rewrite <- (net_eta self). apply example_forward_shape. exact Ha. }
  destruct (SimpleFCNet_forward_inference self (zero_input [b; 28; 28]%nat) Ht) as [r Hr].
  rewrite Hr in Hf. destruct r as [y0|e]; cbn [rmap] in Hf; [|discriminate].
  injection Hf as -> _ _. exists y. rewrite Hr. split; [reflexivity|exact Hy].
Qed.

Lemma example_eval_outputs (w : world net unit unit) :
  architecture (w_model w) = SimpleFCNet_architecture 10 ->
  training (w_model w) = false ->
  exists outs w',
    eval_outputs SimpleFCNet (batches example_loader) w = Ok (outs, w')
    /\ Forall scores_and_labels outs
    /\ total_samples outs = 8%nat.
Proof.
  intros Ha Ht. cbn [batches example_loader eval_outputs]. unfold call_model.
  cbn [model_call SimpleFCNet].
  destruct (example_inference (w_model w) (w_rng w) 4 Ha Ht) as (y1 & -> & Hy1).
  cbn [bind w_model w_rng].
  destruct (example_inference (w_model w) (w_rng w) 4 Ha Ht) as (y2 & -> & Hy2).
  cbn [bind].
  eexists. eexists. split; [reflexivity|]. split.
  - repeat constructor; exists 4%nat, 10%nat; cbn [fst snd]; repeat split;
      try assumption; try lia; reflexivity.
  - cbn [total_samples fold_right fst]. rewrite Hy1, Hy2. reflexivity.
Qed.

(** C4, witness: the dense classifier on two batches of four samples. *)
Lemma test_model_accuracy_witness :
  exists (self : net) (g' : rng) (outs : list (tensor R * tensor Z))
         (test_acc : Q) (w'' : world net unit unit),
    SimpleFCNet_init (28, 28)%Z 10 seed0 = Ok (self, g') /\
    test_model SimpleFCNet (example_world self) example_loader 0 = Ok (test_acc, w'') /\
    (test_acc == inject_Z (total_correct outs) / inject_Z (Z.of_nat 8))%Q /\
    (0 <= test_acc)%Q /\ (test_acc <= 1)%Q.
Proof.
  destruct (SimpleFCNet_init_ok (28, 28)%Z 10 seed0) as (self & g' & E); [lia|].
  pose proof (SimpleFCNet_init_arch _ _ _ _ _ E) as Ha.
  destruct (example_eval_outputs
              (set_grad_enabled false
                 (set_model (model_eval SimpleFCNet (w_model (example_world self)))
                    (example_world self))) Ha eq_refl) as (outs & w' & He & HF & Hn).
  destruct (test_model_accuracy net unit unit SimpleFCNet (example_world self)
              example_loader 0%Z outs w' He HF)
    as (test_acc & w'' & Hm & Hq & H0 & H1 & _).
  { cbn. lia. }
  { rewrite Hn. cbn. lia. }
  exists self, g', outs, test_acc, w''. auto.
Defined.

(** C7, witness: the dense classifier evaluated on two batches of four samples,
    with gradients enabled before the call. *)
Lemma test_model_leaves_parameters_witness :
  exists (self : net) (g' : rng) (test_acc : Q) (w' : world net unit unit),
    SimpleFCNet_init (28, 28)%Z 10 seed0 = Ok (self, g') /\
    test_model SimpleFCNet (example_world self) example_loader 0 = Ok (test_acc, w') /\
    layers (w_model w') = layers self /\
    training (w_model w') = false /\
    w_graphs w' = 0%nat /\
    w_grad_enabled w' = true.
Proof.
  destruct (SimpleFCNet_init_ok (28, 28)%Z 10 seed0) as (self & g' & E); [lia|].
  pose proof (SimpleFCNet_init_arch _ _ _ _ _ E) as Ha.
  destruct (example_eval_outputs
              (set_grad_enabled false
                 (set_model (model_eval SimpleFCNet (w_model (example_world self)))
                    (example_world self))) Ha eq_refl) as (outs & w1 & He & HF & Hn).
  assert (Hpos : (0 < dataset_len example_loader)%nat) by (cbn; lia).
  pose proof (test_model_unfold net unit unit SimpleFCNet (example_world self)
                example_loader 0%Z outs w1 He HF Hpos) as H.
  eexists self, g', _, _. split; [exact E|]. split; [exact H|].
  destruct (test_model_leaves_parameters unit unit SimpleFCNet (example_world self)
              example_loader 0%Z _ _ (or_introl eq_refl) H)
    as (H1 & H2 & _ & _ & H5 & H6 & _).
  auto.
Defined.

(** C6, witness: the dense classifier for (28, 28) inputs and 10 classes on a
    batch of four inputs, in both modes. *)
Lemma forward_logits_or_probabilities_witness :
  exists (self : net) (g' : rng) (y : tensor R),
    SimpleFCNet_init (28, 28)%Z 10 seed0 = Ok (self, g') /\
    SimpleFCNet_forward self (zero_input [4; 28; 28]%nat) g'
    = forward_logits self (zero_input [4; 28; 28]%nat) g' /\
    SimpleFCNet_forward (module_eval self) (zero_input [4; 28; 28]%nat) g'
    = Ok (y, module_eval self, g') /\
    shape y = [4; 10]%nat /\
    forall i, (i < 4)%nat -> big_sum 10 (fun k => get y (i * 10 + k)) = 1%R.
Proof.
  destruct (SimpleFCNet_init_ok (28, 28)%Z 10 seed0) as (self & g' & E); [lia|].
  pose proof (SimpleFCNet_init_arch _ _ _ _ _ E) as Ha.
  pose proof (SimpleFCNet_init_inv _ _ _ _ _ E) as (_ & Ht & _).
  destruct (example_inference (module_eval self) g' 4 Ha eq_refl) as (y & Hf & Hy).
  exists self, g', y. split; [exact E|].
  destruct (forward_logits_or_probabilities 10 self (zero_input [4; 28; 28]%nat) g'
              (or_introl Ha)) as [Htrain _].
  destruct (forward_logits_or_probabilities 10 (module_eval self)
              (zero_input [4; 28; 28]%nat) g' (or_introl Ha)) as [_ Heval].
  split; [exact (proj1 (Htrain Ht))|]. split; [exact Hf|].
  destruct (Heval eq_refl y (module_eval self) g' (or_introl Hf))
    as (logits & b & _ & _ & Hs & Hsum).
  rewrite Hs in Hy. injection Hy as ->.
  split; [exact Hs|]. apply Hsum. lia.
Defined.

Lemma example_conv_inference (self : net) (g : rng) :
  architecture self = SimpleConvNet_architecture 100 ->
  training self = false ->
  exists y, SimpleConvNet_forward self (zero_input [4; 3; 32; 32]%nat) g = Ok (y, self, g)
            /\ shape y = [4; 100]%nat.
Proof.
  intros Ha Ht. rewrite SimpleConvNet_forward_eq.
  destruct (forward_ok_of_shape self (zero_input [4; 3; 32; 32]%nat) g [4; 100]%nat)
    as (y & self' & g' & Hf & Hy).
  { rewrite <- (net_eta self), Ht, forward_shape_mode_arch, Ha.
    cbn [zero_input shape]. rewrite SimpleConvNet_arch_shape by lia.
    replace (flattened_feature_size 32 32 =? 1152)%nat with true
      by (vm_compute; reflexivity).
    reflexivity. }
  destruct (SimpleFCNet_forward_inference self (zero_input [4; 3; 32; 32]%nat) Ht) as [r Hr].
  rewrite Hr in Hf. destruct r as [y0|e]; cbn [rmap] in Hf; [|discriminate].
  injection Hf as -> _ _. exists y. rewrite Hr. split; [reflexivity|exact Hy].
Qed.

(** C8, witness: the convolutional classifier for (32, 32) inputs in inference
    mode, called on four images at two generator states. *)
Lemma SimpleConvNet_inference_deterministic_witness :
  exists (self : net) (g' : rng) (y : tensor R),
    SimpleConvNet_init (32, 32)%Z 100 seed0 = Ok (self, g') /\
    SimpleConvNet_forward (module_eval self) (zero_input [4; 3; 32; 32]%nat) seed0
    = Ok (y, module_eval self, seed0) /\
    SimpleConvNet_forward (module_eval self) (zero_input [4; 3; 32; 32]%nat) g'
    = Ok (y, module_eval self, g').
Proof.
  destruct (SimpleConvNet_init_ok (32, 32)%Z 100 seed0) as (self & g' & E & _ & Ha); [lia|].
  destruct (example_conv_inference (module_eval self) seed0 Ha eq_refl) as (y & Hf & _).
  exists self, g', y. split; [exact E|]. split; [exact Hf|].
  destruct (SimpleConvNet_inference_deterministic (module_eval self)
              (zero_input [4; 3; 32; 32]%nat) seed0 g' eq_refl) as (_ & H2 & _).
  destruct (H2 y (module_eval self) seed0 Hf) as (_ & _ & H3). exact H3.
Defined.

(** ** Failures and repeated evaluation *)

Section TrainingFailures.

Variables M G Opt L : Type.
Variable cls : Classifier M.
Variable optimizer_zero_grad : G -> G.
Variable optimizer_step : Opt -> M -> G -> result (Opt * M).
Variable criterion : tensor R -> tensor Z -> result L.
Variable loss_backward : L -> M -> G -> result G.
Variable loss_item : L -> R.

Lemma train_loop_err (bs : list batch) :
  forall (w : world M G Opt) (acc : R) (e : exn),
    batch_losses cls optimizer_zero_grad optimizer_step criterion loss_backward
      loss_item bs w = Err e ->
    train_loop cls optimizer_zero_grad optimizer_step criterion loss_backward
      loss_item bs w acc = Err e.
Proof.
  induction bs as [|b bs IH]; intros w acc e H; cbn [batch_losses train_loop] in *.
  - discriminate.
  - destruct (train_step cls optimizer_zero_grad optimizer_step criterion loss_backward
                loss_item w b) as [[l w1]|e1]; cbn [bind] in *; [|congruence].
    apply IH.
    destruct (batch_losses cls optimizer_zero_grad optimizer_step criterion loss_backward
                loss_item bs w1) as [[ls w2]|e2]; cbn [bind] in H; [discriminate|congruence].
Qed.

(** X1.  A failure in any batch step of [train_model] (in the forward pass,
    the loss, the backward pass or the optimizer step) reaches the caller as
    it is: no batch is retried or skipped, and nothing is returned. *)
Theorem train_model_propagates_failure :
  forall (w : world M G Opt) (train_loader : DataLoader) (epoch : Z) (e : exn),
    batch_losses cls optimizer_zero_grad optimizer_step criterion loss_backward
      loss_item (batches train_loader) (set_model (model_train cls (w_model w)) w)
    = Err e ->
    train_model cls optimizer_zero_grad optimizer_step criterion loss_backward
      loss_item w train_loader epoch = Err e.
Proof.
  intros w train_loader epoch e H. unfold train_model.
  rewrite (train_loop_err _ _ 0%R _ H). reflexivity.
Qed.

(** X2.  [train_model] returns exactly when the data source has at least one
    batch and every batch step succeeds. *)
Theorem train_model_returns_iff :
  forall (w : world M G Opt) (train_loader : DataLoader) (epoch : Z),
    (exists r, train_model cls optimizer_zero_grad optimizer_step criterion
                 loss_backward loss_item w train_loader epoch = Ok r)
    <->
    (batches train_loader <> [] /\
     exists ls w',
       batch_losses cls optimizer_zero_grad optimizer_step criterion loss_backward
         loss_item (batches train_loader) (set_model (model_train cls (w_model w)) w)
       = Ok (ls, w')).
Proof.
  intros w train_loader epoch. split.
  - intros [r H].
    destruct (batch_losses cls optimizer_zero_grad optimizer_step criterion loss_backward
                loss_item (batches train_loader)
                (set_model (model_train cls (w_model w)) w)) as [[ls w']|e] eqn:Hb.
    + split; [|eauto]. intros Hnil. unfold train_model, len in H.
      rewrite Hnil in H. cbn in H. discriminate.
    + unfold train_model in H.
      rewrite (train_loop_err _ _ 0%R _ Hb) in H.
      discriminate.
  - intros (Hne & ls & w' & Hb).
    destruct (train_loop_batch_losses M G Opt L cls optimizer_zero_grad optimizer_step
                criterion loss_backward loss_item _ _ 0%R _ _ Hb) as [Hloop _].
    unfold train_model. rewrite Hloop. cbn [bind].
    replace (len train_loader =? 0)%nat with false; [eauto|].
    symmetry. apply Nat.eqb_neq. unfold len.
    destruct (batches train_loader); [congruence|discriminate].
Qed.

End TrainingFailures.

Section RepeatedEvaluation.

Variables G Opt : Type.

Lemma call_model_print (r : report) (w : world net G Opt) (input : tensor R) :
  call_model SimpleFCNet (print r w) input
  = rmap (fun ow => (fst ow, print r (snd ow))) (call_model SimpleFCNet w input).
Proof.
  unfold call_model. cbn [print w_model w_rng w_grad_enabled w_graphs w_stdout w_grads w_optim].
  destruct (model_call SimpleFCNet (w_model w) input (w_rng w)) as [[[out m'] g']|e];
    reflexivity.
Qed.

Lemma test_loop_print (r : report) (bs : list batch) :
  forall (w : world net G Opt) (c : Z),
    test_loop SimpleFCNet bs (print r w) c
    = rmap (fun cw => (fst cw, print r (snd cw))) (test_loop SimpleFCNet bs w c).
Proof.
  induction bs as [|[input target] bs IH]; intros w c; cbn [test_loop]; [reflexivity|].
  unfold test_step. rewrite call_model_print.
  destruct (call_model SimpleFCNet w input) as [[out w1]|e]; cbn [rmap bind fst snd];
    [|reflexivity].
  destruct (max_dim1 out) as [pred|e]; cbn [bind]; [|reflexivity].
  destruct (view_as target pred) as [t'|e]; cbn [bind]; [|reflexivity].
  apply IH.
Qed.

(** X3.  Evaluating twice gives the same accuracy: when [test_model] returns
    an accuracy for either classifier, a second call on the state the first
    one left, with the same data source, returns that accuracy again. *)
Theorem test_model_repeatable :
  forall (cls : Classifier net) (w : world net G Opt) (test_loader : DataLoader)
         (epoch epoch' : Z) (test_acc : Q) (w1 : world net G Opt),
    cls = SimpleFCNet \/ cls = SimpleConvNet ->
    test_model cls w test_loader epoch = Ok (test_acc, w1) ->
    exists w2 : world net G Opt,
      test_model cls w1 test_loader epoch' = Ok (test_acc, w2).
Proof.
  intros cls w test_loader epoch epoch' test_acc w1 Hcls H.
  assert (Hc : cls = SimpleFCNet) by (destruct Hcls as [->| ->]; reflexivity).
  subst cls. clear Hcls. unfold test_model in H.
  apply bind_ok in H. destruct H as ([correct w0] & Hloop & H).
  pose proof Hloop as Hw0.
  apply test_loop_frame in Hw0; [|reflexivity|reflexivity]. subst w0.
  destruct (dataset_len test_loader =? 0)%nat eqn:Hlen; [discriminate|].
  apply Ok_pair_inj in H. destruct H as [<- <-].
  unfold test_model. rewrite Hlen.
  match goal with
  | |- context [test_loop SimpleFCNet _ ?W 0%Z] =>
      match type of Hloop with
      | test_loop _ _ ?W0 _ = _ =>
          change W with (print (TestingReport (epoch + 1)
             (100 * Qmake correct (Pos.of_nat (dataset_len test_loader)))%Q) W0)
      end
  end.
  rewrite test_loop_print, Hloop. cbn [rmap bind fst snd]. eauto.
Qed.

End RepeatedEvaluation.

(** ** When the evaluation loop returns *)

Lemma test_step_comparable out target :
  (exists k, bind (max_dim1 out) (fun pred =>
     bind (view_as target pred) (fun target' => Ok (eq_sum_item pred target'))) = Ok k)
  <-> comparable (out, target).
Proof.
  unfold comparable, max_dim1, view_as. cbn [fst snd]. split.
  - intros [k H].
    destruct (shape out) as [|b [|c rest]]; cbn [bind] in H; try discriminate.
    destruct (c =? 0)%nat eqn:Hc; cbn [bind] in H; [discriminate|].
    cbn [shape] in H.
    destruct (numel (shape target) =? numel (b :: 1 :: rest))%nat eqn:Hn;
      cbn [bind] in H; [|discriminate].
    exists b, c, rest. split; [reflexivity|]. split; [apply Nat.eqb_neq; exact Hc|].
    apply Nat.eqb_eq in Hn. rewrite Hn. unfold numel. cbn [fold_right]. lia.
  - intros (b & c & rest & -> & Hc & Hn).
    replace (c =? 0)%nat with false by (symmetry; apply Nat.eqb_neq; exact Hc).
    cbn [bind shape].
    replace (numel (shape target) =? numel (b :: 1 :: rest))%nat with true.
    + cbn [bind]. eauto.
    + symmetry. apply Nat.eqb_eq. rewrite Hn. unfold numel. cbn [fold_right]. lia.
Qed.

Section EvaluationReturns.

Variables M G Opt : Type.
Variable cls : Classifier M.

Lemma test_loop_returns (bs : list batch) :
  forall (w : world M G Opt) (correct : Z),
    (exists r, test_loop cls bs w correct = Ok r) <->
    (exists outs w', eval_outputs cls bs w = Ok (outs, w') /\ Forall comparable outs).
Proof.
  induction bs as [|[input target] bs IH]; intros w correct;
    cbn [test_loop eval_outputs].
  - split; [intros _; eexists; eexists; split; [reflexivity|constructor]|eauto].
  - unfold test_step.
    destruct (call_model cls w input) as [[out w1]|e]; cbn [bind].
    2:{ split; [intros [r H]; discriminate|intros (outs & w' & H & _); discriminate]. }
    pose proof (test_step_comparable out target) as Hc.
    destruct (max_dim1 out) as [pred|e]; cbn [bind] in *.
    2:{ split.
        - intros [r H]; discriminate.
        - intros (outs & w' & H & HF). exfalso.
          destruct (eval_outputs cls bs w1) as [[os w2]|e']; cbn [bind] in H;
            [|discriminate].
          apply Ok_pair_inj in H. destruct H as [<- _].
          inversion HF as [|? ? Hhd _]; subst.
          apply Hc in Hhd. destruct Hhd; discriminate. }
    destruct (view_as target pred) as [t'|e]; cbn [bind] in *.
    2:{ split.
        - intros [r H]; discriminate.
        - intros (outs & w' & H & HF). exfalso.
          destruct (eval_outputs cls bs w1) as [[os w2]|e']; cbn [bind] in H;
            [|discriminate].
          apply Ok_pair_inj in H. destruct H as [<- _].
          inversion HF as [|? ? Hhd _]; subst.
          apply Hc in Hhd. destruct Hhd; discriminate. }
    rewrite (IH w1 (correct + eq_sum_item pred t')%Z). split.
    + intros (os & w' & -> & HF). cbn [bind].
      eexists. eexists. split; [reflexivity|]. constructor; [|exact HF].
      apply Hc. eauto.
    + intros (outs & w' & H & HF).
      destruct (eval_outputs cls bs w1) as [[os w2]|e']; cbn [bind] in H; [|discriminate].
      apply Ok_pair_inj in H. destruct H as [<- <-].
      inversion HF; subst. eauto.
Qed.

(** X4.  [test_model] returns exactly when the data set is not empty, the
    forward pass goes through on every batch, every output has a class dimension
    that is not empty, and every batch has one label per prediction. So it never
    returns for an empty data set, nor for an output without classes. *)
Theorem test_model_returns_iff :
  forall (w : world M G Opt) (test_loader : DataLoader) (epoch : Z),
    (exists r, test_model cls w test_loader epoch = Ok r) <->
    (dataset_len test_loader <> 0%nat /\
     exists outs w',
       eval_outputs cls (batches test_loader)
         (set_grad_enabled false (set_model (model_eval cls (w_model w)) w))
       = Ok (outs, w') /\
       Forall comparable outs).
Proof.
  intros w test_loader epoch.
  rewrite <- (test_loop_returns (batches test_loader) _ 0%Z).
  unfold test_model. split.
  - intros [r H].
    destruct (test_loop cls (batches test_loader) _ 0%Z) as [[c w1]|e]; cbn [bind] in H;
      [|discriminate].
    destruct (dataset_len test_loader =? 0)%nat eqn:Hn; [discriminate|].
    split; [apply Nat.eqb_neq; exact Hn|eauto].
  - intros [Hn [[c w1] ->]]. cbn [bind].
    replace (dataset_len test_loader =? 0)%nat with false
      by (symmetry; apply Nat.eqb_neq; exact Hn).
    eauto.
Qed.

End EvaluationReturns.

(** ** The inputs the classifiers accept *)

(** Linear arithmetic with halvings: each [a / 2] is replaced by a quotient
    and a remainder. *)
Ltac div_lia :=
  repeat match goal with
  | |- context [(?a / 2)%nat] =>
      pose proof (Nat.div_mod_eq a 2);
      pose proof (Nat.mod_upper_bound a 2 ltac:(lia));
      generalize dependent (a mod 2)%nat; generalize dependent (a / 2)%nat; intros
  | H : context [(?a / 2)%nat] |- _ =>
      pose proof (Nat.div_mod_eq a 2);
      pose proof (Nat.mod_upper_bound a 2 ltac:(lia));
      generalize dependent (a mod 2)%nat; generalize dependent (a / 2)%nat; intros
  end; lia.

Lemma SimpleFCNet_arch_shape_any mode nc s :
  arch_shape mode (SimpleFCNet_architecture nc) s
  = match s with
    | b :: d :: rest =>
        if (numel (d :: rest) =? 784)%nat then Ok [b; nc] else Err RuntimeError
    | _ => Err IndexError
    end.
Proof.
  unfold SimpleFCNet_architecture. cbn [arch_shape kind_shape].
  destruct s as [|b [|d rest]]; try reflexivity.
  unfold flatten_shape. cbn [bind].
  unfold linear_shape at 1. cbn [rev app].
  destruct (numel (d :: rest) =? 784)%nat; [|reflexivity].
  cbn [bind]. unfold linear_shape. cbn [rev app].
  rewrite !Nat.eqb_refl. reflexivity.
Qed.

(** X5.  The dense classifier returns exactly on the inputs with a batch
    dimension and 784 entries per example. *)
Theorem SimpleFCNet_accepts :
  forall (mode : bool) (nc : nat) (self : net) (x : tensor R) (g : rng) (s : list nat),
    architecture self = SimpleFCNet_architecture nc ->
    (output_shape (SimpleFCNet_forward (mkNet mode (layers self)) x g) = Ok s <->
     exists b d rest,
       shape x = b :: d :: rest /\ numel (d :: rest) = 784%nat /\ s = [b; nc]).
Proof.
  intros mode nc self x g s Ha.
  rewrite SimpleFCNet_output_shape, forward_shape_mode_arch, Ha, SimpleFCNet_arch_shape_any.
  destruct (shape x) as [|b [|d rest]]; cbn [bind].
  - split; [discriminate|]. intros (b & d & rest & H & _). discriminate.
  - split; [discriminate|]. intros (b' & d & rest & H & _). discriminate.
  - destruct (Nat.eqb_spec (numel (d :: rest)) 784) as [E|E]; cbn [bind].
    + assert (Hs : (if mode then Ok [b; nc] else softmax_shape [b; nc]) = Ok [b; nc])
        by (destruct mode; reflexivity).
      rewrite Hs. split.
      * intros H. injection H as <-. exists b, d, rest. auto.
      * intros (b' & d' & rest' & H & _ & ->). injection H as -> _ _. reflexivity.
    + split; [discriminate|]. intros (b' & d' & rest' & H & Hn & _).
      injection H as -> -> ->. contradiction.
Qed.

Lemma conv2d_shape_4d cin cout k st s s' :
  conv2d_shape cin cout k st s = Ok s' ->
  length s = 4%nat ->
  exists n h w,
    s = [n; cin; h; w] /\ (k <= h)%nat /\ (k <= w)%nat /\
    s' = [n; cout; window_out h k st; window_out w k st].
Proof.
  intros H Hl. destruct s as [|n [|c [|h [|w [|e s]]]]]; try discriminate.
  unfold conv2d_shape in H.
  destruct (Nat.eqb_spec c cin) as [->|]; cbn [andb] in H; [|discriminate].
  destruct (Nat.leb_spec k h); cbn [andb] in H; [|discriminate].
  destruct (Nat.leb_spec k w); cbn [andb] in H; [|discriminate].
  destruct (1 <=? st)%nat; [|discriminate].
  injection H as <-. exists n, h, w. auto.
Qed.

Lemma conv2d_shape_rank cin cout k st s s' :
  conv2d_shape cin cout k st s = Ok s' -> length s' = length s.
Proof.
  destruct s as [|n [|c [|h [|w [|e s]]]]]; try discriminate; unfold conv2d_shape;
    match goal with |- (if ?b then _ else _) = _ -> _ => destruct b end;
    try discriminate; intros H; injection H as <-; reflexivity.
Qed.

Lemma batch_norm2d_shape_inv train c s s' :
  batch_norm2d_shape train c s = Ok s' ->
  s' = s /\ exists n h w, s = [n; c; h; w].
Proof.
  destruct s as [|n [|c' [|h [|w [|e s]]]]]; try discriminate.
  unfold batch_norm2d_shape.
  destruct (train && (n * (h * w) =? 1)%nat); [discriminate|].
  destruct (Nat.eqb_spec c' c) as [->|]; [|discriminate].
  intros H. injection H as <-. eauto.
Qed.

Lemma max_pool2d_shape_4d k st n c h w s' :
  max_pool2d_shape k st [n; c; h; w] = Ok s' ->
  (k <= h)%nat /\ (k <= w)%nat /\ s' = [n; c; window_out h k st; window_out w k st].
Proof.
  unfold max_pool2d_shape.
  destruct (Nat.leb_spec k h) as [Hh|Hh]; cbn [andb]; [|discriminate].
  destruct (Nat.leb_spec k w) as [Hw|Hw]; cbn [andb]; [|discriminate].
  destruct (1 <=? st)%nat; [|discriminate].
  intros H. injection H as <-. auto.
Qed.

(** The convolution and pooling stages pass only batches of 3-channel images
    of height and width at least 10. *)
Lemma SimpleConvNet_features_inv train s s' :
  arch_shape train SimpleConvNet_features s = Ok s' ->
  exists b h w, s = [b; 3; h; w]%nat /\ (10 <= h)%nat /\ (10 <= w)%nat.
Proof.
  unfold SimpleConvNet_features. cbn [arch_shape kind_shape]. intros H.
  apply bind_ok in H. destruct H as (s1 & H1 & H).
  apply bind_ok in H. destruct H as (s2 & H2 & H).
  apply batch_norm2d_shape_inv in H2. destruct H2 as (-> & n1 & h1 & w1 & ->).
  pose proof (conv2d_shape_rank _ _ _ _ _ _ H1) as Hr.
  apply conv2d_shape_4d in H1; [|symmetry; exact Hr].
  destruct H1 as (b & h & w & -> & Hh & Hw & E1). injection E1 as -> -> ->.
  cbn [bind] in H.
  apply bind_ok in H. destruct H as (s3 & H3 & H).
  apply max_pool2d_shape_4d in H3. destruct H3 as (Hh3 & Hw3 & ->).
  apply bind_ok in H. destruct H as (s4 & H4 & H).
  apply conv2d_shape_4d in H4; [|reflexivity].
  destruct H4 as (b4 & h4 & w4 & E4 & Hh4 & Hw4 & ->). injection E4 as <- <- <-.
  apply bind_ok in H. destruct H as (s5 & H5 & H).
  apply batch_norm2d_shape_inv in H5. destruct H5 as (-> & _).
  cbn [bind] in H.
  apply bind_ok in H. destruct H as (s6 & H6 & H).
  apply max_pool2d_shape_4d in H6. destruct H6 as (Hh6 & Hw6 & ->).
  exists b, h, w. split; [reflexivity|]. clear Hr H.
  rewrite (window_out_conv3 h Hh) in *. rewrite (window_out_conv3 w Hw) in *.
  rewrite (window_out_pool2 (h - 2) Hh3) in *. rewrite (window_out_pool2 (w - 2) Hw3) in *.
  rewrite (window_out_conv3 _ Hh4) in *. rewrite (window_out_conv3 _ Hw4) in *.
  split; div_lia.
Qed.

Lemma flattened_feature_size_1152 h w :
  flattened_feature_size h w = 1152%nat
  <-> (spatially_reduced h * spatially_reduced w = 36)%nat.
Proof.
  unfold flattened_feature_size.
  generalize (spatially_reduced h) (spatially_reduced w). intros a c.
  change 1152%nat with (32 * 36)%nat. rewrite <- Nat.mul_assoc.
  split; intros H; [|rewrite H; reflexivity].
  apply Nat.mul_cancel_l in H; [exact H|discriminate].
Qed.

Lemma spatially_reduced_6 h : spatially_reduced h = 6%nat <-> (30 <= h <= 33)%nat.
Proof. unfold spatially_reduced. split; intros H; div_lia. Qed.

(** X6.  The convolutional classifier returns exactly on the batches of
    3-channel images, of height and width at least 10, whose reduced extents
    multiply to 36; among square images these are the sides 30 to 33. *)
Theorem SimpleConvNet_accepts :
  forall (mode : bool) (nc : nat) (self : net) (x : tensor R) (g : rng),
    architecture self = SimpleConvNet_architecture nc ->
    (forall s : list nat,
       output_shape (SimpleConvNet_forward (mkNet mode (layers self)) x g) = Ok s <->
       exists b h w,
         shape x = [b; 3; h; w]%nat /\ (10 <= h)%nat /\ (10 <= w)%nat /\
         (spatially_reduced h * spatially_reduced w = 36)%nat /\ s = [b; nc]) /\
    (forall b h : nat,
       shape x = [b; 3; h; h]%nat ->
       (output_shape (SimpleConvNet_forward (mkNet mode (layers self)) x g) = Ok [b; nc]
        <-> (30 <= h <= 33)%nat)).
Proof.
  intros mode nc self x g Ha.
  assert (Hmain : forall s : list nat,
    output_shape (SimpleConvNet_forward (mkNet mode (layers self)) x g) = Ok s <->
    exists b h w,
      shape x = [b; 3; h; w]%nat /\ (10 <= h)%nat /\ (10 <= w)%nat /\
      (spatially_reduced h * spatially_reduced w = 36)%nat /\ s = [b; nc]).
  { intros s. split.
    - intros H.
      assert (Hf : exists s1, arch_shape mode SimpleConvNet_features (shape x) = Ok s1).
      { rewrite SimpleConvNet_forward_eq, SimpleFCNet_output_shape,
          forward_shape_mode_arch, Ha in H.
        unfold SimpleConvNet_architecture in H. rewrite arch_shape_app in H.
        destruct (arch_shape mode SimpleConvNet_features (shape x)) as [s1|e];
          [eauto|discriminate]. }
      destruct Hf as [s1 Hf].
      destruct (SimpleConvNet_features_inv _ _ _ Hf) as (b & h & w & Hx & Hh & Hw).
      rewrite (SimpleConvNet_output_shape mode nc self b h w x g Ha Hx Hh Hw) in H.
      destruct (Nat.eqb_spec (flattened_feature_size h w) 1152) as [E|E]; [|discriminate].
      injection H as <-. exists b, h, w.
      apply flattened_feature_size_1152 in E. auto.
    - intros (b & h & w & Hx & Hh & Hw & E & ->).
      rewrite (SimpleConvNet_output_shape mode nc self b h w x g Ha Hx Hh Hw).
      apply flattened_feature_size_1152 in E. rewrite E. reflexivity. }
  split; [exact Hmain|].
  intros b h Hx. rewrite Hmain. split.
  - intros (b' & h' & w' & Hx' & Hh & Hw & E & _).
    rewrite Hx in Hx'. injection Hx' as <- <- <-.
    apply spatially_reduced_6. nia.
  - intros Hh. exists b, h, h.
    assert (E : spatially_reduced h = 6%nat) by (apply spatially_reduced_6; exact Hh).
    rewrite E. repeat split; try assumption; lia.
Qed.

(** ** The unused [fc_dim] *)

Lemma spatially_reduced_quarter h :
  (10 <= h)%nat ->
  (2 <= h / 4 /\ h / 4 - 2 <= spatially_reduced h /\ 1 <= spatially_reduced h)%nat.
Proof.
  intros Hh. unfold spatially_reduced.
  pose proof (Nat.div_mod_eq h 4) as E4.
  pose proof (Nat.mod_upper_bound h 4 ltac:(lia)) as U4.
  pose proof (Nat.div_mod_eq (h - 2) 2) as E1.
  pose proof (Nat.mod_upper_bound (h - 2) 2 ltac:(lia)) as U1.
  pose proof (Nat.div_mod_eq ((h - 2) / 2 - 2) 2) as E2.
  pose proof (Nat.mod_upper_bound ((h - 2) / 2 - 2) 2 ltac:(lia)) as U2.
  lia.
Qed.

(** X7.  The value that [SimpleConvNet.__init__] computes as [fc_dim] is, for
    every image size the convolution stack accepts, smaller than the width of
    what the stack hands to the first dense layer. *)
Theorem fc_dim_below_flattened_size :
  forall (train : bool) (b h w : nat),
    (10 <= h)%nat -> (10 <= w)%nat ->
    exists n : nat,
      arch_shape train SimpleConvNet_features [b; 3; h; w]%nat = Ok [b; n] /\
      n = flattened_feature_size h w /\
      (fc_dim (Z.of_nat h, Z.of_nat w) < Z.of_nat n)%Z.
Proof.
  intros train b h w Hh Hw.
  exists (flattened_feature_size h w).
  split; [apply SimpleConvNet_features_shape; assumption|]. split; [reflexivity|].
  unfold fc_dim, flattened_feature_size. cbn [fst snd].
  destruct (spatially_reduced_quarter h Hh) as (Hq & Hs & Hp).
  destruct (spatially_reduced_quarter w Hw) as (Hq' & Hs' & Hp').
  change 4%Z with (Z.of_nat 4). rewrite <- !Nat2Z.inj_div.
  rewrite !Nat2Z.inj_mul.
  generalize dependent (spatially_reduced h). generalize dependent (spatially_reduced w).
  generalize dependent (h / 4)%nat. generalize dependent (w / 4)%nat.
  intros q' Hq' q Hq B HsB HB A HsA HA.
  change (Z.of_nat 32) with 32%Z. change (Z.of_nat 4) with 4%Z.
  assert (Ha : (-1 <= Z.of_nat q - 3 <= Z.of_nat A - 1)%Z) by lia.
  assert (Hb : (-1 <= Z.of_nat q' - 3 <= Z.of_nat B - 1)%Z) by lia.
  assert (HA' : (1 <= Z.of_nat A)%Z) by lia.
  assert (HB' : (1 <= Z.of_nat B)%Z) by lia.
  generalize dependent (Z.of_nat A). generalize dependent (Z.of_nat B).
  generalize dependent (Z.of_nat q - 3)%Z. generalize dependent (Z.of_nat q' - 3)%Z.
  intros. nia.
Qed.

(** ** Scores in inference mode *)

Lemma big_sum_nonneg n (f : nat -> R) :
  (forall k, (0 <= f k)%R) -> (0 <= big_sum n f)%R.
Proof.
  intros Hf. induction n as [|n IH]; cbn [big_sum]; [lra|].
  specialize (Hf n). lra.
Qed.

Lemma big_sum_ge_term n (f : nat -> R) k :
  (forall j, (0 <= f j)%R) -> (k < n)%nat -> (f k <= big_sum n f)%R.
Proof.
  intros Hf. induction n as [|n IH]; intros Hk; [lia|]. cbn [big_sum].
  destruct (Nat.eq_dec k n) as [->|Hne].
  - pose proof (big_sum_nonneg n f Hf). lra.
  - specialize (IH ltac:(lia)). specialize (Hf n). lra.
Qed.

Lemma softmax_entry_bounds x y b c i k :
  softmax x = Ok y -> shape x = [b; c] -> (k < c)%nat ->
  (0 < get y (i * c + k) <= 1)%R.
Proof.
  intros H Hs Hk.
  destruct (softmax_inv x y H) as (_ & _ & _ & _ & ->).
  unfold get at 1 2. cbn [data].
  pose proof (softmax_data_at x b c [] i k 0 Hs Hk) as E.
  change (numel []) with 1%nat in E.
  replace ((i * c + k) * 1 + 0)%nat with (i * c + k)%nat in E by lia.
  rewrite E by lia. clear E.
  set (f := fun k' => exp (get x ((i * c + k') * 1 + 0))).
  assert (Hpos : forall j, (0 < f j)%R) by (intros j; apply exp_pos).
  assert (HD : (0 < big_sum c f)%R) by (apply big_sum_pos; [lia|exact Hpos]).
  assert (Hle : (f k <= big_sum c f)%R)
    by (apply big_sum_ge_term; [intros j; apply Rlt_le, Hpos|exact Hk]).
  replace (exp (get x (i * c + k))) with (f k)
    by (unfold f; f_equal; f_equal; lia).
  split.
  - apply Rdiv_lt_0_compat; [apply Hpos|exact HD].
  - apply (Rmult_le_reg_r (big_sum c f)); [exact HD|].
    unfold Rdiv. rewrite Rmult_assoc, Rinv_l by lra. lra.
Qed.

Lemma inference_output_inv nc self x g y self' g' :
  architecture self = SimpleFCNet_architecture nc \/
  architecture self = SimpleConvNet_architecture nc ->
  training self = false ->
  SimpleFCNet_forward self x g = Ok (y, self', g') ->
  exists logits b,
    forward_logits self x g = Ok (logits, self', g') /\
    softmax logits = Ok y /\ shape logits = [b; nc] /\ shape y = [b; nc].
Proof.
  intros Harch Ht H. unfold SimpleFCNet_forward in H. rewrite Ht in H.
  destruct (Sequential_forward false (layers self) x g) as [[[out ls] g1]|e] eqn:Hseq;
    cbn [bind] in H; [|discriminate].
  destruct (softmax out) as [s|e] eqn:Hsm; cbn [bind] in H; [|discriminate].
  injection H as -> <- <-.
  assert (Hl : forward_logits self x g = Ok (out, mkNet false ls, g1)).
  { unfold forward_logits. rewrite Ht, Hseq. reflexivity. }
  pose proof (forward_logits_shape _ _ _ _ _ _ Hl) as Hshape.
  destruct (classifier_arch_shape _ nc _ _ _ Harch Hshape) as [b Hb].
  exists out, b. split; [exact Hl|]. split; [exact Hsm|]. split; [exact Hb|].
  destruct (softmax_inv out y Hsm) as (_ & _ & _ & _ & ->). exact Hb.
Qed.

(** X8.  In inference mode every score either classifier returns is a
    probability: positive and at most 1. *)
Theorem inference_scores_are_probabilities :
  forall (nc : nat) (self : net) (x : tensor R) (g : rng)
         (y : tensor R) (self' : net) (g' : rng),
    architecture self = SimpleFCNet_architecture nc \/
    architecture self = SimpleConvNet_architecture nc ->
    training self = false ->
    SimpleFCNet_forward self x g = Ok (y, self', g') \/
    SimpleConvNet_forward self x g = Ok (y, self', g') ->
    exists b : nat,
      shape y = [b; nc] /\
      forall i k, (i < b)%nat -> (k < nc)%nat -> (0 < get y (i * nc + k) <= 1)%R.
Proof.
  intros nc self x g y self' g' Ha Ht H.
  assert (H' : SimpleFCNet_forward self x g = Ok (y, self', g'))
    by (destruct H as [H|H]; exact H).
  destruct (inference_output_inv nc self x g y self' g' Ha Ht H')
    as (logits & b & _ & Hsm & Hl & Hy).
  exists b. split; [exact Hy|]. intros i k _ Hk.
  apply (softmax_entry_bounds logits y b nc i k Hsm Hl Hk).
Qed.

(** ** What a forward pass changes *)

Lemma module_forward_parameters train m x g y m' g' :
  module_forward train m x g = Ok (y, m', g') -> parameters m' = parameters m.
Proof.
  unfold module_forward.
  destruct (module_shape train m (shape x)) as [s|e]; cbn [bind]; [|discriminate].
  destruct m; intros H; try (injection H as _ <- _; reflexivity).
  - destruct train; injection H as _ <- _; [|reflexivity].
    unfold batch_norm2d_update.
    destruct (shape x) as [|? [|? [|? [|? [|? ?]]]]]; reflexivity.
  - destruct train; injection H as _ <- _; reflexivity.
Qed.

Lemma Sequential_forward_parameters train ms : forall x g y ms' g',
  Sequential_forward train ms x g = Ok (y, ms', g') ->
  flat_map parameters ms' = flat_map parameters ms.
Proof.
  induction ms as [|m ms IH]; intros x g y ms' g' H; cbn [Sequential_forward] in H.
  - injection H as _ <- _. reflexivity.
  - apply bind_ok in H. destruct H as ([[y1 m1] g1] & Hm & H).
    apply bind_ok in H. destruct H as ([[z ms1] g2] & Hs & H).
    injection H as _ <- _. cbn [flat_map].
    rewrite (module_forward_parameters _ _ _ _ _ _ _ Hm), (IH _ _ _ _ _ Hs). reflexivity.
Qed.

(** X9.  A forward pass of either classifier, in either mode, changes no
    trainable parameter, nor the architecture, nor the mode. *)
Theorem forward_keeps_parameters :
  forall (self : net) (x : tensor R) (g : rng) (y : tensor R) (self' : net) (g' : rng),
    SimpleFCNet_forward self x g = Ok (y, self', g') \/
    SimpleConvNet_forward self x g = Ok (y, self', g') ->
    net_parameters self' = net_parameters self /\
    architecture self' = architecture self /\
    training self' = training self.
Proof.
  intros self x g y self' g' H.
  assert (H' : SimpleFCNet_forward self x g = Ok (y, self', g'))
    by (destruct H as [H|H]; exact H).
  clear H. destruct (SimpleFCNet_forward_arch _ _ _ _ _ _ H') as [Ha Ht].
  split; [|split; assumption].
  unfold SimpleFCNet_forward in H'.
  destruct (Sequential_forward _ _ _ _) as [[[out ls] g1]|e] eqn:Hs; cbn [bind] in H';
    [|discriminate].
  apply Sequential_forward_parameters in Hs. unfold net_parameters.
  destruct (training self).
  - injection H' as _ <- _. exact Hs.
  - destruct (softmax out); cbn [bind] in H'; [|discriminate].
    injection H' as _ <- _. exact Hs.
Qed.

(** ** The dense classifier in its two modes *)

Lemma module_forward_mode_free m x g :
  mode_free (kind_of m) = true ->
  module_forward true m x g = module_forward false m x g
  /\ forall train y m' g', module_forward train m x g = Ok (y, m', g') -> m' = m /\ g' = g.
Proof.
  intros Hm. destruct m; try discriminate; (split; [reflexivity|]);
    intros train y m' g'; unfold module_forward;
    match goal with |- bind ?s _ = _ -> _ => destruct s end; cbn [bind];
    try discriminate; intros H; injection H as _ <- <-; auto.
Qed.

Lemma Sequential_forward_mode_free ms : forall x g,
  forallb mode_free (map kind_of ms) = true ->
  Sequential_forward true ms x g = Sequential_forward false ms x g
  /\ forall train y ms' g',
       Sequential_forward train ms x g = Ok (y, ms', g') -> ms' = ms /\ g' = g.
Proof.
  induction ms as [|m ms IH]; intros x g Hf; cbn [Sequential_forward].
  - split; [reflexivity|]. intros train y ms' g' H. injection H as _ <- <-. auto.
  - cbn [map forallb] in Hf. apply andb_true_iff in Hf. destruct Hf as [Hm Hf].
    destruct (module_forward_mode_free m x g Hm) as [E Hfr]. split.
    + rewrite E.
      destruct (module_forward false m x g) as [[[y1 m1] g1]|e]; cbn [bind]; [|reflexivity].
      rewrite (proj1 (IH y1 g1 Hf)). reflexivity.
    + intros train y ms' g' H.
      apply bind_ok in H. destruct H as ([[y1 m1] g1] & Hm1 & H).
      apply bind_ok in H. destruct H as ([[z ms1] g2] & Hs & H).
      injection H as _ <- <-.
      destruct (Hfr _ _ _ _ Hm1) as [-> ->].
      destruct (proj2 (IH y1 g Hf) _ _ _ _ Hs) as [-> ->]. auto.
Qed.

(** X10.  For the dense classifier a forward pass leaves the module and the
    generator as they were, in either mode, and the output in inference mode
    is the softmax of the output in training mode. *)
Theorem SimpleFCNet_modes_agree :
  forall (nc : nat) (self : net) (x : tensor R) (g : rng),
    architecture self = SimpleFCNet_architecture nc ->
    (forall y self' g',
       SimpleFCNet_forward self x g = Ok (y, self', g') -> self' = self /\ g' = g) /\
    SimpleFCNet_forward (module_eval self) x g
    = bind (SimpleFCNet_forward (module_train self) x g)
        (fun r => bind (softmax (fst (fst r)))
           (fun y => Ok (y, module_eval self, g))).
Proof.
  intros nc self x g Ha.
  assert (Hf : forallb mode_free (map kind_of (layers self)) = true).
  { unfold architecture in Ha. rewrite Ha. reflexivity. }
  destruct (Sequential_forward_mode_free (layers self) x g Hf) as [E Hfr].
  split.
  - intros y self' g' H. unfold SimpleFCNet_forward in H.
    destruct (Sequential_forward (training self) (layers self) x g)
      as [[[out ls] g1]|e] eqn:Hs; cbn [bind] in H; [|discriminate].
    destruct (Hfr _ _ _ _ Hs) as [-> ->].
    destruct (training self) eqn:Ht.
    + injection H as _ <- <-. split; [|reflexivity]. rewrite <- Ht. apply net_eta.
    + destruct (softmax out); cbn [bind] in H; [|discriminate].
      injection H as _ <- <-. split; [|reflexivity]. rewrite <- Ht. apply net_eta.
  - unfold SimpleFCNet_forward. cbn [module_eval module_train training layers].
    rewrite E.
    destruct (Sequential_forward false (layers self) x g) as [[[out ls] g1]|e] eqn:Hs;
      cbn [bind fst]; [|reflexivity].
    destruct (Hfr _ _ _ _ Hs) as [-> ->]. reflexivity.
Qed.

(** ** Dropout on the class scores *)

Lemma Sequential_forward_app train ms1 ms2 : forall x g,
  Sequential_forward train (ms1 ++ ms2) x g
  = bind (Sequential_forward train ms1 x g) (fun r1 =>
      bind (Sequential_forward train ms2 (fst (fst r1)) (snd r1)) (fun r2 =>
        Ok (fst (fst r2), snd (fst r1) ++ snd (fst r2), snd r2))).
Proof.
  induction ms1 as [|m ms1 IH]; intros x g; cbn [app Sequential_forward bind fst snd].
  - destruct (Sequential_forward train ms2 x g) as [[[z ms'] g2]|e]; reflexivity.
  - destruct (module_forward train m x g) as [[[y m'] g1]|e]; cbn [bind]; [|reflexivity].
    rewrite IH.
    destruct (Sequential_forward train ms1 y g1) as [[[z ms'] g2]|e]; cbn [bind fst snd];
      [|reflexivity].
    destruct (Sequential_forward train ms2 z g2) as [[[z' ms''] g3]|e]; reflexivity.
Qed.

Lemma Sequential_forward_no_dropout train ms : forall x g y ms' g',
  ~ In KDropout (map kind_of ms) ->
  Sequential_forward train ms x g = Ok (y, ms', g') -> g' = g.
Proof.
  induction ms as [|m ms IH]; intros x g y ms' g' Hn H; cbn [Sequential_forward] in H.
  - injection H as _ _ <-. reflexivity.
  - apply bind_ok in H. destruct H as ([[y1 m1] g1] & Hm & H).
    apply bind_ok in H. destruct H as ([[z ms1] g2] & Hs & H).
    injection H as _ _ <-. cbn [map In] in Hn.
    apply IH in Hs; [|tauto]. subst g2.
    unfold module_forward in Hm.
    destruct (module_shape train m (shape x)); cbn [bind] in Hm; [|discriminate].
    destruct m; try (injection Hm as _ _ <-; reflexivity).
    exfalso. apply Hn. left. reflexivity.
Qed.

Lemma SimpleConvNet_init_layers input_shape num_classes g self g' :
  SimpleConvNet_init input_shape num_classes g = Ok (self, g') ->
  training self = true /\
  layers self = removelast (layers self) ++ [Dropout (2 / 10)%R] /\
  map kind_of (removelast (layers self))
  = SimpleConvNet_features
    ++ [KLinear 1152 256; KReLU; KLinear 256 128; KReLU;
        KLinear 128 (Z.to_nat num_classes)].
Proof.
  intros H. unfold SimpleConvNet_init in H.
  destruct (nn_Conv2d 3 16 3 1 g) as [conv1 g1] eqn:E1.
  destruct (nn_Conv2d 16 32 3 1 g1) as [conv2 g2] eqn:E2.
  apply bind_ok in H. destruct H as ([fc1 g3] & H1 & H).
  apply bind_ok in H. destruct H as ([fc2 g4] & H2 & H).
  apply bind_ok in H. destruct H as ([fc3 g5] & H3 & H).
  apply Ok_pair_inj in H. destruct H as [<- _].
  apply nn_Linear_inv in H1. destruct H1 as (_ & _ & _ & _ & a1 & c1 & -> & _).
  apply nn_Linear_inv in H2. destruct H2 as (_ & _ & _ & _ & a2 & c2 & -> & _).
  apply nn_Linear_inv in H3. destruct H3 as (_ & _ & _ & _ & a3 & c3 & -> & _).
  unfold nn_Conv2d in E1, E2.
  destruct (kaiming_uniform_ [16; 3; 3; 3]%nat _ g) as [cw1 ?].
  destruct (kaiming_uniform_ [32; 16; 3; 3]%nat _ g1) as [cw2 ?].
  simpl in E1, E2. inversion E1; inversion E2; subst.
  split; [reflexivity|]. split; reflexivity.
Qed.

(** X11.  In training mode the scores that the convolutional classifier returns
    are not the outputs of its last dense layer: dropout is applied to them.
    Each score is the dense output times 5/4 when its sample of the generator is
    below 8/10 and zero otherwise, and the call uses one sample per score. *)
Theorem SimpleConvNet_training_drops_scores :
  forall (input_shape : Z * Z) (num_classes : Z) (g0 : rng) (self : net) (g0' : rng)
         (x : tensor R) (g : rng) (y : tensor R) (self' : net) (g' : rng),
    SimpleConvNet_init input_shape num_classes g0 = Ok (self, g0') ->
    SimpleConvNet_forward self x g = Ok (y, self', g') ->
    exists (dense : tensor R) (b : nat),
      Sequential_forward true (removelast (layers self)) x g
      = Ok (dense, removelast (layers self'), g) /\
      shape dense = [b; Z.to_nat num_classes] /\
      shape y = [b; Z.to_nat num_classes] /\
      g' = skip g (b * Z.to_nat num_classes) /\
      forall q : nat,
        ((stream g (pos g + q) < 8 / 10)%R -> get y q = (get dense q * (5 / 4))%R) /\
        ((8 / 10 <= stream g (pos g + q))%R -> get y q = 0%R).
Proof.
  intros input_shape num_classes g0 self g0' x g y self' g' Hi H.
  destruct (SimpleConvNet_init_layers _ _ _ _ _ Hi) as (Ht & Hl & Hk).
  set (nc := Z.to_nat num_classes) in *.
  unfold SimpleConvNet_forward in H. rewrite Ht, Hl in H.
  rewrite Sequential_forward_app in H.
  destruct (Sequential_forward true (removelast (layers self)) x g)
    as [[[dense pre'] g1]|e] eqn:Hpre; cbn [bind fst snd] in H; [|discriminate].
  assert (Hg1 : g1 = g).
  { apply (Sequential_forward_no_dropout true _ _ _ _ _ _) in Hpre; [exact Hpre|].
    rewrite Hk. unfold SimpleConvNet_features. cbn [app In].
    intros F. repeat (destruct F as [F|F]; [discriminate|]). exact F. }
  subst g1.
  assert (Hshape : exists b, shape dense = [b; nc]).
  { pose proof (Sequential_forward_shape true (removelast (layers self)) x g) as Hs.
    rewrite Hpre in Hs. cbn [rmap fst] in Hs.
    rewrite Sequential_shape_arch, Hk in Hs. symmetry in Hs.
    rewrite arch_shape_app in Hs.
    apply bind_ok in Hs. destruct Hs as (s1 & H1 & Hs).
    change SimpleConvNet_features
      with ([KConv2d 3 16 3 1; KBatchNorm2d 16; KReLU; KMaxPool2d 2 2;
             KConv2d 16 32 3 1; KBatchNorm2d 32; KReLU; KMaxPool2d 2 2] ++ [KFlatten]) in H1.
    apply arch_shape_flatten_last in H1. destruct H1 as (n & d & ->).
    change [KLinear 1152 256; KReLU; KLinear 256 128; KReLU; KLinear 128 nc]
      with ([KLinear 1152 256; KReLU; KLinear 256 128; KReLU; KLinear 128 nc] ++ []) in Hs.
    apply dense_head_shape in Hs; [|left; reflexivity].
    exists n. exact Hs. }
  destruct Hshape as [b Hb].
  cbn [Sequential_forward] in H. unfold module_forward in H.
  cbn [module_shape bind] in H.
  injection H as <- <- <-.
  exists dense, b. cbn [layers].
  rewrite removelast_last. split; [reflexivity|]. split; [exact Hb|].
  cbn [shape]. split; [exact Hb|]. split.
  { unfold skip. rewrite Hb, numel_2. reflexivity. }
  intros q. unfold get at 1 3. cbn [data]. unfold dropout_data.
  destruct (Rlt_dec (stream g (pos g + q)) (1 - 2 / 10)) as [Hlt|Hge]; split; intros Hq.
  - field.
  - exfalso. lra.
  - exfalso. lra.
  - reflexivity.
Qed.

(** ** The dense classifier right after construction *)

Lemma big_sum_scale n (f : nat -> R) c :
  big_sum n (fun k => (c * f k)%R) = (c * big_sum n f)%R.
Proof.
  induction n as [|n IH]; cbn [big_sum]; [ring|]. rewrite IH. ring.
Qed.

Lemma Rmax_scale c v : (0 <= c)%R -> Rmax 0 (c * v) = (c * Rmax 0 v)%R.
Proof.
  intros Hc. rewrite <- (Rmult_0_r c) at 1. apply RmaxRmult. exact Hc.
Qed.

Lemma module_forward_scaled train m c x x' g y m' g' :
  (0 <= c)%R -> bias_free m -> scaled c x x' ->
  module_forward train m x g = Ok (y, m', g') ->
  exists y', module_forward train m x' g = Ok (y', m', g') /\ scaled c y y'.
Proof.
  intros Hc Hm [Hs Hd] H. unfold module_forward in *. rewrite Hs.
  destruct (module_shape train m (shape x)) as [s|e]; cbn [bind] in *; [|discriminate].
  destruct m; cbn [bias_free] in Hm; try contradiction.
  - injection H as <- <- <-. eexists. split; [reflexivity|].
    split; [reflexivity|]. intros q. apply Hd.
  - injection H as <- <- <-. eexists. split; [reflexivity|].
    split; [reflexivity|]. intros q. unfold get at 1 2. cbn [data]. unfold linear_data.
    rewrite (big_sum_ext in_features _
               (fun k => (c * (get x (q / out_features * in_features + k)
                               * get weight (q mod out_features * in_features + k)))%R))
      by (intros k _; rewrite Hd; ring).
    rewrite big_sum_scale.
    destruct bias as [b|]; [rewrite Hm; ring|reflexivity].
  - injection H as <- <- <-. eexists. split; [reflexivity|].
    split; [reflexivity|]. intros q. unfold get at 1 2. cbn [data]. unfold relu_data.
    rewrite Hd. apply Rmax_scale. exact Hc.
Qed.

Lemma Sequential_forward_scaled train c ms : forall x x' g y ms' g',
  (0 <= c)%R -> Forall bias_free ms -> scaled c x x' ->
  Sequential_forward train ms x g = Ok (y, ms', g') ->
  exists y', Sequential_forward train ms x' g = Ok (y', ms', g') /\ scaled c y y'.
Proof.
  induction ms as [|m ms IH]; intros x x' g y ms' g' Hc Hb Hx H;
    cbn [Sequential_forward] in *.
  - injection H as <- <- <-. eauto.
  - inversion Hb as [|? ? Hm Hms]; subst.
    apply bind_ok in H. destruct H as ([[y1 m1] g1] & H1 & H).
    apply bind_ok in H. destruct H as ([[z ms1] g2] & H2 & H).
    injection H as <- <- <-.
    destruct (module_forward_scaled _ _ _ _ _ _ _ _ _ Hc Hm Hx H1) as (y1' & -> & Hy1).
    cbn [bind].
    destruct (IH _ _ _ _ _ _ Hc Hms Hy1 H2) as (z' & -> & Hz).
    cbn [bind]. eauto.
Qed.

(** X12.  The dense classifier as [SimpleFCNet.__init__] returns it has no
    additive term, so its logits scale with its input: multiplying every entry
    of the input by a factor [c >= 0] multiplies every logit by [c]. On an
    all-zero input every logit is zero. *)
Theorem SimpleFCNet_fresh_logits_scale :
  forall (input_shape : Z * Z) (num_classes : Z) (g0 : rng) (self : net) (g0' : rng)
         (x : tensor R) (g : rng) (y : tensor R) (self' : net) (g' : rng),
    SimpleFCNet_init input_shape num_classes g0 = Ok (self, g0') ->
    SimpleFCNet_forward self x g = Ok (y, self', g') ->
    (forall (c : R) (x' : tensor R),
       (0 <= c)%R -> scaled c x x' ->
       exists y', SimpleFCNet_forward self x' g = Ok (y', self', g') /\ scaled c y y') /\
    ((forall q, get x q = 0%R) -> forall q, get y q = 0%R).
Proof.
  intros input_shape num_classes g0 self g0' x g y self' g' Hi H.
  apply SimpleFCNet_init_inv in Hi.
  destruct Hi as (_ & Ht & w1 & w2 & w3 & Hl & _).
  assert (Hb : Forall bias_free (layers self)).
  { rewrite Hl. repeat constructor; intros k; reflexivity. }
  unfold SimpleFCNet_forward in *. rewrite Ht in *.
  destruct (Sequential_forward true (layers self) x g) as [[[out ls] g1]|e] eqn:Hs;
    cbn [bind] in H; [|discriminate].
  injection H as <- <- <-.
  assert (Hscale : forall c x', (0 <= c)%R -> scaled c x x' ->
            exists y', Sequential_forward true (layers self) x' g = Ok (y', ls, g1)
                       /\ scaled c out y').
  { intros c x' Hc Hx. exact (Sequential_forward_scaled _ _ _ _ _ _ _ _ _ Hc Hb Hx Hs). }
  split.
  - intros c x' Hc Hx. destruct (Hscale c x' Hc Hx) as (y' & -> & Hy).
    cbn [bind]. eauto.
  - intros Hz q.
    destruct (Hscale 0%R x (Rle_refl 0)) as (y' & Hy' & _ & Hy).
    { split; [reflexivity|]. intros k. rewrite Hz. ring. }
    rewrite Hs in Hy'. injection Hy' as <-. rewrite Hy. ring.
Qed.

(** ** All right, all wrong, and the order of the batches *)

Lemma count_upto_all n f :
  count_upto n f = Z.of_nat n <-> forall i, (i < n)%nat -> f i = true.
Proof.
  induction n as [|n IH]; cbn [count_upto].
  - split; [intros _ i Hi; lia|reflexivity].
  - pose proof (count_upto_bounds n f) as Hb. split.
    + intros H i Hi. destruct (f n) eqn:E; [|lia].
      destruct (Nat.eq_dec i n) as [->|Hne]; [exact E|].
      apply IH; lia.
    + intros H. rewrite (H n) by lia.
      rewrite (proj2 IH) by (intros i Hi; apply H; lia). lia.
Qed.

Lemma count_upto_none n f :
  count_upto n f = 0%Z <-> forall i, (i < n)%nat -> f i = false.
Proof.
  induction n as [|n IH]; cbn [count_upto].
  - split; [intros _ i Hi; lia|reflexivity].
  - pose proof (count_upto_bounds n f) as Hb. split.
    + intros H i Hi. destruct (f n) eqn:E; [lia|].
      destruct (Nat.eq_dec i n) as [->|Hne]; [exact E|].
      apply IH; lia.
    + intros H. rewrite (H n) by lia.
      rewrite (proj2 IH) by (intros i Hi; apply H; lia). lia.
Qed.

Lemma total_correct_all ots :
  total_correct ots = Z.of_nat (total_samples ots) <->
  forall out target i, In (out, target) ots -> (i < hd 0%nat (shape out))%nat ->
    predicted_class out i = data target i.
Proof.
  induction ots as [|[out target] ots IH]; cbn [total_correct total_samples fold_right fst].
  - split; [intros _ ? ? ? []|reflexivity].
  - fold (total_correct ots). fold (total_samples ots).
    pose proof (num_correct_bounds out target) as Hb.
    pose proof (total_correct_bounds ots) as Hbs. split.
    + intros H out' target' i [E|Hin] Hi.
      * injection E as <- <-.
        assert (Hn : num_correct (out, target) = Z.of_nat (hd 0%nat (shape out))) by lia.
        unfold num_correct in Hn. rewrite count_upto_all in Hn.
        apply Z.eqb_eq. apply Hn. exact Hi.
      * apply (proj1 IH ltac:(lia) out' target' i Hin Hi).
    + intros H.
      assert (Hn : num_correct (out, target) = Z.of_nat (hd 0%nat (shape out))).
      { unfold num_correct. apply count_upto_all. intros i Hi.
        apply Z.eqb_eq. apply (H out target i); [left; reflexivity|exact Hi]. }
      rewrite Hn, (proj2 IH); [lia|].
      intros out' target' i Hin Hi. apply (H out' target' i); [right; exact Hin|exact Hi].
Qed.

Lemma total_correct_none ots :
  total_correct ots = 0%Z <->
  forall out target i, In (out, target) ots -> (i < hd 0%nat (shape out))%nat ->
    predicted_class out i <> data target i.
Proof.
  induction ots as [|[out target] ots IH]; cbn [total_correct fold_right].
  - split; [intros _ ? ? ? []|reflexivity].
  - fold (total_correct ots).
    pose proof (num_correct_bounds out target) as Hb.
    pose proof (total_correct_bounds ots) as Hbs. split.
    + intros H out' target' i [E|Hin] Hi.
      * injection E as <- <-.
        assert (Hn : num_correct (out, target) = 0%Z) by lia.
        unfold num_correct in Hn. rewrite count_upto_none in Hn.
        apply Z.eqb_neq. apply Hn. exact Hi.
      * apply (proj1 IH ltac:(lia) out' target' i Hin Hi).
    + intros H.
      assert (Hn : num_correct (out, target) = 0%Z).
      { unfold num_correct. apply count_upto_none. intros i Hi.
        apply Z.eqb_neq. apply (H out target i); [left; reflexivity|exact Hi]. }
      rewrite Hn, (proj2 IH); [lia|].
      intros out' target' i Hin Hi. apply (H out' target' i); [right; exact Hin|exact Hi].
Qed.

Section Extremes.

Variables M G Opt : Type.
Variable cls : Classifier M.

(** X13.  When the batches hold exactly the samples of the data set,
    [test_model] returns 1 exactly when every example is predicted as labelled,
    and 0 exactly when none is. *)
Theorem test_model_all_or_none :
  forall (w : world M G Opt) (test_loader : DataLoader) (epoch : Z)
         (outs : list (tensor R * tensor Z)) (w' : world M G Opt),
    eval_outputs cls (batches test_loader)
      (set_grad_enabled false (set_model (model_eval cls (w_model w)) w))
    = Ok (outs, w') ->
    Forall scores_and_labels outs ->
    (0 < dataset_len test_loader)%nat ->
    total_samples outs = dataset_len test_loader ->
    exists (test_acc : Q) (w'' : world M G Opt),
      test_model cls w test_loader epoch = Ok (test_acc, w'') /\
      ((test_acc == 1)%Q <->
       forall out target i, In (out, target) outs -> (i < hd 0%nat (shape out))%nat ->
         predicted_class out i = data target i) /\
      ((test_acc == 0)%Q <->
       forall out target i, In (out, target) outs -> (i < hd 0%nat (shape out))%nat ->
         predicted_class out i <> data target i).
Proof.
  intros w test_loader epoch outs w' H HF Hpos Hn.
  rewrite (test_model_unfold M G Opt cls w test_loader epoch outs w' H HF Hpos).
  eexists. eexists. split; [reflexivity|].
  assert (Hp : Z.pos (Pos.of_nat (dataset_len test_loader))
               = Z.of_nat (dataset_len test_loader)).
  { destruct (dataset_len test_loader) as [|n]; [lia|].
    rewrite <- Pos.of_nat_succ. lia. }
  split.
  - rewrite <- total_correct_all, Hn. unfold Qeq. cbn [Qnum Qden]. rewrite Hp. lia.
  - rewrite <- total_correct_none. unfold Qeq. cbn [Qnum Qden]. lia.
Qed.

End Extremes.

Section BatchOrder.

Variables G Opt : Type.

Lemma test_step_frame (w : world net G Opt) (b : batch) k w1 :
  training (w_model w) = false ->
  w_grad_enabled w = false ->
  test_step SimpleFCNet w b = Ok (k, w1) -> w1 = w.
Proof.
  intros Ht Hg H. destruct b as [input target]. unfold test_step in H.
  apply bind_ok in H. destruct H as ([out w1'] & Hc & H).
  apply call_model_inference in Hc; [|assumption|assumption]. subst w1'.
  destruct (max_dim1 out) as [pred|e]; cbn [bind] in H; [|discriminate].
  destruct (view_as target pred) as [t'|e]; cbn [bind] in H; [|discriminate].
  apply Ok_pair_inj in H. destruct H as [_ <-]. reflexivity.
Qed.

Lemma test_loop_permutation (w : world net G Opt) (bs bs' : list batch) :
  training (w_model w) = false ->
  w_grad_enabled w = false ->
  Permutation bs bs' ->
  forall c c' w', test_loop SimpleFCNet bs w c = Ok (c', w') ->
                  test_loop SimpleFCNet bs' w c = Ok (c', w').
Proof.
  intros Ht Hg HP. induction HP as [|b l l' HP IH|a b l|l l' l'' HP1 IH1 HP2 IH2];
    intros c c' w' H.
  - exact H.
  - cbn [test_loop] in *.
    destruct (test_step SimpleFCNet w b) as [[k w1]|e] eqn:Hs; cbn [bind] in *;
      [|discriminate].
    pose proof (test_step_frame _ _ _ _ Ht Hg Hs) as ->. apply IH. exact H.
  - cbn [test_loop] in *.
    destruct (test_step SimpleFCNet w b) as [[kb w1]|e] eqn:Hb; cbn [bind] in *;
      [|discriminate].
    pose proof (test_step_frame _ _ _ _ Ht Hg Hb) as ->.
    destruct (test_step SimpleFCNet w a) as [[ka w2]|e] eqn:Ha; cbn [bind] in *;
      [|discriminate].
    pose proof (test_step_frame _ _ _ _ Ht Hg Ha) as ->.
    rewrite Hb. cbn [bind].
    replace (c + ka + kb)%Z with (c + kb + ka)%Z by lia. exact H.
  - apply IH2. apply IH1. exact H.
Qed.

(** X14.  The accuracy does not depend on the order of the batches: for either
    classifier, when [test_model] returns on a data source it returns the same
    accuracy and final state on every reordering of its batches. *)
Theorem test_model_batch_order :
  forall (cls : Classifier net) (w : world net G Opt) (test_loader : DataLoader)
         (bs' : list batch) (epoch : Z) (test_acc : Q) (w' : world net G Opt),
    cls = SimpleFCNet \/ cls = SimpleConvNet ->
    Permutation (batches test_loader) bs' ->
    test_model cls w test_loader epoch = Ok (test_acc, w') ->
    test_model cls w (mkLoader bs' (dataset_len test_loader)) epoch = Ok (test_acc, w').
Proof.
  intros cls w test_loader bs' epoch test_acc w' Hcls HP H.
  assert (Hc : cls = SimpleFCNet) by (destruct Hcls as [->| ->]; reflexivity).
  subst cls. clear Hcls. unfold test_model in *. cbn [batches dataset_len].
  apply bind_ok in H. destruct H as ([correct w1] & Hloop & H).
  rewrite (test_loop_permutation
             (set_grad_enabled false (set_model (model_eval SimpleFCNet (w_model w)) w))
             (batches test_loader) bs' eq_refl eq_refl HP _ _ _ Hloop).
  cbn [bind]. exact H.
Qed.

End BatchOrder.

(** ** What a training epoch depends on *)

Section TrainingInputs.

Variables M G Opt L : Type.
Variable cls : Classifier M.
Variable optimizer_zero_grad : G -> G.
Variable optimizer_step : Opt -> M -> G -> result (Opt * M).
Variable criterion : tensor R -> tensor Z -> result L.
Variable loss_backward : L -> M -> G -> result G.
Variable loss_item : L -> R.

(** X15.  When the optimizer's [zero_grad] resets the gradients to one value,
    the gradients present before [train_model] is called have no effect on what
    it returns or on the state it leaves. *)
Theorem train_model_ignores_stale_gradients :
  forall (zero : G) (w : world M G Opt) (stale : G) (train_loader : DataLoader)
         (epoch : Z),
    (forall grads, optimizer_zero_grad grads = zero) ->
    train_model cls optimizer_zero_grad optimizer_step criterion loss_backward
      loss_item (set_grads stale w) train_loader epoch
    = train_model cls optimizer_zero_grad optimizer_step criterion loss_backward
        loss_item w train_loader epoch.
Proof.
  intros zero w stale train_loader epoch Hz. unfold train_model, len.
  destruct (batches train_loader) as [|[input target] bs] eqn:E; [reflexivity|].
  cbn [train_loop]. unfold train_step.
  cbn [set_model set_grads w_model w_grads w_optim w_rng w_grad_enabled w_graphs w_stdout].
  rewrite !Hz. reflexivity.
Qed.

End TrainingInputs.

(** ** Evaluation before training *)

(** A stack without normalization and dropout computes its output from its
    input alone, in either mode. *)
Lemma forward_mode_free self x :
  forallb mode_free (architecture self) = true ->
  exists r : result (tensor R),
    forall g, SimpleFCNet_forward self x g = rmap (fun y => (y, self, g)) r.
Proof.
  intros Hf. destruct (Sequential_forward_inference (layers self)) as [F HF].
  exists (bind (F x) (fun out => if training self then Ok out else softmax out)).
  intros g. unfold SimpleFCNet_forward.
  assert (E : Sequential_forward (training self) (layers self) x g
              = Sequential_forward false (layers self) x g).
  { destruct (training self); [|reflexivity].
    apply (Sequential_forward_mode_free (layers self) x g Hf). }
  rewrite E, HF.
  destruct (F x) as [out|e]; cbn [rmap bind]; [|reflexivity].
  destruct (training self) eqn:Ht.
  - cbn [rmap]. rewrite <- Ht, net_eta. reflexivity.
  - destruct (softmax out); cbn [rmap bind]; [|reflexivity].
    rewrite <- Ht, net_eta. reflexivity.
Qed.

Section EvaluationThenTraining.

Variables G Opt L : Type.
Variable optimizer_zero_grad : G -> G.
Variable optimizer_step : Opt -> net -> G -> result (Opt * net).
Variable criterion : tensor R -> tensor Z -> result L.
Variable loss_backward : L -> net -> G -> result G.
Variable loss_item : L -> R.

Hypothesis optimizer_keeps_architecture :
  forall o m gr o' m',
    optimizer_step o m gr = Ok (o', m') -> architecture m' = architecture m.

Lemma test_model_inv (w : world net G Opt) (test_loader : DataLoader) (epoch : Z)
    (test_acc : Q) (w1 : world net G Opt) :
  test_model SimpleFCNet w test_loader epoch = Ok (test_acc, w1) ->
  w1 = print (TestingReport (epoch + 1) (100 * test_acc)%Q)
         (set_model (module_eval (w_model w)) w).
Proof.
  intros H. unfold test_model in H.
  apply bind_ok in H. destruct H as ([correct w0] & Hloop & H).
  apply test_loop_frame in Hloop; [|reflexivity|reflexivity]. subst w0.
  destruct (dataset_len test_loader =? 0)%nat; [discriminate|].
  apply Ok_pair_inj in H. destruct H as [<- <-]. reflexivity.
Qed.

Lemma train_step_learning_state (a b : world net G Opt) (bt : batch) :
  forallb mode_free (architecture (w_model a)) = true ->
  same_learning_state a b ->
  match train_step SimpleFCNet optimizer_zero_grad optimizer_step criterion
          loss_backward loss_item a bt with
  | Ok (l, a') =>
      exists b',
        train_step SimpleFCNet optimizer_zero_grad optimizer_step criterion
          loss_backward loss_item b bt = Ok (l, b')
        /\ same_learning_state a' b'
        /\ architecture (w_model a') = architecture (w_model a)
  | Err e =>
      train_step SimpleFCNet optimizer_zero_grad optimizer_step criterion
        loss_backward loss_item b bt = Err e
  end.
Proof.
  intros Hf (Hm & Hg & Ho & He & Hn). destruct bt as [input target].
  unfold train_step, call_model.
  cbn [model_call SimpleFCNet w_model w_grads w_optim w_rng w_grad_enabled w_graphs
       w_stdout].
  destruct (forward_mode_free (w_model a) input Hf) as [r Hr].
  rewrite <- Hm, <- Hg, <- Ho, <- He, <- Hn, !Hr.
  destruct r as [out|e]; cbn [rmap bind]; [|reflexivity].
  cbn [w_model w_grads w_optim w_rng w_grad_enabled w_graphs w_stdout].
  destruct (criterion out target) as [loss|e]; cbn [bind]; [|reflexivity].
  destruct (loss_backward loss (w_model a) (optimizer_zero_grad (w_grads a)))
    as [grads|e]; cbn [bind]; [|reflexivity].
  destruct (optimizer_step (w_optim a) (w_model a) grads) as [[o' m']|e] eqn:Hs;
    cbn [bind]; [|reflexivity].
  eexists. split; [reflexivity|]. split.
  - repeat split; reflexivity.
  - cbn [w_model]. exact (optimizer_keeps_architecture _ _ _ _ _ Hs).
Qed.

Lemma train_loop_learning_state (bs : list batch) :
  forall (a b : world net G Opt) (acc : R),
    forallb mode_free (architecture (w_model a)) = true ->
    same_learning_state a b ->
    match train_loop SimpleFCNet optimizer_zero_grad optimizer_step criterion
            loss_backward loss_item bs a acc with
    | Ok (l, a') =>
        exists b',
          train_loop SimpleFCNet optimizer_zero_grad optimizer_step criterion
            loss_backward loss_item bs b acc = Ok (l, b')
          /\ same_learning_state a' b'
    | Err e =>
        train_loop SimpleFCNet optimizer_zero_grad optimizer_step criterion
          loss_backward loss_item bs b acc = Err e
    end.
Proof.
  induction bs as [|bt bs IH]; intros a b acc Hf Hs; cbn [train_loop].
  - eexists. split; [reflexivity|exact Hs].
  - pose proof (train_step_learning_state a b bt Hf Hs) as Hstep.
    destruct (train_step SimpleFCNet optimizer_zero_grad optimizer_step criterion
                loss_backward loss_item a bt) as [[l a1]|e]; cbn [bind].
    + destruct Hstep as (b1 & -> & Hs1 & Ha1). cbn [bind].
      apply IH; [rewrite Ha1; exact Hf|exact Hs1].
    + rewrite Hstep. reflexivity.
Qed.

(** X16.  For the dense classifier an evaluation epoch does not change what the
    next training epoch computes from the same batches, whatever the state in
    which the evaluation leaves the random generator: after [test_model] has
    returned, [train_model] returns the loss, or raises, as it would have
    without the evaluation, and leaves the same model, gradients and optimizer
    state. The optimizer is one that changes parameters, not the layers. *)
Theorem test_model_then_train_model :
  forall (nc : nat) (w : world net G Opt) (test_loader : DataLoader)
         (epoch : Z) (test_acc : Q) (w1 : world net G Opt) (g : rng)
         (train_loader : DataLoader) (epoch' : Z),
    architecture (w_model w) = SimpleFCNet_architecture nc ->
    test_model SimpleFCNet w test_loader epoch = Ok (test_acc, w1) ->
    (forall loss w2,
       train_model SimpleFCNet optimizer_zero_grad optimizer_step criterion
         loss_backward loss_item w train_loader epoch' = Ok (loss, w2) ->
       exists w2',
         train_model SimpleFCNet optimizer_zero_grad optimizer_step criterion
           loss_backward loss_item (set_rng g w1) train_loader epoch' = Ok (loss, w2')
         /\ same_learning_state w2 w2') /\
    (forall e,
       train_model SimpleFCNet optimizer_zero_grad optimizer_step criterion
         loss_backward loss_item w train_loader epoch' = Err e ->
       train_model SimpleFCNet optimizer_zero_grad optimizer_step criterion
         loss_backward loss_item (set_rng g w1) train_loader epoch' = Err e).
Proof.
  intros nc w test_loader epoch test_acc w1 g train_loader epoch' Ha H.
  apply test_model_inv in H. subst w1.
  set (r := TestingReport (epoch + 1) (100 * test_acc)%Q).
  set (a := set_model (model_train SimpleFCNet (w_model w)) w).
  set (b := set_model (model_train SimpleFCNet
                         (w_model (set_rng g (print r (set_model (module_eval (w_model w)) w)))))
              (set_rng g (print r (set_model (module_eval (w_model w)) w)))).
  assert (Hf : forallb mode_free (architecture (w_model a)) = true).
  { unfold a. cbn [set_model w_model model_train SimpleFCNet].
    change (architecture (module_train (w_model w))) with (architecture (w_model w)).
    rewrite Ha. reflexivity. }
  assert (Hs : same_learning_state a b) by (repeat split; reflexivity).
  pose proof (train_loop_learning_state (batches train_loader) a b 0%R Hf Hs) as Hloop.
  unfold train_model. fold a. fold b.
  destruct (train_loop SimpleFCNet optimizer_zero_grad optimizer_step criterion
              loss_backward loss_item (batches train_loader) a 0%R) as [[l a']|e0];
    cbn [bind].
  - destruct Hloop as (b' & -> & Hs'). cbn [bind].
    destruct (len train_loader =? 0)%nat.
    + split; [intros ? ? Hx; discriminate|intros e Hx; exact Hx].
    + split; [|intros e Hx; discriminate].
      intros loss w2 Hx. apply Ok_pair_inj in Hx. destruct Hx as [<- <-].
      eexists. split; [reflexivity|].
      destruct Hs' as (S1 & S2 & S3 & S4 & S5). repeat split; assumption.
  - rewrite Hloop. cbn [bind].
    split; [intros ? ? Hx; discriminate|intros e Hx; exact Hx].
Qed.

End EvaluationThenTraining.

(** ** Class counts the constructors accept *)

Lemma SimpleFCNet_init_neg input_shape num_classes g :
  (num_classes < 0)%Z -> SimpleFCNet_init input_shape num_classes g = Err RuntimeError.
Proof.
  intros Hn. unfold SimpleFCNet_init.
  destruct (nn_Linear_ok 784 128 g) as (a1 & c1 & g1 & -> & _); [lia|lia|]. cbn [bind].
  destruct (nn_Linear_ok 128 64 g1) as (a2 & c2 & g2 & -> & _); [lia|lia|]. cbn [bind].
  rewrite nn_Linear_neg by assumption. reflexivity.
Qed.

Lemma SimpleConvNet_init_neg input_shape num_classes g :
  (num_classes < 0)%Z -> SimpleConvNet_init input_shape num_classes g = Err RuntimeError.
Proof.
  intros Hn. unfold SimpleConvNet_init.
  destruct (nn_Conv2d 3 16 3 1 g) as [conv1 g1].
  destruct (nn_Conv2d 16 32 3 1 g1) as [conv2 g2].
  destruct (nn_Linear_ok 1152 256 g2) as (a1 & c1 & g3 & -> & _); [lia|lia|]. cbn [bind].
  destruct (nn_Linear_ok 256 128 g3) as (a2 & c2 & g4 & -> & _); [lia|lia|]. cbn [bind].
  rewrite nn_Linear_neg by assumption. reflexivity.
Qed.

(** X17.  Either constructor returns a classifier exactly when the class count
    is not negative, zero included, whatever input shape is given; for a
    negative class count it raises the [RuntimeError] of the last dense layer's
    allocation. *)
Theorem constructors_return_iff :
  forall (input_shape : Z * Z) (num_classes : Z) (g : rng),
    ((exists self g', SimpleFCNet_init input_shape num_classes g = Ok (self, g'))
     <-> (0 <= num_classes)%Z) /\
    ((exists self g', SimpleConvNet_init input_shape num_classes g = Ok (self, g'))
     <-> (0 <= num_classes)%Z) /\
    (SimpleFCNet_init input_shape num_classes g = Err RuntimeError
     <-> (num_classes < 0)%Z) /\
    (SimpleConvNet_init input_shape num_classes g = Err RuntimeError
     <-> (num_classes < 0)%Z).
Proof.
  intros input_shape num_classes g.
  split; [|split; [|split]].
  - split.
    + intros (self & g' & H). apply SimpleFCNet_init_inv in H. tauto.
    + apply SimpleFCNet_init_ok.
  - split.
    + intros (self & g' & H). apply SimpleConvNet_init_inv in H. tauto.
    + intros Hn.
      destruct (SimpleConvNet_init_ok input_shape num_classes g Hn) as (self & g' & E & _).
      eauto.
  - split; [|apply SimpleFCNet_init_neg].
    intros H. destruct (Z.lt_ge_cases num_classes 0) as [Hneg|Hpos]; [exact Hneg|].
    destruct (SimpleFCNet_init_ok input_shape num_classes g Hpos) as (self & g' & E).
    rewrite E in H. discriminate.
  - split; [|apply SimpleConvNet_init_neg].
    intros H. destruct (Z.lt_ge_cases num_classes 0) as [Hneg|Hpos]; [exact Hneg|].
    destruct (SimpleConvNet_init_ok input_shape num_classes g Hpos) as (self & g' & E & _).
    rewrite E in H. discriminate.
Qed.

(** ** Rounding to single precision *)

(** *** Powers of two *)

Lemma bpow_pos e : (0 < powerRZ 2 e)%R.
Proof. apply powerRZ_lt. lra. Qed.

Lemma bpow_add a b : powerRZ 2 (a + b) = (powerRZ 2 a * powerRZ 2 b)%R.
Proof. apply powerRZ_add. lra. Qed.

Lemma bpow_exp e : powerRZ 2 e = exp (IZR e * ln 2).
Proof. rewrite powerRZ_Rpower by lra. reflexivity. Qed.

Lemma ln2_pos : (0 < ln 2)%R.
Proof. pose proof ln_lt_2. lra. Qed.

Lemma bpow_lt a b : (a < b)%Z -> (powerRZ 2 a < powerRZ 2 b)%R.
Proof.
  intros H. rewrite !bpow_exp. apply exp_increasing.
  apply Rmult_lt_compat_r; [apply ln2_pos|apply IZR_lt; exact H].
Qed.

Lemma bpow_le a b : (a <= b)%Z -> (powerRZ 2 a <= powerRZ 2 b)%R.
Proof.
  intros H. destruct (Z.eq_dec a b) as [->|Hne]; [lra|].
  left. apply bpow_lt. lia.
Qed.

Lemma bpow_lt_inv a b : (powerRZ 2 a < powerRZ 2 b)%R -> (a < b)%Z.
Proof.
  intros H. destruct (Z.lt_ge_cases a b) as [Hlt|Hge]; [exact Hlt|].
  pose proof (bpow_le b a Hge). lra.
Qed.

Lemma bpow_IZR e : (0 <= e)%Z -> powerRZ 2 e = IZR (2 ^ e).
Proof.
  intros H. rewrite <- (Z2Nat.id e H) at 1.
  rewrite <- pow_powerRZ, pow_IZR, Z2Nat.id by exact H. reflexivity.
Qed.

Lemma bpow_inv e : (powerRZ 2 e * powerRZ 2 (- e))%R = 1%R.
Proof. rewrite <- bpow_add, Z.add_opp_diag_r. reflexivity. Qed.

(** *** Floor and nearest integer *)

Lemma Zfloor_spec x : (IZR (Zfloor x) <= x < IZR (Zfloor x) + 1)%R.
Proof.
  unfold Zfloor. rewrite minus_IZR. destruct (archimed x) as [H1 H2]. lra.
Qed.

Lemma Zfloor_unique x n : (IZR n <= x < IZR n + 1)%R -> Zfloor x = n.
Proof.
  intros [H1 H2]. destruct (Zfloor_spec x) as [F1 F2].
  assert (A : (Zfloor x < n + 1)%Z).
  { apply lt_IZR. rewrite plus_IZR. lra. }
  assert (B : (n < Zfloor x + 1)%Z).
  { apply lt_IZR. rewrite plus_IZR. lra. }
  lia.
Qed.

Lemma Zfloor_IZR n : Zfloor (IZR n) = n.
Proof. apply Zfloor_unique. lra. Qed.

Lemma Zfloor_le x y : (x <= y)%R -> (Zfloor x <= Zfloor y)%Z.
Proof.
  intros H. destruct (Zfloor_spec x) as [F1 _]. destruct (Zfloor_spec y) as [_ G2].
  assert (A : (Zfloor x < Zfloor y + 1)%Z).
  { apply lt_IZR. rewrite plus_IZR. lra. }
  lia.
Qed.

Lemma Znearest_even_bounds x :
  (Zfloor x <= Znearest_even x <= Zfloor x + 1)%Z.
Proof.
  unfold Znearest_even. destruct (Rlt_dec _ _); [lia|].
  destruct (Rlt_dec _ _); [lia|]. destruct (Z.even _); lia.
Qed.

Lemma Znearest_even_IZR n : Znearest_even (IZR n) = n.
Proof.
  unfold Znearest_even. rewrite Zfloor_IZR.
  destruct (Rlt_dec (IZR n - IZR n) (1 / 2)) as [_|H]; [reflexivity|].
  exfalso. apply H. lra.
Qed.

Lemma Znearest_even_le x y : (x <= y)%R -> (Znearest_even x <= Znearest_even y)%Z.
Proof.
  intros H. pose proof (Zfloor_le x y H) as Hf.
  pose proof (Znearest_even_bounds x) as Bx.
  pose proof (Znearest_even_bounds y) as By.
  destruct (Z.eq_dec (Zfloor x) (Zfloor y)) as [E|NE]; [|lia].
  unfold Znearest_even in *. rewrite E in *.
  destruct (Rlt_dec (x - IZR (Zfloor y)) (1 / 2)) as [X1|X1].
  - destruct (Rlt_dec (y - IZR (Zfloor y)) (1 / 2)); [lia|].
    destruct (Rlt_dec (1 / 2) (y - IZR (Zfloor y))); [lia|].
    destruct (Z.even (Zfloor y)); lia.
  - destruct (Rlt_dec (y - IZR (Zfloor y)) (1 / 2)) as [Y1|Y1]; [exfalso; lra|].
    destruct (Rlt_dec (1 / 2) (x - IZR (Zfloor y))) as [X2|X2].
    + destruct (Rlt_dec (1 / 2) (y - IZR (Zfloor y))) as [Y2|Y2]; [lia|exfalso; lra].
    + destruct (Rlt_dec (1 / 2) (y - IZR (Zfloor y))) as [Y2|Y2].
      * destruct (Z.even (Zfloor y)); lia.
      * destruct (Z.even (Zfloor y)); lia.
Qed.

(** *** The exponent of a real number *)

Lemma mag2_spec x :
  x <> 0%R -> (powerRZ 2 (mag2 x - 1) <= Rabs x < powerRZ 2 (mag2 x))%R.
Proof.
  intros Hx. assert (Ha : (0 < Rabs x)%R) by (apply Rabs_pos_lt; exact Hx).
  unfold mag2. set (t := (ln (Rabs x) / ln 2)%R).
  destruct (Zfloor_spec t) as [F1 F2].
  replace (Zfloor t + 1 - 1)%Z with (Zfloor t) by lia.
  rewrite !bpow_exp, plus_IZR.
  assert (Ht : (t * ln 2)%R = ln (Rabs x)).
  { unfold t. field. pose proof ln2_pos. lra. }
  assert (E : Rabs x = exp (t * ln 2)) by (rewrite Ht, exp_ln; [reflexivity|exact Ha]).
  clearbody t. rewrite E.
  pose proof ln2_pos as L. split.
  - destruct F1 as [F1|F1].
    + left. apply exp_increasing. apply Rmult_lt_compat_r; assumption.
    + rewrite F1. lra.
  - apply exp_increasing. apply Rmult_lt_compat_r; assumption.
Qed.

Lemma mag2_unique x e :
  (powerRZ 2 (e - 1) <= Rabs x < powerRZ 2 e)%R -> mag2 x = e.
Proof.
  intros [H1 H2].
  assert (Hx : x <> 0%R).
  { intros ->. rewrite Rabs_R0 in H1. pose proof (bpow_pos (e - 1)). lra. }
  destruct (mag2_spec x Hx) as [M1 M2].
  assert (A : (mag2 x - 1 < e)%Z) by (apply bpow_lt_inv; lra).
  assert (B : (e - 1 < mag2 x)%Z) by (apply bpow_lt_inv; lra).
  lia.
Qed.

Lemma mag2_le x y :
  x <> 0%R -> (Rabs x <= Rabs y)%R -> (mag2 x <= mag2 y)%Z.
Proof.
  intros Hx H.
  assert (Hy : y <> 0%R).
  { intros ->. rewrite Rabs_R0 in H. pose proof (Rabs_pos_lt x Hx). lra. }
  destruct (mag2_spec x Hx) as [M1 _]. destruct (mag2_spec y Hy) as [_ N2].
  assert (A : (mag2 x - 1 < mag2 y)%Z) by (apply bpow_lt_inv; lra).
  lia.
Qed.

Lemma mag2_bpow e : mag2 (powerRZ 2 e) = (e + 1)%Z.
Proof.
  apply mag2_unique. rewrite Rabs_pos_eq by (left; apply bpow_pos).
  replace (e + 1 - 1)%Z with e by lia. split; [lra|apply bpow_lt; lia].
Qed.

Lemma mag2_opp x : mag2 (- x) = mag2 x.
Proof. unfold mag2. rewrite Rabs_Ropp. reflexivity. Qed.

(** *** Values that are representable *)

Lemma round32_exact (m e : Z) :
  (binary32_exp (IZR m * powerRZ 2 e) <= e)%Z ->
  round32 (IZR m * powerRZ 2 e) = (IZR m * powerRZ 2 e)%R.
Proof.
  intros H. unfold round32.
  set (c := binary32_exp (IZR m * powerRZ 2 e)) in *.
  replace (IZR m * powerRZ 2 e * powerRZ 2 (- c))%R with (IZR (m * 2 ^ (e - c))).
  - rewrite Znearest_even_IZR, mult_IZR, <- bpow_IZR by lia.
    rewrite Rmult_assoc, <- bpow_add. f_equal. f_equal. lia.
  - rewrite mult_IZR, <- bpow_IZR by lia.
    rewrite Rmult_assoc, <- bpow_add. f_equal.
Qed.

Lemma round32_0 : round32 0 = 0%R.
Proof.
  unfold round32. rewrite Rmult_0_l.
  change 0%R with (IZR 0). rewrite Znearest_even_IZR. apply Rmult_0_l.
Qed.

Lemma round32_bpow e : (-149 <= e)%Z -> round32 (powerRZ 2 e) = powerRZ 2 e.
Proof.
  intros H. rewrite <- (Rmult_1_l (powerRZ 2 e)). apply (round32_exact 1 e).
  rewrite Rmult_1_l. unfold binary32_exp. rewrite mag2_bpow. lia.
Qed.

Lemma round32_opp_bpow e :
  (-149 <= e)%Z -> round32 (- powerRZ 2 e) = (- powerRZ 2 e)%R.
Proof.
  intros H. replace (- powerRZ 2 e)%R with (IZR (-1) * powerRZ 2 e)%R by lra.
  apply (round32_exact (-1) e).
  replace (IZR (-1) * powerRZ 2 e)%R with (- powerRZ 2 e)%R by lra.
  unfold binary32_exp. rewrite mag2_opp, mag2_bpow. lia.
Qed.

Lemma round32_1 : round32 1 = 1%R.
Proof. exact (round32_bpow 0 ltac:(lia)). Qed.

Lemma round32_2 : round32 2 = 2%R.
Proof.
  replace 2%R with (powerRZ 2 1) by (simpl; lra). apply round32_bpow. lia.
Qed.

Lemma round32_half : round32 (1 / 2) = (1 / 2)%R.
Proof.
  replace (1 / 2)%R with (powerRZ 2 (-1)) by (simpl; lra). apply round32_bpow. lia.
Qed.

(** *** Monotonicity *)

Lemma round32_nonneg x : (0 <= x)%R -> (0 <= round32 x)%R.
Proof.
  intros H. unfold round32. apply Rmult_le_pos; [|left; apply bpow_pos].
  change 0%R with (IZR 0). apply IZR_le.
  rewrite <- (Znearest_even_IZR 0). apply Znearest_even_le.
  apply Rmult_le_pos; [exact H|left; apply bpow_pos].
Qed.

Lemma round32_nonpos x : (x <= 0)%R -> (round32 x <= 0)%R.
Proof.
  intros H. unfold round32.
  assert (A : (IZR (Znearest_even (x * powerRZ 2 (- binary32_exp x))) <= 0)%R).
  { change 0%R with (IZR 0). apply IZR_le.
    rewrite <- (Znearest_even_IZR 0). apply Znearest_even_le.
    pose proof (bpow_pos (- binary32_exp x)). simpl. nra. }
  pose proof (bpow_pos (binary32_exp x)). nra.
Qed.

Lemma round32_same_exp x y :
  binary32_exp x = binary32_exp y -> (x <= y)%R -> (round32 x <= round32 y)%R.
Proof.
  intros E H. unfold round32. rewrite E.
  apply Rmult_le_compat_r; [left; apply bpow_pos|].
  apply IZR_le, Znearest_even_le.
  apply Rmult_le_compat_r; [left; apply bpow_pos|exact H].
Qed.

(** Rounding stays within the powers of two around its argument. *)
Lemma round32_upper x :
  (0 < x)%R -> (round32 x <= powerRZ 2 (Z.max (mag2 x) (binary32_exp x)))%R.
Proof.
  intros Hx. set (c := binary32_exp x). set (U := Z.max (mag2 x) c).
  destruct (mag2_spec x ltac:(lra)) as [_ M].
  rewrite Rabs_pos_eq in M by lra.
  assert (HU : (x <= powerRZ 2 U)%R).
  { pose proof (bpow_le (mag2 x) U ltac:(lia)). lra. }
  unfold round32. fold c.
  replace (powerRZ 2 U) with (IZR (2 ^ (U - c)) * powerRZ 2 c)%R.
  - apply Rmult_le_compat_r; [left; apply bpow_pos|].
    apply IZR_le. rewrite <- (Znearest_even_IZR (2 ^ (U - c))).
    apply Znearest_even_le. rewrite <- bpow_IZR by lia.
    replace (U - c)%Z with (U + - c)%Z by lia. rewrite bpow_add.
    apply Rmult_le_compat_r; [left; apply bpow_pos|exact HU].
  - rewrite <- bpow_IZR, <- bpow_add by lia. f_equal. lia.
Qed.

Lemma round32_lower x :
  (0 < x)%R -> binary32_exp x = (mag2 x - 24)%Z ->
  (powerRZ 2 (mag2 x - 1) <= round32 x)%R.
Proof.
  intros Hx Hc. destruct (mag2_spec x ltac:(lra)) as [M _].
  rewrite Rabs_pos_eq in M by lra.
  unfold round32. rewrite Hc.
  replace (powerRZ 2 (mag2 x - 1)) with (IZR (2 ^ 23) * powerRZ 2 (mag2 x - 24))%R.
  - apply Rmult_le_compat_r; [left; apply bpow_pos|].
    apply IZR_le. rewrite <- (Znearest_even_IZR (2 ^ 23)).
    apply Znearest_even_le. rewrite <- bpow_IZR by lia.
    replace 23%Z with (mag2 x - 1 + - (mag2 x - 24))%Z at 1 by lia. rewrite bpow_add.
    apply Rmult_le_compat_r; [left; apply bpow_pos|exact M].
  - rewrite <- bpow_IZR, <- bpow_add by lia. f_equal. lia.
Qed.

Lemma round32_upper_neg x :
  (x < 0)%R -> (- powerRZ 2 (Z.max (mag2 x) (binary32_exp x)) <= round32 x)%R.
Proof.
  intros Hx. set (c := binary32_exp x). set (U := Z.max (mag2 x) c).
  destruct (mag2_spec x ltac:(lra)) as [_ M].
  rewrite Rabs_left in M by lra.
  assert (HU : (- powerRZ 2 U <= x)%R).
  { pose proof (bpow_le (mag2 x) U ltac:(lia)). lra. }
  unfold round32. fold c.
  replace (- powerRZ 2 U)%R with (IZR (- 2 ^ (U - c)) * powerRZ 2 c)%R.
  - apply Rmult_le_compat_r; [left; apply bpow_pos|].
    apply IZR_le. rewrite <- (Znearest_even_IZR (- 2 ^ (U - c))).
    apply Znearest_even_le. rewrite opp_IZR, <- bpow_IZR by lia.
    replace (U - c)%Z with (U + - c)%Z by lia. rewrite bpow_add.
    pose proof (bpow_pos (- c)). nra.
  - rewrite opp_IZR, <- bpow_IZR by lia.
    replace (- powerRZ 2 (U - c) * powerRZ 2 c)%R
      with (- (powerRZ 2 (U - c) * powerRZ 2 c))%R by lra.
    rewrite <- bpow_add. f_equal. f_equal. lia.
Qed.

Lemma round32_lower_neg x :
  (x < 0)%R -> binary32_exp x = (mag2 x - 24)%Z ->
  (round32 x <= - powerRZ 2 (mag2 x - 1))%R.
Proof.
  intros Hx Hc. destruct (mag2_spec x ltac:(lra)) as [M _].
  rewrite Rabs_left in M by lra.
  unfold round32. rewrite Hc.
  replace (- powerRZ 2 (mag2 x - 1))%R
    with (IZR (- 2 ^ 23) * powerRZ 2 (mag2 x - 24))%R.
  - apply Rmult_le_compat_r; [left; apply bpow_pos|].
    apply IZR_le. rewrite <- (Znearest_even_IZR (- 2 ^ 23)).
    apply Znearest_even_le. rewrite opp_IZR, <- bpow_IZR by lia.
    replace 23%Z with (mag2 x - 1 + - (mag2 x - 24))%Z at 1 by lia. rewrite bpow_add.
    pose proof (bpow_pos (- (mag2 x - 24))). nra.
  - rewrite opp_IZR, <- bpow_IZR by lia.
    replace (- powerRZ 2 23 * powerRZ 2 (mag2 x - 24))%R
      with (- (powerRZ 2 23 * powerRZ 2 (mag2 x - 24)))%R by lra.
    rewrite <- bpow_add. f_equal. f_equal. lia.
Qed.

(** Rounding to single precision never reverses an order. *)
Lemma round32_le x y : (x <= y)%R -> (round32 x <= round32 y)%R.
Proof.
  intros H.
  destruct (Rle_lt_dec x 0) as [Hx|Hx]; destruct (Rle_lt_dec 0 y) as [Hy|Hy].
  - pose proof (round32_nonpos x Hx). pose proof (round32_nonneg y Hy). lra.
  - (* x <= y < 0 *)
    assert (Hm : (mag2 y <= mag2 x)%Z).
    { apply mag2_le; [lra|]. rewrite !Rabs_left by lra. lra. }
    destruct (Z.eq_dec (binary32_exp x) (binary32_exp y)) as [E|NE];
      [apply round32_same_exp; assumption|].
    assert (Hc : binary32_exp x = (mag2 x - 24)%Z) by (unfold binary32_exp in *; lia).
    pose proof (round32_lower_neg x ltac:(lra) Hc) as Lx.
    pose proof (round32_upper_neg y Hy) as Uy.
    pose proof (bpow_le (Z.max (mag2 y) (binary32_exp y)) (mag2 x - 1)
                  ltac:(unfold binary32_exp in *; lia)).
    lra.
  - (* 0 < x <= y *)
    assert (Hm : (mag2 x <= mag2 y)%Z).
    { apply mag2_le; [lra|]. rewrite !Rabs_pos_eq by lra. exact H. }
    destruct (Z.eq_dec (binary32_exp x) (binary32_exp y)) as [E|NE];
      [apply round32_same_exp; assumption|].
    assert (Hc : binary32_exp y = (mag2 y - 24)%Z) by (unfold binary32_exp in *; lia).
    pose proof (round32_lower y ltac:(lra) Hc) as Ly.
    pose proof (round32_upper x Hx) as Ux.
    pose proof (bpow_le (Z.max (mag2 x) (binary32_exp x)) (mag2 y - 1)
                  ltac:(unfold binary32_exp in *; lia)).
    lra.
  - exfalso. lra.
Qed.

(** Just below 1 every real number rounds to 1. *)
Lemma round32_below_one v :
  (1 - / 2 ^ 25 < v)%R -> (v < 1)%R -> round32 v = 1%R.
Proof.
  intros H1 H2.
  assert (P25 : (2 ^ 25 = 33554432)%R) by (simpl; lra).
  rewrite P25 in H1.
  assert (Hm : mag2 v = 0%Z).
  { apply mag2_unique. rewrite Rabs_pos_eq by lra.
    replace (powerRZ 2 (0 - 1)) with (/ 2)%R by (simpl; lra).
    replace (powerRZ 2 0) with 1%R by reflexivity. lra. }
  unfold round32, binary32_exp. rewrite Hm.
  change (Z.max (0 - 24) (-149)) with (-24)%Z. change (- -24)%Z with 24%Z.
  rewrite (bpow_IZR 24) by lia. change (2 ^ 24)%Z with 16777216%Z.
  assert (Hf : Zfloor (v * 16777216) = 16777215%Z).
  { apply Zfloor_unique. lra. }
  unfold Znearest_even. rewrite Hf.
  destruct (Rlt_dec (v * 16777216 - 16777215) (1 / 2)) as [A|A]; [exfalso; lra|].
  destruct (Rlt_dec (1 / 2) (v * 16777216 - 16777215)) as [B|B]; [|exfalso; lra].
  change (16777215 + 1)%Z with 16777216%Z.
  pose proof (bpow_inv 24) as I. rewrite (bpow_IZR 24) in I by lia.
  exact I.
Qed.

Lemma bpow_neg e : (0 <= e)%Z -> powerRZ 2 (- e) = (/ IZR (2 ^ e))%R.
Proof. intros H. rewrite powerRZ_neg', bpow_IZR by exact H. reflexivity. Qed.

Lemma round32_le_repr x y : round32 y = y -> (x <= y)%R -> (round32 x <= y)%R.
Proof. intros E H. rewrite <- E. apply round32_le. exact H. Qed.

Lemma round32_ge_repr x y : round32 y = y -> (y <= x)%R -> (y <= round32 x)%R.
Proof. intros E H. rewrite <- E. apply round32_le. exact H. Qed.

(** Halfway between two neighbours the one with the even significand is taken,
    also among the subnormal values. *)
Example round32_ties :
  round32 (1 + / 2 ^ 24) = 1%R /\
  round32 (1 + 3 / 2 ^ 24) = (1 + / 2 ^ 22)%R /\
  round32 (powerRZ 2 (-150)) = 0%R.
Proof.
  assert (P24 : (2 ^ 24 = 16777216)%R) by (simpl; lra).
  assert (P22 : (2 ^ 22 = 4194304)%R) by (simpl; lra).
  rewrite P24, P22.
  assert (B23 : powerRZ 2 23 = 8388608%R) by (rewrite bpow_IZR by lia; reflexivity).
  assert (Bm23 : powerRZ 2 (-23) = (/ 8388608)%R) by exact (bpow_neg 23 ltac:(lia)).
  assert (Hmag : forall v, (1 <= v < 2)%R -> binary32_exp v = (-23)%Z).
  { intros v Hv. unfold binary32_exp.
    rewrite (mag2_unique v 1); [reflexivity|].
    rewrite Rabs_pos_eq by lra.
    replace (powerRZ 2 (1 - 1)) with 1%R by reflexivity.
    replace (powerRZ 2 1) with 2%R by (simpl; lra). exact Hv. }
  split; [|split].
  - unfold round32. rewrite Hmag by lra. change (- -23)%Z with 23%Z. rewrite B23, Bm23.
    unfold Znearest_even.
    rewrite (Zfloor_unique _ 8388608) by lra.
    destruct (Rlt_dec _ _) as [A|A]; [exfalso; lra|].
    destruct (Rlt_dec _ _) as [B|B]; [exfalso; lra|].
    change (Z.even 8388608) with true. cbv iota. lra.
  - unfold round32. rewrite Hmag by lra. change (- -23)%Z with 23%Z. rewrite B23, Bm23.
    unfold Znearest_even.
    rewrite (Zfloor_unique _ 8388609) by lra.
    destruct (Rlt_dec _ _) as [A|A]; [exfalso; lra|].
    destruct (Rlt_dec _ _) as [B|B]; [exfalso; lra|].
    change (Z.even 8388609) with false. cbv iota. change (8388609 + 1)%Z with 8388610%Z. lra.
  - unfold round32, binary32_exp. rewrite mag2_bpow.
    change (Z.max (-150 + 1 - 24) (-149)) with (-149)%Z. change (- -149)%Z with 149%Z.
    rewrite <- bpow_add. change (-150 + 149)%Z with (-1)%Z.
    replace (powerRZ 2 (-1)) with (/ 2)%R by (simpl; lra).
    unfold Znearest_even.
    rewrite (Zfloor_unique _ 0) by lra.
    destruct (Rlt_dec _ _) as [A|A]; [exfalso; lra|].
    destruct (Rlt_dec _ _) as [B|B]; [exfalso; lra|].
    change (Z.even 0) with true. cbv iota. lra.
Qed.

(** ** Softmax in single precision *)

Lemma exp_monotone x y : (x <= y)%R -> (exp x <= exp y)%R.
Proof.
  intros [H | ->]; [left; apply exp_increasing; exact H|lra].
Qed.

Lemma big_fsum_nonneg n f : (forall k, (0 <= f k)%R) -> (0 <= big_fsum n f)%R.
Proof.
  intros Hf. induction n as [|n IH]; cbn [big_fsum]; [lra|].
  apply round32_nonneg. specialize (Hf n). lra.
Qed.

Lemma big_fsum_ext n : forall f g,
  (forall k, (k < n)%nat -> f k = g k) -> big_fsum n f = big_fsum n g.
Proof.
  induction n as [|n IH]; intros f g H; cbn [big_fsum]; [reflexivity|].
  rewrite (IH f g) by (intros k Hk; apply H; lia).
  rewrite (H n) by lia. reflexivity.
Qed.

Lemma big_max_ext n : forall f g,
  (forall k, (k <= n)%nat -> f k = g k) -> big_max n f = big_max n g.
Proof.
  induction n as [|n IH]; intros f g H; cbn [big_max]; [apply H; lia|].
  rewrite (IH f g) by (intros k Hk; apply H; lia).
  rewrite (H (S n)) by lia. reflexivity.
Qed.

Lemma softmax32_row_ext c f g k :
  (forall j, (j < c)%nat -> f j = g j) -> (k < c)%nat ->
  softmax32_row c f k = softmax32_row c g k.
Proof.
  intros H Hk. unfold softmax32_row.
  rewrite (big_max_ext (c - 1) f g) by (intros j Hj; apply H; lia).
  rewrite (H k Hk).
  rewrite (big_fsum_ext c
             (fun k0 => round32 (exp (round32 (f k0 - big_max (c - 1) g))))
             (fun k0 => round32 (exp (round32 (g k0 - big_max (c - 1) g)))));
    [reflexivity|].
  intros j Hj. rewrite (H j Hj). reflexivity.
Qed.

(** Softmax in single precision never reverses the order of two scores. *)
Lemma softmax32_row_le c f j k :
  (f j <= f k)%R -> (softmax32_row c f j <= softmax32_row c f k)%R.
Proof.
  intros H. unfold softmax32_row.
  set (m := big_max (c - 1) f).
  set (e := fun k0 => round32 (exp (round32 (f k0 - m)))).
  assert (He : forall k0, (0 <= e k0)%R).
  { intros k0. apply round32_nonneg. left. apply exp_pos. }
  assert (Hr : (0 <= round32 (1 / big_fsum c e))%R).
  { apply round32_nonneg. pose proof (big_fsum_nonneg c e He) as Hs.
    destruct (Req_dec (big_fsum c e) 0) as [->|Hne].
    - unfold Rdiv. rewrite Rinv_0. lra.
    - left. apply Rdiv_lt_0_compat; lra. }
  apply round32_le. apply Rmult_le_compat_r; [exact Hr|].
  apply round32_le, exp_monotone, round32_le. lra.
Qed.

(** When probabilities follow the order of the scores, the first largest
    probability is at or before the first largest score, and equals the
    probability of that score. *)
Lemma argmax_weak_order n (f p : nat -> R) :
  (forall j k, (f j <= f k)%R -> (p j <= p k)%R) ->
  (argmax n p <= argmax n f)%nat /\ p (argmax n p) = p (argmax n f).
Proof.
  intros Hm.
  destruct (argmax_spec n f) as [F1 _]. destruct (argmax_spec n p) as [P1 P2].
  pose proof (argmax_le n f) as Lf. pose proof (argmax_le n p) as Lp.
  assert (E : p (argmax n p) = p (argmax n f)).
  { apply Rle_antisym; [apply Hm, F1; exact Lp|apply P1; exact Lf]. }
  split; [|exact E].
  destruct (Nat.le_gt_cases (argmax n p) (argmax n f)) as [H|H]; [exact H|].
  specialize (P2 _ H). lra.
Qed.

Lemma softmax32_row_argmax n f :
  let p := softmax32_row (S n) f in
  (argmax n p <= argmax n f)%nat /\
  p (argmax n p) = p (argmax n f) /\
  ((forall k, (k < argmax n f)%nat -> (p k < p (argmax n f))%R) ->
   argmax n p = argmax n f).
Proof.
  intros p.
  destruct (argmax_weak_order n f p) as [H1 H2].
  { intros j k. apply softmax32_row_le. }
  split; [exact H1|]. split; [exact H2|].
  intros Hs. destruct (Nat.eq_dec (argmax n p) (argmax n f)) as [E|NE]; [exact E|].
  specialize (Hs (argmax n p) ltac:(lia)). lra.
Qed.

(** *** On tensors *)

Lemma softmax32_data_at x b c rest i k r :
  shape x = b :: c :: rest ->
  (k < c)%nat -> (r < numel rest)%nat ->
  softmax32_data x ((i * c + k) * numel rest + r)
  = softmax32_row c (fun k' => get x ((i * c + k') * numel rest + r)) k.
Proof.
  intros Hs Hk Hr. unfold softmax32_data. rewrite Hs.
  set (inner := numel rest) in *.
  assert (Hmod : (((i * c + k) * inner + r) mod inner = r)%nat).
  { rewrite Nat.add_comm, Nat.Div0.mod_add. apply Nat.mod_small. exact Hr. }
  assert (Hdiv : (((i * c + k) * inner + r) / (c * inner) = i)%nat).
  { symmetry. apply Nat.div_unique with (r := (k * inner + r)%nat); nia. }
  assert (Hrow : (((i * c + k) * inner + r) / inner = i * c + k)%nat).
  { symmetry. apply Nat.div_unique with (r := r); [exact Hr|lia]. }
  assert (Hk' : ((i * c + k) mod c = k)%nat).
  { rewrite Nat.add_comm, Nat.Div0.mod_add. apply Nat.mod_small. exact Hk. }
  rewrite Hmod, Hdiv, Hrow, Hk'. reflexivity.
Qed.

Lemma softmax32_inv x s :
  softmax32 x = Ok s ->
  exists b c rest, shape x = b :: c :: rest /\ s = mkTensor (shape x) (softmax32_data x).
Proof.
  unfold softmax32, softmax_shape.
  destruct (shape x) as [|b [|c rest]] eqn:Hs; cbn [bind]; try discriminate.
  intros H. injection H as <-. eauto.
Qed.

Lemma softmax32_err x e :
  softmax32 x = Err e -> e = IndexError /\ max_dim1 x = Err IndexError.
Proof.
  unfold softmax32, softmax_shape, max_dim1.
  destruct (shape x) as [|b [|c rest]]; cbn [bind]; intros H;
    try discriminate; injection H as <-; auto.
Qed.

Lemma test_step_softmax32 x s target :
  top_unshared x ->
  softmax32 x = Ok s ->
  bind (max_dim1 s) (fun pred =>
    bind (view_as target pred) (fun target' => Ok (eq_sum_item pred target')))
  = bind (max_dim1 x) (fun pred =>
    bind (view_as target pred) (fun target' => Ok (eq_sum_item pred target'))).
Proof.
  intros Hu H. destruct (softmax32_inv x s H) as (b & c & rest & Hs & ->).
  unfold top_unshared in Hu. rewrite Hs in Hu.
  unfold max_dim1. cbn [shape]. rewrite Hs.
  destruct (Nat.eqb_spec c 0) as [Hc|Hc]; [reflexivity|].
  cbn [bind]. unfold view_as. cbn [shape].
  destruct (numel (shape target) =? numel (b :: 1%nat :: rest))%nat; [|reflexivity].
  cbn [bind]. f_equal. unfold eq_sum_item. cbn [shape data].
  apply count_upto_ext. intros q Hq. f_equal. f_equal.
  change (numel (b :: 1%nat :: rest)) with (b * (1 * numel rest))%nat in Hq.
  assert (Hinner : (0 < numel rest)%nat) by (destruct (numel rest); lia).
  set (inner := numel rest) in *.
  assert (Hr : (q mod inner < inner)%nat) by (apply Nat.mod_upper_bound; lia).
  assert (Hi : (q / inner < b)%nat) by (apply Nat.Div0.div_lt_upper_bound; lia).
  set (row := fun k => get x ((q / inner * c + k) * inner + q mod inner)).
  destruct (softmax32_row_argmax (c - 1) row) as (_ & _ & Heq).
  replace (S (c - 1)) with c in Heq by lia.
  rewrite <- Heq by (exact (Hu (q / inner)%nat (q mod inner)%nat Hi Hr)).
  apply argmax_ext. intros k Hk. unfold get at 1. cbn [data].
  apply (softmax32_data_at x b c rest (q / inner) k (q mod inner) Hs); [lia|exact Hr].
Qed.

(** *** Two rows of two scores *)

Lemma tiny_gap_bounds :
  (powerRZ 2 (-34) <= tiny_gap 1 <= powerRZ 2 (-33))%R.
Proof.
  unfold tiny_gap.
  assert (P10 : (10 ^ 10 = 10000000000)%R) by (simpl; lra).
  rewrite P10.
  assert (B34 : powerRZ 2 (-34) = (/ 17179869184)%R) by exact (bpow_neg 34 ltac:(lia)).
  assert (B33 : powerRZ 2 (-33) = (/ 8589934592)%R) by exact (bpow_neg 33 ltac:(lia)).
  split.
  - apply round32_ge_repr; [apply round32_bpow; lia|]. rewrite B34. lra.
  - apply round32_le_repr; [apply round32_bpow; lia|]. rewrite B33. lra.
Qed.

Lemma tiny_gap_pos : (0 < tiny_gap 1)%R.
Proof. pose proof tiny_gap_bounds. pose proof (bpow_pos (-34)). lra. Qed.

(** The exponential of a score this little below the largest rounds to 1. *)
Lemma exp32_tiny d :
  (- powerRZ 2 (-33) <= d <= 0)%R -> round32 (exp d) = 1%R.
Proof.
  intros [H1 H2].
  destruct (Req_dec d 0) as [->|Hne]; [rewrite exp_0; apply round32_1|].
  apply round32_below_one.
  - pose proof (exp_ineq1_le d).
    assert (B33 : powerRZ 2 (-33) = (/ 8589934592)%R) by exact (bpow_neg 33 ltac:(lia)).
    assert (P25 : (2 ^ 25 = 33554432)%R) by (simpl; lra).
    rewrite P25. rewrite B33 in H1. lra.
  - rewrite <- exp_0. apply exp_increasing. lra.
Qed.

Lemma softmax32_row_tiny_gap k : softmax32_row 2 tiny_gap k = (1 / 2)%R.
Proof.
  pose proof tiny_gap_bounds as [L U]. pose proof tiny_gap_pos as P.
  unfold softmax32_row. cbn [Nat.sub big_max big_fsum].
  change (tiny_gap 0) with 0%R.
  assert (Hm : Rmax 0 (tiny_gap 1) = tiny_gap 1) by (apply Rmax_right; lra).
  rewrite Hm.
  assert (E0 : round32 (exp (round32 (0 - tiny_gap 1))) = 1%R).
  { apply exp32_tiny. split.
    - apply round32_ge_repr; [apply round32_opp_bpow; lia|]. lra.
    - apply round32_le_repr; [apply round32_0|]. lra. }
  assert (E1 : round32 (exp (round32 (tiny_gap 1 - tiny_gap 1))) = 1%R).
  { replace (tiny_gap 1 - tiny_gap 1)%R with 0%R by lra.
    rewrite round32_0, exp_0. apply round32_1. }
  assert (Ek : round32 (exp (round32 (tiny_gap k - tiny_gap 1))) = 1%R).
  { destruct k as [|k]; [exact E0|exact E1]. }
  rewrite E0, E1, Ek.
  rewrite Rplus_0_l, round32_1.
  replace (1 + 1)%R with 2%R by lra. rewrite round32_2, round32_half.
  rewrite Rmult_1_l. apply round32_half.
Qed.

Lemma argmax_tiny_gap : argmax 1 tiny_gap = 1%nat.
Proof.
  cbn [argmax]. change (tiny_gap 0) with 0%R.
  destruct (Rlt_dec 0 (tiny_gap 1)) as [_|H]; [reflexivity|].
  exfalso. apply H. apply tiny_gap_pos.
Qed.

Lemma argmax_softmax32_tiny_gap : argmax 1 (softmax32_row 2 tiny_gap) = 0%nat.
Proof.
  cbn [argmax]. rewrite !softmax32_row_tiny_gap.
  destruct (Rlt_dec (1 / 2) (1 / 2)) as [H|_]; [exfalso; lra|reflexivity].
Qed.

Lemma argmax_wide_gap : argmax 1 wide_gap = 1%nat.
Proof.
  cbn [argmax]. cbn [wide_gap].
  destruct (Rlt_dec 0 2) as [_|H]; [reflexivity|exfalso; lra].
Qed.

Lemma exp_minus_2 : (exp (- 2) <= 1 / 4)%R.
Proof.
  pose proof (exp_ineq1_le 1) as H1.
  assert (H2 : (4 <= exp 2)%R).
  { replace 2%R with (1 + 1)%R by lra. rewrite exp_plus. nra. }
  replace (-2)%R with (Ropp 2) by lra.
  rewrite exp_Ropp. pose proof (exp_pos 2) as P.
  apply Rmult_le_reg_l with (r := exp 2); [exact P|].
  rewrite Rinv_r by lra. lra.
Qed.

Lemma round32_quarter : round32 (1 / 4) = (1 / 4)%R.
Proof.
  replace (1 / 4)%R with (powerRZ 2 (-2)) by (simpl; lra). apply round32_bpow. lia.
Qed.

Lemma softmax32_row_wide_gap :
  (softmax32_row 2 wide_gap 0 <= 1 / 4)%R /\ (1 / 2 <= softmax32_row 2 wide_gap 1)%R.
Proof.
  unfold softmax32_row. cbn [Nat.sub big_max big_fsum wide_gap].
  assert (Hm : Rmax 0 2 = 2%R) by (apply Rmax_right; lra).
  rewrite Hm.
  replace (2 - 2)%R with 0%R by lra. rewrite round32_0, exp_0, round32_1.
  set (e0 := round32 (exp (round32 (0 - 2)))).
  assert (He0 : (0 <= e0 <= 1 / 4)%R).
  { unfold e0. split; [apply round32_nonneg; left; apply exp_pos|].
    apply round32_le_repr; [apply round32_quarter|].
    replace (0 - 2)%R with (- powerRZ 2 1)%R by (simpl; lra).
    rewrite round32_opp_bpow by lia.
    replace (- powerRZ 2 1)%R with (- 2)%R by (simpl; lra).
    apply exp_minus_2. }
  set (s := round32 (round32 (0 + e0) + 1)).
  assert (Hs : (1 <= s <= 2)%R).
  { unfold s.
    assert (A : (0 <= round32 (0 + e0) <= 1 / 4)%R).
    { split; [apply round32_nonneg; lra|].
      apply round32_le_repr; [apply round32_quarter|]. lra. }
    split.
    - apply round32_ge_repr; [apply round32_1|]. lra.
    - apply round32_le_repr; [apply round32_2|]. lra. }
  set (r := round32 (1 / s)).
  assert (Hr : (1 / 2 <= r <= 1)%R).
  { unfold r. split.
    - apply round32_ge_repr; [apply round32_half|].
      unfold Rdiv. rewrite !Rmult_1_l. apply Rinv_le_contravar; lra.
    - apply round32_le_repr; [apply round32_1|].
      unfold Rdiv. rewrite Rmult_1_l. rewrite <- Rinv_1.
      apply Rinv_le_contravar; lra. }
  split.
  - apply round32_le_repr; [apply round32_quarter|]. nra.
  - apply round32_ge_repr; [apply round32_half|]. lra.
Qed.

(** *** The constant classifier *)

Lemma big_sum_zero n (f : nat -> R) :
  (forall k, f k = 0%R) -> big_sum n f = 0%R.
Proof.
  intros H. induction n as [|n IH]; cbn [big_sum]; [reflexivity|].
  rewrite IH, H. lra.
Qed.

Lemma constant_classifier_arch bias :
  architecture (constant_classifier bias) = SimpleFCNet_architecture 2.
Proof. reflexivity. Qed.

Lemma constant_classifier_logits bias n x g :
  shape x = [n; 28; 28]%nat ->
  exists out,
    Sequential_forward false (layers (constant_classifier bias)) x g
    = Ok (out, layers (constant_classifier bias), g) /\
    shape out = [n; 2]%nat /\
    forall q, get out q = bias (q mod 2)%nat.
Proof.
  intros Hx.
  assert (Hshape : Sequential_shape false (layers (constant_classifier bias)) (shape x)
                   = Ok [n; 2]%nat).
  { rewrite Sequential_shape_arch, Hx.
    change (map kind_of (layers (constant_classifier bias)))
      with (SimpleFCNet_architecture 2).
    rewrite SimpleFCNet_arch_shape.
    change (28 * 28 =? 784)%nat with true. reflexivity. }
  pose proof (Sequential_forward_shape false (layers (constant_classifier bias)) x g) as Hs.
  rewrite Hshape in Hs.
  destruct (Sequential_forward false (layers (constant_classifier bias)) x g)
    as [[[out ls] g']|e] eqn:Hf; cbn [rmap fst] in Hs; [|discriminate].
  injection Hs as Hs.
  destruct (Sequential_forward_mode_free (layers (constant_classifier bias)) x g
              eq_refl) as [_ Hfr].
  destruct (Hfr false out ls g' Hf) as [-> ->].
  exists out. split; [reflexivity|]. split; [exact Hs|].
  change (layers (constant_classifier bias))
    with ([Flatten;
           Linear 784 128 (zero_weight 128 784) (Some (zeros 128)); ReLU;
           Linear 128 64 (zero_weight 64 128) (Some (zeros 64)); ReLU]
          ++ [Linear 64 2 (zero_weight 2 64) (Some (mkTensor [2]%nat bias))]) in Hf.
  rewrite Sequential_forward_app in Hf.
  destruct (Sequential_forward false _ x g) as [[[h pre] g1]|e]; cbn [bind fst snd] in Hf;
    [|discriminate].
  cbn [Sequential_forward] in Hf. unfold module_forward in Hf.
  destruct (module_shape false _ (shape h)) as [s|e]; cbn [bind] in Hf; [|discriminate].
  injection Hf as <- _. intros q. unfold get at 1. cbn [data]. unfold linear_data.
  rewrite big_sum_zero.
  - unfold get. cbn [data]. lra.
  - intros k. unfold get at 2. cbn [zero_weight data]. lra.
Qed.

(** *** The evaluation loop on probabilities in single precision *)

Section Float32Loops.

Variables G Opt : Type.

Lemma call_model_float32 (w : world net G Opt) (input : tensor R) :
  training (w_model w) = false ->
  call_model Float32Net w input
  = bind (call_model LogitsNet w input)
      (fun ow => bind (softmax32 (fst ow)) (fun s => Ok (s, snd ow))).
Proof.
  intros Ht. unfold call_model. cbn [model_call Float32Net LogitsNet].
  unfold forward32, forward_logits. rewrite Ht.
  destruct (Sequential_forward false (layers (w_model w)) input (w_rng w))
    as [[[out ls] g']|e]; cbn [bind fst snd]; [|reflexivity].
  destruct (softmax32 out); reflexivity.
Qed.

Lemma test_step_float32 (w : world net G Opt) (input : tensor R) (target : tensor Z) :
  training (w_model w) = false ->
  (forall out w1, call_model LogitsNet w input = Ok (out, w1) -> top_unshared out) ->
  test_step Float32Net w (input, target) = test_step LogitsNet w (input, target).
Proof.
  intros Ht Hu. unfold test_step. rewrite call_model_float32 by exact Ht.
  destruct (call_model LogitsNet w input) as [[out w1]|e]; cbn [bind fst snd];
    [|reflexivity].
  specialize (Hu out w1 eq_refl).
  destruct (softmax32 out) as [s|e] eqn:Hs; cbn [bind].
  - apply (test_step_softmax32 out s target Hu) in Hs.
    destruct (max_dim1 s) as [p1|e1]; destruct (max_dim1 out) as [p2|e2];
      cbn [bind] in *; try congruence.
    + destruct (view_as target p1) as [t1|e1]; destruct (view_as target p2) as [t2|e2];
        cbn [bind] in *; congruence.
    + destruct (view_as target p1); cbn [bind] in *; congruence.
    + destruct (view_as target p2); cbn [bind] in *; congruence.
  - apply softmax32_err in Hs. destruct Hs as [-> ->]. reflexivity.
Qed.

Lemma test_loop_float32 (bs : list batch) :
  forall (w : world net G Opt) (c : Z) outs w',
    training (w_model w) = false ->
    eval_outputs LogitsNet bs w = Ok (outs, w') ->
    Forall (fun ot => top_unshared (fst ot)) outs ->
    test_loop Float32Net bs w c = test_loop LogitsNet bs w c.
Proof.
  induction bs as [|[input target] bs IH]; intros w c outs w' Ht He HF;
    cbn [test_loop eval_outputs] in *; [reflexivity|].
  apply bind_ok in He. destruct He as ([out w1] & Hc & He).
  apply bind_ok in He. destruct He as ([os w2] & Hr & He).
  apply Ok_pair_inj in He. destruct He as [<- <-].
  inversion HF as [|? ? Hhd Htl]; subst.
  rewrite test_step_float32;
    [|exact Ht|intros out' w1' H'; rewrite Hc in H'; injection H' as <- _; exact Hhd].
  destruct (test_step LogitsNet w (input, target)) as [[k w1']|e] eqn:Hs; cbn [bind];
    [|reflexivity].
  pose proof (test_step_logits_mode G Opt w (input, target) k w1' Hs) as Hm.
  unfold test_step in Hs. rewrite Hc in Hs. cbn [bind] in Hs.
  destruct (max_dim1 out) as [pred|e]; cbn [bind] in Hs; [|discriminate].
  destruct (view_as target pred) as [t'|e]; cbn [bind] in Hs; [|discriminate].
  apply Ok_pair_inj in Hs. destruct Hs as [_ <-].
  apply (IH w1 _ os w2); [rewrite Hm; exact Ht|exact Hr|exact Htl].
Qed.

(** C10, as amended.  Softmax as the code computes it, in single precision,
    never gives a smaller score the larger probability, but it can give
    several scores the same largest probability, and the maximum is then
    taken at the first of them.  So the class read off the probabilities is
    the first class whose probability equals that of the largest score: it is
    the class read off the scores or an earlier one, and it is the same class
    when every earlier class has a smaller probability than the largest
    score.  When that holds at every position of every batch, [test_model]
    returns the same result for a classifier whose forward pass ends in
    softmax in inference mode and for one that returns the raw scores. *)
Theorem softmax32_keeps_predictions_up_to_ties :
  (forall (n : nat) (f : nat -> R),
     let p := softmax32_row (S n) f in
     (forall j k, (f j <= f k)%R -> (p j <= p k)%R) /\
     (argmax n p <= argmax n f)%nat /\
     p (argmax n p) = p (argmax n f) /\
     ((forall k, (k < argmax n f)%nat -> (p k < p (argmax n f))%R) ->
      argmax n p = argmax n f)) /\
  (forall (w : world net G Opt) (test_loader : DataLoader) (epoch : Z)
          (outs : list (tensor R * tensor Z)) (w' : world net G Opt),
     eval_outputs LogitsNet (batches test_loader)
       (set_grad_enabled false (set_model (module_eval (w_model w)) w))
     = Ok (outs, w') ->
     Forall (fun ot => top_unshared (fst ot)) outs ->
     test_model Float32Net w test_loader epoch = test_model LogitsNet w test_loader epoch).
Proof.
  split.
  - intros n f p. split; [intros j k; apply softmax32_row_le|].
    apply softmax32_row_argmax.
  - intros w test_loader epoch outs w' He HF. unfold test_model.
    cbn [model_eval Float32Net LogitsNet].
    rewrite (test_loop_float32 (batches test_loader)
               (set_grad_enabled false (set_model (module_eval (w_model w)) w))
               0%Z outs w' eq_refl He HF).
    reflexivity.
Qed.

End Float32Loops.

(** *** The constant classifier under [test_model] *)

Lemma predicted_class_constant out bias :
  shape out = [1; 2]%nat -> (forall q, get out q = bias (q mod 2)%nat) ->
  predicted_class out 0 = Z.of_nat (argmax 1 bias).
Proof.
  intros Hs Hd. unfold predicted_class. rewrite Hs. f_equal.
  apply argmax_ext. intros k Hk. rewrite Hd.
  destruct k as [|[|k]]; [reflexivity|reflexivity|lia].
Qed.

Lemma predicted_class_constant32 out bias :
  shape out = [1; 2]%nat -> (forall q, get out q = bias (q mod 2)%nat) ->
  predicted_class (mkTensor (shape out) (softmax32_data out)) 0
  = Z.of_nat (argmax 1 (softmax32_row 2 bias)).
Proof.
  intros Hs Hd. unfold predicted_class. cbn [shape]. rewrite Hs. f_equal.
  apply argmax_ext. intros k Hk. unfold get at 1. cbn [data].
  replace (0 * 2 + k)%nat with ((0 * 2 + k) * numel [] + 0)%nat by (cbn; lia).
  rewrite (softmax32_data_at out 1 2 [] 0 k 0 Hs) by (cbn; lia).
  apply softmax32_row_ext; [|lia].
  intros j Hj. rewrite Hd.
  destruct j as [|[|j]]; [reflexivity|reflexivity|lia].
Qed.

Lemma constant_classifier_logits_outputs bias :
  exists logits w',
    eval_outputs LogitsNet (batches one_label_loader)
      (set_grad_enabled false
         (set_model (model_eval LogitsNet
                       (w_model (example_world (constant_classifier bias))))
            (example_world (constant_classifier bias))))
    = Ok ([(logits, mkTensor [1]%nat (fun _ => 1%Z))], w') /\
    shape logits = [1; 2]%nat /\
    (forall q, get logits q = bias (q mod 2)%nat).
Proof.
  destruct (constant_classifier_logits bias 1 (zero_input [1; 28; 28]%nat) seed0 eq_refl)
    as (logits & Hf & Hs & Hd).
  exists logits. eexists. split; [|split; [exact Hs|exact Hd]].
  cbn [batches one_label_loader eval_outputs]. unfold call_model.
  cbn [model_call model_eval LogitsNet set_model set_grad_enabled w_model w_rng
       example_world].
  unfold forward_logits. cbn [module_eval training layers].
  rewrite Hf. cbn [bind]. reflexivity.
Qed.

Lemma constant_classifier_float32_outputs bias :
  exists logits w',
    eval_outputs Float32Net (batches one_label_loader)
      (set_grad_enabled false
         (set_model (model_eval Float32Net
                       (w_model (example_world (constant_classifier bias))))
            (example_world (constant_classifier bias))))
    = Ok ([(mkTensor (shape logits) (softmax32_data logits),
            mkTensor [1]%nat (fun _ => 1%Z))], w') /\
    shape logits = [1; 2]%nat /\
    (forall q, get logits q = bias (q mod 2)%nat).
Proof.
  destruct (constant_classifier_logits bias 1 (zero_input [1; 28; 28]%nat) seed0 eq_refl)
    as (logits & Hf & Hs & Hd).
  exists logits. eexists. split; [|split; [exact Hs|exact Hd]].
  cbn [batches one_label_loader eval_outputs]. unfold call_model.
  cbn [model_call model_eval Float32Net set_model set_grad_enabled w_model w_rng
       example_world].
  unfold forward32. cbn [module_eval training layers].
  rewrite Hf. cbn [bind]. unfold softmax32. rewrite Hs. cbn [softmax_shape bind].
  reflexivity.
Qed.

Lemma constant_classifier_test_model (cls : Classifier net) bias out w' :
  eval_outputs cls (batches one_label_loader)
    (set_grad_enabled false
       (set_model (model_eval cls (w_model (example_world (constant_classifier bias))))
          (example_world (constant_classifier bias))))
  = Ok ([(out, mkTensor [1]%nat (fun _ => 1%Z))], w') ->
  shape out = [1; 2]%nat ->
  exists w'',
    test_model cls (example_world (constant_classifier bias)) one_label_loader 0
    = Ok (Qmake (if (predicted_class out 0 =? 1)%Z then 1 else 0) 1, w'').
Proof.
  intros He Hs.
  assert (HF : Forall scores_and_labels [(out, mkTensor [1]%nat (fun _ => 1%Z))]).
  { repeat constructor. exists 1%nat, 2%nat. cbn [fst snd shape]. repeat split;
      [exact Hs|lia]. }
  rewrite (test_model_unfold net unit unit cls (example_world (constant_classifier bias))
             one_label_loader 0%Z _ w' He HF) by (cbn; lia).
  eexists. f_equal. f_equal.
  cbn [total_correct fold_right num_correct]. rewrite Hs.
  cbn [hd count_upto data dataset_len one_label_loader Pos.of_nat].
  destruct (predicted_class out 0 =? 1)%Z; reflexivity.
Qed.

Lemma top_unshared_wide_gap logits :
  shape logits = [1; 2]%nat -> (forall q, get logits q = wide_gap (q mod 2)%nat) ->
  top_unshared logits.
Proof.
  intros Hs Hd. unfold top_unshared. rewrite Hs. intros i r Hi Hr. cbv zeta.
  set (row := fun k => get logits ((i * 2 + k) * numel [] + r)). intros k Hk.
  assert (Hrow : forall j, (j < 2)%nat -> row j = wide_gap j).
  { intros j Hj. unfold row. rewrite Hd.
    replace i with 0%nat by lia. cbn [numel fold_right] in *.
    replace r with 0%nat by lia.
    destruct j as [|[|j]]; [reflexivity|reflexivity|lia]. }
  change (2 - 1)%nat with 1%nat in *.
  assert (Ha : argmax 1 row = 1%nat).
  { rewrite (argmax_ext 1 row wide_gap) by (intros j Hj; apply Hrow; lia).
    apply argmax_wide_gap. }
  rewrite Ha in *. replace k with 0%nat by lia.
  rewrite (softmax32_row_ext 2 row wide_gap 0 Hrow) by lia.
  rewrite (softmax32_row_ext 2 row wide_gap 1 Hrow) by lia.
  destruct softmax32_row_wide_gap as [H0 H1]. lra.
Qed.

(** C10 as stated fails.  For the scores 0 and 1e-10 the exponentials both
    round to 1, so softmax returns 1/2 twice and the maximum moves from class
    1 to class 0.  A dense classifier whose logits are these scores, tested on
    one example of class 1, has accuracy 1 when its forward pass returns the
    scores and accuracy 0 when it returns their softmax. *)
Lemma softmax32_moves_prediction :
  argmax 1 tiny_gap = 1%nat /\
  argmax 1 (softmax32_row 2 tiny_gap) = 0%nat /\
  exists w1 w2 : world net unit unit,
    test_model LogitsNet (example_world (constant_classifier tiny_gap))
      one_label_loader 0 = Ok (1%Q, w1) /\
    test_model Float32Net (example_world (constant_classifier tiny_gap))
      one_label_loader 0 = Ok (0%Q, w2).
Proof.
  split; [exact argmax_tiny_gap|]. split; [exact argmax_softmax32_tiny_gap|].
  destruct (constant_classifier_logits_outputs tiny_gap) as (l1 & w1 & He1 & Hs1 & Hd1).
  destruct (constant_classifier_float32_outputs tiny_gap) as (l2 & w2 & He2 & Hs2 & Hd2).
  destruct (constant_classifier_test_model LogitsNet tiny_gap _ _ He1 Hs1) as [w1' H1].
  destruct (constant_classifier_test_model Float32Net tiny_gap _ _ He2 Hs2) as [w2' H2].
  rewrite (predicted_class_constant l1 tiny_gap Hs1 Hd1), argmax_tiny_gap in H1.
  rewrite (predicted_class_constant32 l2 tiny_gap Hs2 Hd2), argmax_softmax32_tiny_gap in H2.
  exists w1', w2'. split; [exact H1|exact H2].
Qed.

(** C10, witness: a dense classifier whose logits are 0 and 2 on one example
    of class 1; the probabilities are at most 1/4 and at least 1/2. *)
Lemma softmax32_keeps_predictions_up_to_ties_witness :
  exists (outs : list (tensor R * tensor Z)) (w' w'' : world net unit unit),
    eval_outputs LogitsNet (batches one_label_loader)
      (set_grad_enabled false
         (set_model (module_eval (w_model (example_world (constant_classifier wide_gap))))
            (example_world (constant_classifier wide_gap))))
    = Ok (outs, w') /\
    Forall (fun ot => top_unshared (fst ot)) outs /\
    test_model LogitsNet (example_world (constant_classifier wide_gap))
      one_label_loader 0 = Ok (1%Q, w'') /\
    test_model Float32Net (example_world (constant_classifier wide_gap))
      one_label_loader 0
    = test_model LogitsNet (example_world (constant_classifier wide_gap))
        one_label_loader 0.
Proof.
  destruct (constant_classifier_logits_outputs wide_gap) as (logits & w' & He & Hs & Hd).
  assert (HF : Forall (fun ot : tensor R * tensor Z => top_unshared (fst ot))
                 [(logits, mkTensor [1]%nat (fun _ => 1%Z))]).
  { repeat constructor. cbn [fst]. apply top_unshared_wide_gap; assumption. }
  destruct (constant_classifier_test_model LogitsNet wide_gap _ _ He Hs) as [w'' H1].
  rewrite (predicted_class_constant logits wide_gap Hs Hd), argmax_wide_gap in H1.
  exists [(logits, mkTensor [1]%nat (fun _ => 1%Z))], w', w''.
  split; [exact He|]. split; [exact HF|]. split; [exact H1|].
  destruct (softmax32_keeps_predictions_up_to_ties unit unit) as [_ H].
  exact (H (example_world (constant_classifier wide_gap)) one_label_loader 0%Z _ _ He HF).
Defined.

(** X1, witness: a dense classifier fed one batch of 32 by 32 inputs; the
    shape error of its forward pass is what [train_model] raises. *)
Lemma train_model_propagates_failure_witness :
  exists (self : net) (g' : rng),
    SimpleFCNet_init (28, 28)%Z 10 seed0 = Ok (self, g') /\
    train_model SimpleFCNet (fun g => g) example_step example_criterion example_backward
      (fun l => l) (example_world self) mismatched_loader 0 = Err RuntimeError.
Proof.
  destruct (SimpleFCNet_init_ok (28, 28)%Z 10 seed0) as (self & g' & E); [lia|].
  pose proof (SimpleFCNet_init_arch _ _ _ _ _ E) as Ha.
  exists self, g'. split; [exact E|].
  apply (train_model_propagates_failure net unit unit R SimpleFCNet (fun g => g)
           example_step example_criterion example_backward (fun l => l)).
  cbn [batches mismatched_loader batch_losses]. unfold train_step, call_model.
  cbn [model_call SimpleFCNet w_model w_rng set_model example_world model_train].
  rewrite (output_shape_err
             (SimpleFCNet_forward (module_train self) (zero_input [4; 32; 32]%nat) seed0)
             RuntimeError); [reflexivity|].
  unfold module_train.
  rewrite (SimpleFCNet_hw_output_shape true 10 self 4 32 32
             (zero_input [4; 32; 32]%nat) seed0 Ha eq_refl).
  reflexivity.
Defined.

(** X3, witness: the dense classifier evaluated twice on two batches of four
    samples. *)
Lemma test_model_repeatable_witness :
  exists (self : net) (g' : rng) (test_acc : Q) (w1 w2 : world net unit unit),
    SimpleFCNet_init (28, 28)%Z 10 seed0 = Ok (self, g') /\
    test_model SimpleFCNet (example_world self) example_loader 0 = Ok (test_acc, w1) /\
    test_model SimpleFCNet w1 example_loader 1 = Ok (test_acc, w2).
Proof.
  destruct (SimpleFCNet_init_ok (28, 28)%Z 10 seed0) as (self & g' & E); [lia|].
  pose proof (SimpleFCNet_init_arch _ _ _ _ _ E) as Ha.
  destruct (example_eval_outputs
              (set_grad_enabled false
                 (set_model (model_eval SimpleFCNet (w_model (example_world self)))
                    (example_world self))) Ha eq_refl) as (outs & w0 & He & HF & Hn).
  assert (Hpos : (0 < dataset_len example_loader)%nat) by (cbn; lia).
  pose proof (test_model_unfold net unit unit SimpleFCNet (example_world self)
                example_loader 0%Z outs w0 He HF Hpos) as H.
  destruct (test_model_repeatable unit unit SimpleFCNet (example_world self)
              example_loader 0%Z 1%Z _ _ (or_introl eq_refl) H) as [w2 H2].
  eexists self, g', _, _, w2. split; [exact E|]. split; [exact H|exact H2].
Defined.

(** ** The properties above on the example data *)

Lemma example_training (self : net) (g : rng) (b : nat) :
  architecture self = SimpleFCNet_architecture 10 ->
  exists y self' g',
    SimpleFCNet_forward self (zero_input [b; 28; 28]%nat) g = Ok (y, self', g').
Proof.
  intros Ha.
  destruct (forward_ok_of_shape self (zero_input [b; 28; 28]%nat) g [b; 10]%nat)
    as (y & self' & g' & Hf & _).
  { rewrite <- (net_eta self). apply example_forward_shape. exact Ha. }
  eauto.
Qed.

Lemma example_conv_training (self : net) (g : rng) :
  architecture self = SimpleConvNet_architecture 100 ->
  training self = true ->
  exists y self' g',
    SimpleConvNet_forward self (zero_input [4; 3; 32; 32]%nat) g = Ok (y, self', g').
Proof.
  intros Ha Ht. rewrite SimpleConvNet_forward_eq.
  destruct (forward_ok_of_shape self (zero_input [4; 3; 32; 32]%nat) g [4; 100]%nat)
    as (y & self' & g' & Hf & _).
  { rewrite <- (net_eta self), Ht, forward_shape_mode_arch, Ha.
    cbn [zero_input shape]. rewrite SimpleConvNet_arch_shape by lia.
    replace (flattened_feature_size 32 32 =? 1152)%nat with true
      by (vm_compute; reflexivity).
    reflexivity. }
  eauto.
Qed.

Lemma uneven_eval_outputs (w : world net unit unit) :
  architecture (w_model w) = SimpleFCNet_architecture 10 ->
  training (w_model w) = false ->
  exists outs w',
    eval_outputs SimpleFCNet (batches uneven_loader) w = Ok (outs, w')
    /\ Forall scores_and_labels outs
    /\ total_samples outs = 6%nat.
Proof.
  intros Ha Ht. cbn [batches uneven_loader eval_outputs]. unfold call_model.
  cbn [model_call SimpleFCNet].
  destruct (example_inference (w_model w) (w_rng w) 4 Ha Ht) as (y1 & -> & Hy1).
  cbn [bind w_model w_rng].
  destruct (example_inference (w_model w) (w_rng w) 2 Ha Ht) as (y2 & -> & Hy2).
  cbn [bind].
  eexists. eexists. split; [reflexivity|]. split.
  - repeat constructor; [exists 4%nat, 10%nat|exists 2%nat, 10%nat]; cbn [fst snd];
      repeat split; try assumption; try lia; reflexivity.
  - cbn [total_samples fold_right fst]. rewrite Hy1, Hy2. reflexivity.
Qed.

(** X5, witness: the dense classifier on four one-channel 28 by 28 images. *)
Lemma SimpleFCNet_accepts_witness :
  exists (self : net) (g' : rng),
    SimpleFCNet_init (28, 28)%Z 10 seed0 = Ok (self, g') /\
    output_shape (SimpleFCNet_forward (mkNet false (layers self))
                    (zero_input [4; 1; 28; 28]%nat) seed0) = Ok [4; 10]%nat.
Proof.
  destruct (SimpleFCNet_init_ok (28, 28)%Z 10 seed0) as (self & g' & E); [lia|].
  pose proof (SimpleFCNet_init_arch _ _ _ _ _ E) as Ha.
  exists self, g'. split; [exact E|].
  apply (SimpleFCNet_accepts false 10 self (zero_input [4; 1; 28; 28]%nat) seed0
           [4; 10]%nat Ha).
  exists 4%nat, 1%nat, [28; 28]%nat. repeat split; reflexivity.
Defined.

(** X6, witness: the convolutional classifier on four 32 by 32 images. *)
Lemma SimpleConvNet_accepts_witness :
  exists (self : net) (g' : rng),
    SimpleConvNet_init (32, 32)%Z 100 seed0 = Ok (self, g') /\
    output_shape (SimpleConvNet_forward (mkNet true (layers self))
                    (zero_input [4; 3; 32; 32]%nat) seed0) = Ok [4; 100]%nat.
Proof.
  destruct (SimpleConvNet_init_ok (32, 32)%Z 100 seed0) as (self & g' & E & _ & Ha); [lia|].
  exists self, g'. split; [exact E|].
  destruct (SimpleConvNet_accepts true 100 self (zero_input [4; 3; 32; 32]%nat) seed0 Ha)
    as [_ H].
  apply (H 4%nat 32%nat eq_refl). lia.
Defined.

(** X7, witness: for 32 by 32 images [fc_dim] is 400 and the stack hands on
    1152 features. *)
Lemma fc_dim_below_flattened_size_witness :
  exists n : nat,
    arch_shape true SimpleConvNet_features [4; 3; 32; 32]%nat = Ok [4%nat; n] /\
    n = flattened_feature_size 32 32 /\
    (fc_dim (Z.of_nat 32, Z.of_nat 32) < Z.of_nat n)%Z.
Proof.
  apply (fc_dim_below_flattened_size true 4 32 32); lia.
Defined.

(** X8, witness: the dense classifier in inference mode on four images. *)
Lemma inference_scores_are_probabilities_witness :
  exists (self : net) (g' : rng) (y : tensor R),
    SimpleFCNet_init (28, 28)%Z 10 seed0 = Ok (self, g') /\
    SimpleFCNet_forward (module_eval self) (zero_input [4; 28; 28]%nat) seed0
    = Ok (y, module_eval self, seed0) /\
    exists b : nat,
      shape y = [b; 10%nat] /\
      forall i k, (i < b)%nat -> (k < 10)%nat -> (0 < get y (i * 10 + k) <= 1)%R.
Proof.
  destruct (SimpleFCNet_init_ok (28, 28)%Z 10 seed0) as (self & g' & E); [lia|].
  pose proof (SimpleFCNet_init_arch _ _ _ _ _ E) as Ha.
  destruct (example_inference (module_eval self) seed0 4 Ha eq_refl) as (y & Hf & Hy).
  exists self, g', y. split; [exact E|]. split; [exact Hf|].
  apply (inference_scores_are_probabilities 10 (module_eval self)
           (zero_input [4; 28; 28]%nat) seed0 y (module_eval self) seed0
           (or_introl Ha) eq_refl (or_introl Hf)).
Defined.

(** X9, witness: the convolutional classifier in training mode on four
    32 by 32 images. *)
Lemma forward_keeps_parameters_witness :
  exists (self : net) (g' : rng) (y : tensor R) (self' : net) (g'' : rng),
    SimpleConvNet_init (32, 32)%Z 100 seed0 = Ok (self, g') /\
    SimpleConvNet_forward self (zero_input [4; 3; 32; 32]%nat) g' = Ok (y, self', g'') /\
    net_parameters self' = net_parameters self /\
    architecture self' = architecture self /\
    training self' = training self.
Proof.
  destruct (SimpleConvNet_init_ok (32, 32)%Z 100 seed0) as (self & g' & E & Ht & Ha); [lia|].
  destruct (example_conv_training self g' Ha Ht) as (y & self' & g'' & Hf).
  exists self, g', y, self', g''. split; [exact E|]. split; [exact Hf|].
  apply (forward_keeps_parameters self (zero_input [4; 3; 32; 32]%nat) g' y self' g''
           (or_intror Hf)).
Defined.

(** X10, witness: the dense classifier for (28, 28) inputs and 10 classes. *)
Lemma SimpleFCNet_modes_agree_witness :
  exists (self : net) (g' : rng),
    SimpleFCNet_init (28, 28)%Z 10 seed0 = Ok (self, g') /\
    (forall y self' g'',
       SimpleFCNet_forward self (zero_input [4; 28; 28]%nat) g' = Ok (y, self', g'') ->
       self' = self /\ g'' = g') /\
    SimpleFCNet_forward (module_eval self) (zero_input [4; 28; 28]%nat) g'
    = bind (SimpleFCNet_forward (module_train self) (zero_input [4; 28; 28]%nat) g')
        (fun r => bind (softmax (fst (fst r)))
           (fun y => Ok (y, module_eval self, g'))).
Proof.
  destruct (SimpleFCNet_init_ok (28, 28)%Z 10 seed0) as (self & g' & E); [lia|].
  pose proof (SimpleFCNet_init_arch _ _ _ _ _ E) as Ha.
  exists self, g'. split; [exact E|].
  apply (SimpleFCNet_modes_agree 10 self (zero_input [4; 28; 28]%nat) g' Ha).
Defined.

(** X11, witness: the convolutional classifier as constructed, on four
    32 by 32 images. *)
Lemma SimpleConvNet_training_drops_scores_witness :
  exists (self : net) (g' : rng) (y : tensor R) (self' : net) (g'' : rng)
         (dense : tensor R) (b : nat),
    SimpleConvNet_init (32, 32)%Z 100 seed0 = Ok (self, g') /\
    SimpleConvNet_forward self (zero_input [4; 3; 32; 32]%nat) g' = Ok (y, self', g'') /\
    Sequential_forward true (removelast (layers self)) (zero_input [4; 3; 32; 32]%nat) g'
    = Ok (dense, removelast (layers self'), g') /\
    shape dense = [b; Z.to_nat 100] /\
    shape y = [b; Z.to_nat 100] /\
    g'' = skip g' (b * Z.to_nat 100) /\
    forall q : nat,
      ((stream g' (pos g' + q) < 8 / 10)%R -> get y q = (get dense q * (5 / 4))%R) /\
      ((8 / 10 <= stream g' (pos g' + q))%R -> get y q = 0%R).
Proof.
  destruct (SimpleConvNet_init_ok (32, 32)%Z 100 seed0) as (self & g' & E & Ht & Ha); [lia|].
  destruct (example_conv_training self g' Ha Ht) as (y & self' & g'' & Hf).
  destruct (SimpleConvNet_training_drops_scores (32, 32)%Z 100 seed0 self g'
              (zero_input [4; 3; 32; 32]%nat) g' y self' g'' E Hf) as (dense & b & H).
  exists self, g', y, self', g'', dense, b. split; [exact E|]. split; [exact Hf|]. exact H.
Defined.

(** X12, witness: the dense classifier as constructed, on four all-zero
    images and their doubles. *)
Lemma SimpleFCNet_fresh_logits_scale_witness :
  exists (self : net) (g' : rng) (y : tensor R) (self' : net) (g'' : rng),
    SimpleFCNet_init (28, 28)%Z 10 seed0 = Ok (self, g') /\
    SimpleFCNet_forward self (zero_input [4; 28; 28]%nat) g' = Ok (y, self', g'') /\
    (exists y', SimpleFCNet_forward self (zero_input [4; 28; 28]%nat) g'
                = Ok (y', self', g'') /\ scaled 2 y y') /\
    forall q, get y q = 0%R.
Proof.
  destruct (SimpleFCNet_init_ok (28, 28)%Z 10 seed0) as (self & g' & E); [lia|].
  pose proof (SimpleFCNet_init_arch _ _ _ _ _ E) as Ha.
  destruct (example_training self g' 4 Ha) as (y & self' & g'' & Hf).
  destruct (SimpleFCNet_fresh_logits_scale (28, 28)%Z 10 seed0 self g'
              (zero_input [4; 28; 28]%nat) g' y self' g'' E Hf) as [Hs Hz].
  exists self, g', y, self', g''. split; [exact E|]. split; [exact Hf|]. split.
  - apply (Hs 2%R (zero_input [4; 28; 28]%nat)); [lra|].
    split; [reflexivity|]. intros q. unfold get, zero_input. cbn [data]. ring.
  - apply Hz. intros q. reflexivity.
Defined.

(** X13, witness: the dense classifier on two batches of four samples. *)
Lemma test_model_all_or_none_witness :
  exists (self : net) (g' : rng) (outs : list (tensor R * tensor Z))
         (test_acc : Q) (w'' : world net unit unit),
    SimpleFCNet_init (28, 28)%Z 10 seed0 = Ok (self, g') /\
    test_model SimpleFCNet (example_world self) example_loader 0 = Ok (test_acc, w'') /\
    ((test_acc == 1)%Q <->
     forall out target i, In (out, target) outs -> (i < hd 0%nat (shape out))%nat ->
       predicted_class out i = data target i) /\
    ((test_acc == 0)%Q <->
     forall out target i, In (out, target) outs -> (i < hd 0%nat (shape out))%nat ->
       predicted_class out i <> data target i).
Proof.
  destruct (SimpleFCNet_init_ok (28, 28)%Z 10 seed0) as (self & g' & E); [lia|].
  pose proof (SimpleFCNet_init_arch _ _ _ _ _ E) as Ha.
  destruct (example_eval_outputs
              (set_grad_enabled false
                 (set_model (model_eval SimpleFCNet (w_model (example_world self)))
                    (example_world self))) Ha eq_refl) as (outs & w' & He & HF & Hn).
  destruct (test_model_all_or_none net unit unit SimpleFCNet (example_world self)
              example_loader 0%Z outs w' He HF)
    as (test_acc & w'' & Hm & H1 & H0).
  { cbn. lia. }
  { rewrite Hn. reflexivity. }
  exists self, g', outs, test_acc, w''. auto.
Defined.

(** X14, witness: the dense classifier on a batch of four and a batch of two,
    and on the same batches the other way round. *)
Lemma test_model_batch_order_witness :
  exists (self : net) (g' : rng) (test_acc : Q) (w' : world net unit unit),
    SimpleFCNet_init (28, 28)%Z 10 seed0 = Ok (self, g') /\
    test_model SimpleFCNet (example_world self) uneven_loader 0 = Ok (test_acc, w') /\
    test_model SimpleFCNet (example_world self)
      (mkLoader [(zero_input [2; 28; 28]%nat, zero_labels 2);
                 (zero_input [4; 28; 28]%nat, zero_labels 4)] 6) 0
    = Ok (test_acc, w').
Proof.
  destruct (SimpleFCNet_init_ok (28, 28)%Z 10 seed0) as (self & g' & E); [lia|].
  pose proof (SimpleFCNet_init_arch _ _ _ _ _ E) as Ha.
  destruct (uneven_eval_outputs
              (set_grad_enabled false
                 (set_model (model_eval SimpleFCNet (w_model (example_world self)))
                    (example_world self))) Ha eq_refl) as (outs & w0 & He & HF & Hn).
  assert (Hpos : (0 < dataset_len uneven_loader)%nat) by (cbn; lia).
  pose proof (test_model_unfold net unit unit SimpleFCNet (example_world self)
                uneven_loader 0%Z outs w0 He HF Hpos) as H.
  eexists self, g', _, _. split; [exact E|]. split; [exact H|].
  apply (test_model_batch_order unit unit SimpleFCNet (example_world self) uneven_loader
           [(zero_input [2; 28; 28]%nat, zero_labels 2);
            (zero_input [4; 28; 28]%nat, zero_labels 4)] 0%Z _ _ (or_introl eq_refl)).
  - apply perm_swap.
  - exact H.
Defined.

(** X15, witness: gradients counted as a number that [zero_grad] resets to
    0; seven stale gradients make no difference. *)
Lemma train_model_ignores_stale_gradients_witness :
  exists (self : net) (g' : rng),
    SimpleFCNet_init (28, 28)%Z 10 seed0 = Ok (self, g') /\
    train_model SimpleFCNet (fun _ : nat => 0%nat)
      (fun (o : unit) (m : net) (_ : nat) => Ok (o, m)) example_criterion
      (fun (_ : R) (_ : net) (grads : nat) => Ok (S grads)) (fun l : R => l)
      (set_grads 7%nat (mkWorld self 0%nat tt seed0 true 0%nat [])) example_loader 0
    = train_model SimpleFCNet (fun _ : nat => 0%nat)
        (fun (o : unit) (m : net) (_ : nat) => Ok (o, m)) example_criterion
        (fun (_ : R) (_ : net) (grads : nat) => Ok (S grads)) (fun l : R => l)
        (mkWorld self 0%nat tt seed0 true 0%nat []) example_loader 0.
Proof.
  destruct (SimpleFCNet_init_ok (28, 28)%Z 10 seed0) as (self & g' & E); [lia|].
  exists self, g'. split; [exact E|].
  apply (train_model_ignores_stale_gradients net nat unit R SimpleFCNet
           (fun _ : nat => 0%nat) (fun (o : unit) (m : net) (_ : nat) => Ok (o, m))
           example_criterion (fun (_ : R) (_ : net) (grads : nat) => Ok (S grads))
           (fun l : R => l) 0%nat).
  intros grads. reflexivity.
Defined.

Lemma example_step_keeps_architecture (o : unit) (m : net) (gr : unit) o' m' :
  example_step o m gr = Ok (o', m') -> architecture m' = architecture m.
Proof.
  unfold example_step. intros H. apply Ok_pair_inj in H. destruct H as [_ <-].
  reflexivity.
Qed.

(** X16, witness: the dense classifier evaluated and then trained on two
    batches of four samples, the generator moved on by five samples in
    between. *)
Lemma test_model_then_train_model_witness :
  exists (self : net) (g' : rng) (test_acc : Q) (w1 : world net unit unit)
         (loss : R) (w2 w2' : world net unit unit),
    SimpleFCNet_init (28, 28)%Z 10 seed0 = Ok (self, g') /\
    test_model SimpleFCNet (example_world self) example_loader 0 = Ok (test_acc, w1) /\
    train_model SimpleFCNet (fun g => g) example_step example_criterion example_backward
      (fun l => l) (example_world self) example_loader 1 = Ok (loss, w2) /\
    train_model SimpleFCNet (fun g => g) example_step example_criterion example_backward
      (fun l => l) (set_rng (skip seed0 5) w1) example_loader 1 = Ok (loss, w2') /\
    same_learning_state w2 w2'.
Proof.
  destruct (SimpleFCNet_init_ok (28, 28)%Z 10 seed0) as (self & g' & E); [lia|].
  pose proof (SimpleFCNet_init_arch _ _ _ _ _ E) as Ha.
  destruct (example_eval_outputs
              (set_grad_enabled false
                 (set_model (model_eval SimpleFCNet (w_model (example_world self)))
                    (example_world self))) Ha eq_refl) as (outs & w0 & He & HF & Hn).
  assert (Hpos : (0 < dataset_len example_loader)%nat) by (cbn; lia).
  pose proof (test_model_unfold net unit unit SimpleFCNet (example_world self)
                example_loader 0%Z outs w0 He HF Hpos) as H.
  destruct (example_batch_losses
              (set_model (model_train SimpleFCNet (w_model (example_world self)))
                 (example_world self)) Ha) as (ls & w' & Hl).
  destruct (train_loop_batch_losses net unit unit R SimpleFCNet (fun g => g)
              example_step example_criterion example_backward (fun l => l)
              _ _ 0%R _ _ Hl) as [Hloop _].
  assert (Ht : exists loss w2,
             train_model SimpleFCNet (fun g => g) example_step example_criterion
               example_backward (fun l => l) (example_world self) example_loader 1
             = Ok (loss, w2)).
  { unfold train_model. rewrite Hloop. cbn [bind].
    change (len example_loader =? 0)%nat with false. cbv iota. eauto. }
  destruct Ht as (loss & w2 & Ht).
  destruct (test_model_then_train_model unit unit R (fun g => g) example_step
              example_criterion example_backward (fun l => l)
              example_step_keeps_architecture
              10 (example_world self) example_loader 0%Z _ _ (skip seed0 5)
              example_loader 1%Z Ha H) as [Hok _].
  destruct (Hok loss w2 Ht) as (w2' & Ht' & Hs).
  eexists self, g', _, _, loss, w2, w2'.
  split; [exact E|]. split; [exact H|]. split; [exact Ht|]. split; [exact Ht'|exact Hs].
Defined.
